(** * The comment thread of the post detail page (DetailPage)

    A shallow embedding of the comment code of [DetailPage]: the two-tier
    reply assembly done inside [fetchComments], the per-comment view
    [CommentBlock], and the handlers for submitting comments and replies
    and for toggling a like.

    Conventions of the embedding:
    - a JavaScript string is the list of its UTF-16 code units;
    - [T | null] is [option T], with [None] for [null];
    - a [Map<string, V>] is a [gmap jsstring V], a [Set<string>] a
      [gset jsstring];
    - [new Date(s).getTime()] is a function [getTime] taken as a section
      variable, into [option Z]: a whole number of milliseconds, or
      [None] for the NaN of a string that is not a date;
    - [Array.prototype.sort] is the stable sort ECMAScript prescribes; for
      a comparator that is a consistent order its result is unique, and it
      is computed here by stable insertion; a comparator value of NaN is
      read as +0;
    - the assembly is embedded twice: as a function on values, and as a
      program on a heap of cells ([Module Heap]) where objects, arrays
      and maps have addresses. *)

From Stdlib Require Import ZArith NArith Ascii String.
From stdpp Require Import base tactics option list sorting gmap strings.

Local Open Scope Z_scope.

(** ** JavaScript strings *)

Module JsString.

Definition jsstring := list N.

  (** Continuation byte of a UTF-8 sequence: its six payload bits. *)
Definition cont (b : N) : N := N.land b 63.

  (** The UTF-16 code units of the code point [cp]. *)
Definition units_of_codepoint (cp : N) : list N :=
    if (cp <? 65536)%N then [cp]
    else
      let v := (cp - 65536)%N in
      [(55296 + N.shiftr v 10)%N; (56320 + N.land v 1023)%N].

  (** Decoding of the UTF-8 bytes of a source literal into code units. *)
Fixpoint decode (bs : list N) : list N :=
    match bs with
    | [] => []
    | b0 :: r0 =>
        if (b0 <? 128)%N then b0 :: decode r0
        else if (b0 <? 224)%N then
          match r0 with
          | b1 :: r1 => (N.land b0 31 * 64 + cont b1)%N :: decode r1
          | _ => []
          end
        else if (b0 <? 240)%N then
          match r0 with
          | b1 :: b2 :: r2 =>
              (N.land b0 15 * 4096 + cont b1 * 64 + cont b2)%N :: decode r2
          | _ => []
          end
        else
          match r0 with
          | b1 :: b2 :: b3 :: r3 =>
              units_of_codepoint
                (N.land b0 7 * 262144 + cont b1 * 4096 + cont b2 * 64 + cont b3)%N
                ++ decode r3
          | _ => []
          end
    end.

  (** A string literal of the source, as a JavaScript string. *)
Definition js (s : string) : jsstring :=
    decode (N_of_ascii <$> list_ascii_of_string s).

  (** [WhiteSpace] and [LineTerminator] of ECMAScript: what
      [String.prototype.trim] strips. *)
Definition is_trimmable (u : N) : bool :=
    ((u =? 9) || (u =? 10) || (u =? 11) || (u =? 12) || (u =? 13)
     || (u =? 32) || (u =? 160) || (u =? 5760)
     || ((8192 <=? u) && (u <=? 8202))
     || (u =? 8232) || (u =? 8233) || (u =? 8239) || (u =? 8287)
     || (u =? 12288) || (u =? 65279))%N.

Fixpoint trimStart (s : jsstring) : jsstring :=
    match s with
    | [] => []
    | u :: r => if is_trimmable u then trimStart r else s
    end.

  (** [s.trim()] *)
Definition trim (s : jsstring) : jsstring :=
    reverse (trimStart (reverse (trimStart s))).

  (** [s.slice(0, n)] for a non-negative [n]. *)
Definition slice0 (n : nat) (s : jsstring) : jsstring := take n s.

  (** Truthiness of a string: [!!s]. *)
Definition truthy (s : jsstring) : bool :=
    match s with [] => false | _ => true end.

  (** [a < b] on strings: lexicographic on code units. *)
Fixpoint ltb (a b : jsstring) : bool :=
    match a, b with
    | _, [] => false
    | [], _ :: _ => true
    | x :: a', y :: b' =>
        if (x <? y)%N then true
        else if (y <? x)%N then false
        else ltb a' b'
    end.

End JsString.
Export JsString.

(** ** Data model (the interfaces of DetailPage) *)

(** [interface ProfileRow] *)
Record ProfileRow := {
  nickname : option jsstring;
  avatar_url : option jsstring;
}.

(** [interface CommentRow] *)
Record CommentRow := {
  id : jsstring;
  post_id : jsstring;
  user_id : jsstring;
  content : jsstring;
  created_at : jsstring;
  parent_id : option jsstring;
  likes_count : Z;
  deleted_at : option jsstring;
  profiles : option ProfileRow;
}.

(** The optional field [parent?: CommentRow | null] of a [ReplyItem]:
    absent or [undefined], [null], or a comment. *)
Inductive ParentRef :=
  | ParentUndefined
  | ParentNull
  | ParentRow (p : CommentRow).

(** [type ReplyItem = CommentRow & { parent?: CommentRow | null }] *)
Record ReplyItem := {
  reply_row : CommentRow;
  parent : ParentRef;
}.

(** [type CommentWithReplies = CommentRow & { replies: ReplyItem[] }] *)
Record CommentWithReplies := {
  group_row : CommentRow;
  replies : list ReplyItem;
}.

Global Instance ProfileRow_eq_dec : EqDecision ProfileRow.
Proof. solve_decision. Defined.
Global Instance CommentRow_eq_dec : EqDecision CommentRow.
Proof. solve_decision. Defined.
Global Instance ParentRef_eq_dec : EqDecision ParentRef.
Proof. solve_decision. Defined.
Global Instance ReplyItem_eq_dec : EqDecision ReplyItem.
Proof. solve_decision. Defined.
Global Instance CommentWithReplies_eq_dec : EqDecision CommentWithReplies.
Proof. solve_decision. Defined.

Definition COMMENTS_PAGE_SIZE : nat := 20.
Definition COMMENT_MAX_LENGTH : nat := 1000.

(** ** Numbers that may be NaN

    A time value, as [new Date(s).getTime()] returns it, is a whole number
    of milliseconds of magnitude at most 8.64e15, or NaN when [s] is not
    a date: [Some t] and [None]. *)

(** [x - y]: NaN when either side is. The doubles compute the difference
    of two time values up to a rounding of its magnitude, so it is
    negative, zero or positive as the exact difference is, and the sort
    reads nothing else of it. *)
Definition number_minus (x y : option Z) : option Z :=
  match x, y with
  | Some a, Some b => Some (a - b)
  | _, _ => None
  end.

(** ** Array.prototype.sort *)

Section ArraySort.
  Context {A : Type} (cmp : A → A → option Z).

  (** What the sort reads from a call [cmp x y]: whether the value is
      greater than zero. NaN is read as +0. *)
Definition sorts_after (x y : A) : bool :=
    match cmp x y with
    | Some v => 0 <? v
    | None => false
    end.

  (** [x] is placed before the first element it must precede: it moves
      past [y] only when [cmp x y > 0]. *)
Fixpoint sort_insert (x : A) (l : list A) : list A :=
    match l with
    | [] => [x]
    | y :: l' => if sorts_after x y then y :: sort_insert x l' else x :: l
    end.

  (** [l.sort(cmp)]: elements that compare equal keep their order. When
      [cmp] orders the elements consistently, this is the list that every
      stable sort returns. A comparator that answers NaN for some pairs
      and a sign for others is not consistent, and the order is then left
      to the engine; what is proved about the order below is proved for
      consistent comparators only. *)
Definition array_sort (l : list A) : list A := foldr sort_insert [] l.
End ArraySort.

(** ** The reply assembly of fetchComments *)

Section Assembler.
  (** [new Date(s).getTime()]: [None] is NaN, for a string that is not a
      date. *)
  Variable getTime : jsstring → option Z.
  (** [profilesMap], filled from the [profiles] table. *)
  Variable profilesMap : gmap jsstring ProfileRow.

  (** [attachProfiles]: [{ ...c, profiles: profilesMap.get(c.user_id) ?? null }] *)
Definition attachProfiles (c : CommentRow) : CommentRow :=
    {| id := id c; post_id := post_id c; user_id := user_id c;
       content := content c; created_at := created_at c;
       parent_id := parent_id c; likes_count := likes_count c;
       deleted_at := deleted_at c;
       profiles := profilesMap !! user_id c |}.

  (** [directReplies.forEach((r) => directReplyMap.set(r.id, attachProfiles(r)))] *)
Definition build_directReplyMap (directReplies : list CommentRow)
    : gmap jsstring CommentRow :=
    foldl (λ m r, <[id r := attachProfiles r]> m) ∅ directReplies.

  (** [directIds.includes(n.parent_id!)]: [null] is no element of an array
      of strings. *)
Definition includes (directIds : list jsstring) (p : option jsstring) : bool :=
    match p with
    | Some k => bool_decide (k ∈ directIds)
    | None => false
    end.

  (** [directReplyMap.get(n.parent_id!)] *)
Definition map_get (m : gmap jsstring CommentRow) (p : option jsstring) : ParentRef :=
    match p with
    | Some k => match m !! k with Some d => ParentRow d | None => ParentUndefined end
    | None => ParentUndefined
    end.

  (** The comparator of the sort:
      [new Date(b.created_at).getTime() - new Date(a.created_at).getTime()] *)
Definition compare_replies (a b : ReplyItem) : option Z :=
    number_minus (getTime (created_at (reply_row b)))
      (getTime (created_at (reply_row a))).

  (** [direct]: the direct replies of [c], with profiles. *)
Definition direct_of (directReplies : list CommentRow) (c : CommentRow)
    : list CommentRow :=
    attachProfiles <$> filter (λ r, parent_id r = Some (id c)) directReplies.

  (** [nested]: the replies to the direct replies of [c], each with its
      direct reply as [parent]. *)
Definition nested_of (directReplyMap : gmap jsstring CommentRow)
      (directIds : list jsstring) (nestedReplies : list CommentRow)
    : list ReplyItem :=
    (λ n, {| reply_row := attachProfiles n;
             parent := map_get directReplyMap (parent_id n) |})
      <$> filter (λ n, includes directIds (parent_id n) = true) nestedReplies.

  (** The array literal that is sorted: [[...direct.map(...), ...nested]] *)
Definition merged_of (directReplyMap : gmap jsstring CommentRow)
      (directReplies nestedReplies : list CommentRow) (c : CommentRow)
    : list ReplyItem :=
    let direct := direct_of directReplies c in
    let directIds := id <$> direct in
    let nested := nested_of directReplyMap directIds nestedReplies in
    ((λ r, {| reply_row := r; parent := ParentNull |}) <$> direct) ++ nested.

  (** [withReplies]: one group per top-level comment of the page
      ([topLevel] is the array the source calls [list]). *)
Definition withReplies (topLevel directReplies nestedReplies : list CommentRow)
    : list CommentWithReplies :=
    let directReplyMap := build_directReplyMap directReplies in
    (λ c,
       let flatReplies :=
         array_sort compare_replies
           (merged_of directReplyMap directReplies nestedReplies c) in
       {| group_row := attachProfiles c; replies := flatReplies |})
      <$> topLevel.
End Assembler.


(** ** The state of DetailPage and what its handlers emit *)

(** The signed-in user of [useAuth]; only [user.id] is read. *)
Record AuthUser := { auth_id : jsstring }.

(** The [useState] cells of the page that the comment code reads or
    writes, with the two values it takes from hooks. *)
Record PageState := {
  user : option AuthUser;
  page_id : option jsstring;  (* [id] of [useParams] *)
  comments : list CommentWithReplies;
  commentsLoading : bool;
  hasMoreComments : bool;
  commentInput : jsstring;
  commentSubmitting : bool;
  replyToId : option jsstring;
  replyInput : jsstring;
  replySubmitting : bool;
  editCommentId : option jsstring;
  editContent : jsstring;
  likedCommentIds : gset jsstring;
}.

Definition setComments (f : list CommentWithReplies → list CommentWithReplies)
    (s : PageState) : PageState :=
  {| user := user s; page_id := page_id s; comments := f (comments s);
     commentsLoading := commentsLoading s; hasMoreComments := hasMoreComments s;
     commentInput := commentInput s; commentSubmitting := commentSubmitting s;
     replyToId := replyToId s; replyInput := replyInput s;
     replySubmitting := replySubmitting s; editCommentId := editCommentId s;
     editContent := editContent s; likedCommentIds := likedCommentIds s |}.

Definition setCommentsLoading (b : bool) (s : PageState) : PageState :=
  {| user := user s; page_id := page_id s; comments := comments s;
     commentsLoading := b; hasMoreComments := hasMoreComments s;
     commentInput := commentInput s; commentSubmitting := commentSubmitting s;
     replyToId := replyToId s; replyInput := replyInput s;
     replySubmitting := replySubmitting s; editCommentId := editCommentId s;
     editContent := editContent s; likedCommentIds := likedCommentIds s |}.

Definition setHasMoreComments (b : bool) (s : PageState) : PageState :=
  {| user := user s; page_id := page_id s; comments := comments s;
     commentsLoading := commentsLoading s; hasMoreComments := b;
     commentInput := commentInput s; commentSubmitting := commentSubmitting s;
     replyToId := replyToId s; replyInput := replyInput s;
     replySubmitting := replySubmitting s; editCommentId := editCommentId s;
     editContent := editContent s; likedCommentIds := likedCommentIds s |}.

Definition setCommentInput (v : jsstring) (s : PageState) : PageState :=
  {| user := user s; page_id := page_id s; comments := comments s;
     commentsLoading := commentsLoading s; hasMoreComments := hasMoreComments s;
     commentInput := v; commentSubmitting := commentSubmitting s;
     replyToId := replyToId s; replyInput := replyInput s;
     replySubmitting := replySubmitting s; editCommentId := editCommentId s;
     editContent := editContent s; likedCommentIds := likedCommentIds s |}.

Definition setCommentSubmitting (b : bool) (s : PageState) : PageState :=
  {| user := user s; page_id := page_id s; comments := comments s;
     commentsLoading := commentsLoading s; hasMoreComments := hasMoreComments s;
     commentInput := commentInput s; commentSubmitting := b;
     replyToId := replyToId s; replyInput := replyInput s;
     replySubmitting := replySubmitting s; editCommentId := editCommentId s;
     editContent := editContent s; likedCommentIds := likedCommentIds s |}.

Definition setReplyToId (v : option jsstring) (s : PageState) : PageState :=
  {| user := user s; page_id := page_id s; comments := comments s;
     commentsLoading := commentsLoading s; hasMoreComments := hasMoreComments s;
     commentInput := commentInput s; commentSubmitting := commentSubmitting s;
     replyToId := v; replyInput := replyInput s;
     replySubmitting := replySubmitting s; editCommentId := editCommentId s;
     editContent := editContent s; likedCommentIds := likedCommentIds s |}.

Definition setReplyInput (v : jsstring) (s : PageState) : PageState :=
  {| user := user s; page_id := page_id s; comments := comments s;
     commentsLoading := commentsLoading s; hasMoreComments := hasMoreComments s;
     commentInput := commentInput s; commentSubmitting := commentSubmitting s;
     replyToId := replyToId s; replyInput := v;
     replySubmitting := replySubmitting s; editCommentId := editCommentId s;
     editContent := editContent s; likedCommentIds := likedCommentIds s |}.

Definition setReplySubmitting (b : bool) (s : PageState) : PageState :=
  {| user := user s; page_id := page_id s; comments := comments s;
     commentsLoading := commentsLoading s; hasMoreComments := hasMoreComments s;
     commentInput := commentInput s; commentSubmitting := commentSubmitting s;
     replyToId := replyToId s; replyInput := replyInput s;
     replySubmitting := b; editCommentId := editCommentId s;
     editContent := editContent s; likedCommentIds := likedCommentIds s |}.

Definition setEditCommentId (v : option jsstring) (s : PageState) : PageState :=
  {| user := user s; page_id := page_id s; comments := comments s;
     commentsLoading := commentsLoading s; hasMoreComments := hasMoreComments s;
     commentInput := commentInput s; commentSubmitting := commentSubmitting s;
     replyToId := replyToId s; replyInput := replyInput s;
     replySubmitting := replySubmitting s; editCommentId := v;
     editContent := editContent s; likedCommentIds := likedCommentIds s |}.

Definition setEditContent (v : jsstring) (s : PageState) : PageState :=
  {| user := user s; page_id := page_id s; comments := comments s;
     commentsLoading := commentsLoading s; hasMoreComments := hasMoreComments s;
     commentInput := commentInput s; commentSubmitting := commentSubmitting s;
     replyToId := replyToId s; replyInput := replyInput s;
     replySubmitting := replySubmitting s; editCommentId := editCommentId s;
     editContent := v; likedCommentIds := likedCommentIds s |}.

Definition setLikedCommentIds (f : gset jsstring → gset jsstring)
    (s : PageState) : PageState :=
  {| user := user s; page_id := page_id s; comments := comments s;
     commentsLoading := commentsLoading s; hasMoreComments := hasMoreComments s;
     commentInput := commentInput s; commentSubmitting := commentSubmitting s;
     replyToId := replyToId s; replyInput := replyInput s;
     replySubmitting := replySubmitting s; editCommentId := editCommentId s;
     editContent := editContent s; likedCommentIds := f (likedCommentIds s) |}.

(** What a handler sends out: commands to the backend, toasts, the console,
    and a request to load the comments again. *)
Inductive Effect :=
  | ToastError (message : jsstring)
  | ToastSuccess (message : jsstring)
  | ConsoleError
  | InsertComment (post user body : jsstring) (parent_comment : option jsstring)
  | UpdateCommentDeleted (comment actor : jsstring)
  | DeleteCommentLike (comment actor : jsstring)
  | InsertCommentLike (comment actor : jsstring)
  | FetchComments (page : nat) (append : bool).

(** How an awaited backend call ends: a result without error, a result
    with [error] set, or a rejected promise. *)
Inductive Awaited := Fulfilled | FulfilledWithError | Rejected.

(** [!id] for the route parameter. *)
Definition page_id_missing (s : PageState) : bool :=
  match page_id s with Some i => negb (truthy i) | None => true end.

(** [handleSubmitComment] *)
Definition handleSubmitComment (answer : Awaited) (s : PageState)
  : PageState * list Effect :=
  match user s, page_id s with
  | Some u, Some i =>
      if negb (truthy i) then (s, [ToastError (js "로그인이 필요합니다.")])
      else
        let content := trim (commentInput s) in
        if negb (truthy content) then
          (s, [ToastError (js "댓글 내용을 입력해주세요.")])
        else if (COMMENT_MAX_LENGTH <? length content)%nat then
          (* the template literal with COMMENT_MAX_LENGTH = 1000 *)
          (s, [ToastError (js "댓글은 1000자 이하여야 합니다.")])
        else
          let insert := InsertComment i (auth_id u) content None in
          match answer with
          | Fulfilled =>
              (setCommentSubmitting false
                 (setCommentInput [] (setCommentSubmitting true s)),
               [insert; ToastSuccess (js "댓글이 작성되었습니다.");
                FetchComments 0 false])
          | FulfilledWithError | Rejected =>
              (setCommentSubmitting false (setCommentSubmitting true s),
               [insert; ConsoleError; ToastError (js "댓글 작성에 실패했습니다.")])
          end
  | _, _ => (s, [ToastError (js "로그인이 필요합니다.")])
  end.

(** [handleSubmitReply] *)
Definition handleSubmitReply (parentId : jsstring) (answer : Awaited)
    (s : PageState) : PageState * list Effect :=
  match user s, page_id s with
  | Some u, Some i =>
      if negb (truthy i) then (s, [])
      else
        let content := trim (replyInput s) in
        if negb (truthy content) || (COMMENT_MAX_LENGTH <? length content)%nat then
          (* the template literal with COMMENT_MAX_LENGTH = 1000 *)
          (s, [ToastError (js "댓글은 1~1000자로 입력해주세요.")])
        else
          let insert := InsertComment i (auth_id u) content (Some parentId) in
          match answer with
          | Fulfilled =>
              (setReplySubmitting false
                 (setReplyToId None
                    (setReplyInput [] (setReplySubmitting true s))),
               [insert; ToastSuccess (js "답글이 작성되었습니다.");
                FetchComments 0 false])
          | FulfilledWithError | Rejected =>
              (setReplySubmitting false (setReplySubmitting true s),
               [insert; ConsoleError; ToastError (js "답글 작성에 실패했습니다.")])
          end
  | _, _ => (s, [])
  end.

(** The two updaters that [handleToggleLike] gives to [setComments]. *)
Definition unlike_row (c : CommentRow) : CommentRow :=
  {| id := id c; post_id := post_id c; user_id := user_id c;
     content := content c; created_at := created_at c;
     parent_id := parent_id c; likes_count := Z.max 0 (likes_count c - 1);
     deleted_at := deleted_at c; profiles := profiles c |}.

Definition like_row (c : CommentRow) : CommentRow :=
  {| id := id c; post_id := post_id c; user_id := user_id c;
     content := content c; created_at := created_at c;
     parent_id := parent_id c; likes_count := likes_count c + 1;
     deleted_at := deleted_at c; profiles := profiles c |}.

(** [prev.map((c) => { if (c.id === commentId) return { ...c, likes_count: .. };
    return { ...c, replies: c.replies.map((r) => r.id === commentId ? .. : r) } })] *)
Definition update_likes (upd : CommentRow → CommentRow) (commentId : jsstring)
    (prev : list CommentWithReplies) : list CommentWithReplies :=
  (λ c,
     if decide (id (group_row c) = commentId) then
       {| group_row := upd (group_row c); replies := replies c |}
     else
       {| group_row := group_row c;
          replies :=
            (λ r, if decide (id (reply_row r) = commentId)
                  then {| reply_row := upd (reply_row r); parent := parent r |}
                  else r) <$> replies c |})
    <$> prev.

(** [handleToggleLike]: the awaited call returns a result that is not
    looked at, so only a rejected promise reaches the [catch]. *)
Definition handleToggleLike (commentId : jsstring) (answer : Awaited)
    (s : PageState) : PageState * list Effect :=
  match user s with
  | None => (s, [])
  | Some u =>
      let liked := bool_decide (commentId ∈ likedCommentIds s) in
      if liked then
        let command := DeleteCommentLike commentId (auth_id u) in
        match answer with
        | Rejected => (s, [command; ConsoleError; ToastError (js "처리하지 못했습니다.")])
        | Fulfilled | FulfilledWithError =>
            (setComments (update_likes unlike_row commentId)
               (setLikedCommentIds (λ prev, prev ∖ {[commentId]}) s),
             [command])
        end
      else
        let command := InsertCommentLike commentId (auth_id u) in
        match answer with
        | Rejected => (s, [command; ConsoleError; ToastError (js "처리하지 못했습니다.")])
        | Fulfilled | FulfilledWithError =>
            (setComments (update_likes like_row commentId)
               (setLikedCommentIds (λ prev, prev ∪ {[commentId]}) s),
             [command])
        end
  end.

(** [c.profiles?.nickname || fallback] *)
Definition nickname_or (fallback : jsstring) (c : CommentRow) : jsstring :=
  match profiles c with
  | Some p =>
      match nickname p with
      | Some n => if truthy n then n else fallback
      | None => fallback
      end
  | None => fallback
  end.

(** [openReplyInput]: the reply box opens under [comment], prefilled with
    a mention. *)
Definition openReplyInput (comment : CommentRow) (s : PageState) : PageState :=
  let nickname := nickname_or (js "알 수 없음") comment in
  setReplyInput (js "@" ++ nickname ++ js " ") (setReplyToId (Some (id comment)) s).

(** [handleStartEdit] *)
Definition handleStartEdit (comment : CommentRow) (s : PageState) : PageState :=
  setEditContent (content comment) (setEditCommentId (Some (id comment)) s).

(** [handleDeleteComment]: [confirmed] is the answer of [window.confirm];
    the state changes only through the reload it asks for. *)
Definition handleDeleteComment (commentId : jsstring) (confirmed : bool)
    (answer : Awaited) (s : PageState) : PageState * list Effect :=
  if negb confirmed then (s, [])
  else
    match user s with
    | None => (s, [ConsoleError; ToastError (js "삭제에 실패했습니다.")])  (* [user!.id] throws *)
    | Some u =>
        let command := UpdateCommentDeleted commentId (auth_id u) in
        match answer with
        | Fulfilled =>
            (s, [command; ToastSuccess (js "댓글이 삭제되었습니다.");
                 FetchComments 0 false])
        | FulfilledWithError | Rejected =>
            (s, [command; ConsoleError; ToastError (js "삭제에 실패했습니다.")])
        end
    end.

(** What the backend answers to the queries of one [fetchComments] call.
    [None] for [topLevel] is the case [topError]; a missing [data] of a
    later query is the empty array ([data || []]). *)
Record Fetched := {
  fetched_topLevel : option (list CommentRow);
  fetched_replies : list CommentRow;
  fetched_nested : list CommentRow;
  fetched_profiles : list (jsstring * ProfileRow);
  fetched_liked : gset jsstring;
}.

(** [for (const p of profilesData) profilesMap.set(p.id, {...})] *)
Definition build_profilesMap (profilesData : list (jsstring * ProfileRow))
  : gmap jsstring ProfileRow :=
  foldl (λ m p, <[p.1 := p.2]> m) ∅ profilesData.

(** [fetchComments(page, append)] once its queries have answered. *)
Definition fetchComments (getTime : jsstring → option Z) (append : bool)
    (answers : Fetched) (s : PageState) : PageState * list Effect :=
  if page_id_missing s then (s, [])
  else
    match fetched_topLevel answers with
    | None =>
        (setCommentsLoading false (setCommentsLoading true s),
         [ConsoleError; ToastError (js "댓글을 불러오지 못했습니다.")])
    | Some topLevel =>
        let s1 :=
          setHasMoreComments (bool_decide (length topLevel = COMMENTS_PAGE_SIZE))
            (setCommentsLoading true s) in
        match topLevel with
        | [] =>
            if append then (setCommentsLoading false s1, [])
            else (setCommentsLoading false (setComments (λ _, []) s1), [])
        | _ :: _ =>
            let directReplies := fetched_replies answers in
            let nestedReplies :=
              match directReplies with
              | [] => []
              | _ :: _ => fetched_nested answers
              end in
            let profilesMap := build_profilesMap (fetched_profiles answers) in
            let groups :=
              withReplies getTime profilesMap topLevel directReplies nestedReplies in
            let s2 := setLikedCommentIds (λ _, fetched_liked answers) s1 in
            (setCommentsLoading false
               (setComments (λ prev, if append then prev ++ groups else groups) s2),
             [])
        end
    end.

(** ** What the page shows for a comment *)

(** The round picture: the avatar image, or the first code unit of the
    nickname on a gradient seeded by the author. *)
Inductive AvatarView :=
  | AvatarImage (src : jsstring)
  | AvatarInitial (seed : jsstring) (initial : jsstring).

(** The three bodies of a block. *)
Inductive BodyView :=
  | BodyDeletedNotice (notice : jsstring)
  | BodyEditForm (value : jsstring)
  | BodyContent (text : jsstring).

(** The like button of a signed-in viewer. *)
Record LikeButton := { heart_filled : bool; shown_count : Z }.

(** The row of actions under a body. A field is [None] or [false] when
    the control is not rendered. *)
Record ActionsView := {
  like_button : option LikeButton;
  like_count_only : option Z;
  reply_button : bool;
  edit_button : bool;
  delete_button : bool;
}.

Record CommentBlockView := {
  block_key : jsstring;
  indented : bool;
  avatar : AvatarView;
  shown_nickname : jsstring;
  time_of : jsstring;
  replying_to : option jsstring;
  body : BodyView;
  actions : option ActionsView;
}.

(** [c.profiles?.avatar_url] when it is truthy. *)
Definition avatar_src (c : CommentRow) : option jsstring :=
  match profiles c with
  | Some p =>
      match avatar_url p with
      | Some a => if truthy a then Some a else None
      | None => None
      end
  | None => None
  end.

(** [!!c.deleted_at] *)
Definition isDeleted (c : CommentRow) : bool :=
  match deleted_at c with Some d => truthy d | None => false end.

(** [user?.id === c.user_id] *)
Definition isOwn (s : PageState) (c : CommentRow) : bool :=
  match user s with
  | Some u => bool_decide (auth_id u = user_id c)
  | None => false
  end.

(** [!isDeleted && editCommentId === c.id] *)
Definition isEditing (s : PageState) (c : CommentRow) : bool :=
  negb (isDeleted c) && bool_decide (editCommentId s = Some (id c)).

(** [CommentBlock] *)
Definition CommentBlock (s : PageState) (c : CommentRow) (isReply : bool)
    (parent : ParentRef) : CommentBlockView :=
  let liked := bool_decide (id c ∈ likedCommentIds s) in
  let signed_in := bool_decide (is_Some (user s)) in
  {| block_key := id c;
     indented := isReply;
     avatar :=
       match avatar_src c with
       | Some src => AvatarImage src
       | None => AvatarInitial (user_id c) (slice0 1 (nickname_or (js "?") c))
       end;
     shown_nickname := nickname_or (js "알 수 없음") c;
     time_of := created_at c;
     replying_to :=
       match parent with
       | ParentRow p => Some (js "↳ @" ++ nickname_or (js "알 수 없음") p)
       | ParentNull | ParentUndefined => None
       end;
     body :=
       if isDeleted c then BodyDeletedNotice (js "삭제된 댓글입니다.")
       else if isEditing s c then BodyEditForm (editContent s)
       else BodyContent (content c);
     actions :=
       if isEditing s c then None
       else
         Some
           {| like_button :=
                if negb (isDeleted c) && signed_in
                then Some {| heart_filled := liked; shown_count := likes_count c |}
                else None;
              like_count_only :=
                if negb (isDeleted c) && negb signed_in
                then Some (likes_count c) else None;
              reply_button := negb (isDeleted c) && signed_in;
              edit_button := negb (isDeleted c) && isOwn s c;
              delete_button := negb (isDeleted c) && isOwn s c |} |}.

(** The reply box the page puts under the block whose id is [replyToId]. *)
Record ReplyBox := {
  box_value : jsstring;
  box_target : jsstring;  (* the argument of [handleSubmitReply] *)
  box_submit_disabled : bool;
}.

(** One block of the thread with the reply box under it, if any. *)
Record ThreadEntry := {
  entry_block : CommentBlockView;
  entry_reply_box : option ReplyBox;
}.

(** [replyToId === c.id && (...)] *)
Definition reply_box_for (s : PageState) (c : CommentRow) : option ReplyBox :=
  if decide (replyToId s = Some (id c)) then
    Some {| box_value := replyInput s; box_target := id c;
            box_submit_disabled :=
              replySubmitting s || negb (truthy (trim (replyInput s))) |}
  else None.

(** [comments.map((c) => ...)]: per group, the block of the comment and
    the blocks of its replies, in the order of the state. *)
Definition render_thread (s : PageState) : list (ThreadEntry * list ThreadEntry) :=
  (λ c,
     ({| entry_block := CommentBlock s (group_row c) false ParentUndefined;
         entry_reply_box := reply_box_for s (group_row c) |},
      (λ r,
         {| entry_block := CommentBlock s (reply_row r) true (parent r);
            entry_reply_box := reply_box_for s (reply_row r) |})
        <$> replies c))
    <$> comments s.

(** ** Typing into the boxes, and closing them *)

(** [onChange] of the comment box:
    [setCommentInput(e.target.value.slice(0, COMMENT_MAX_LENGTH))] *)
Definition onChangeCommentInput (value : jsstring) (s : PageState) : PageState :=
  setCommentInput (slice0 COMMENT_MAX_LENGTH value) s.

(** [onChange] of a reply box *)
Definition onChangeReplyInput (value : jsstring) (s : PageState) : PageState :=
  setReplyInput (slice0 COMMENT_MAX_LENGTH value) s.

(** [onChange] of the edit form *)
Definition onChangeEditContent (value : jsstring) (s : PageState) : PageState :=
  setEditContent (slice0 COMMENT_MAX_LENGTH value) s.

(** The cancel button of a reply box:
    [setReplyToId(null); setReplyInput('')] *)
Definition cancelReply (s : PageState) : PageState :=
  setReplyInput [] (setReplyToId None s).

(** The cancel button of the edit form:
    [setEditCommentId(null); setEditContent('')] *)
Definition cancelEdit (s : PageState) : PageState :=
  setEditContent [] (setEditCommentId None s).

(** ** Paging and saving an edit *)

(** The page state with two more [useState] cells of the page. *)
Record PageCells := {
  page : PageState;
  commentPage : nat;
  editSubmitting : bool;
}.

Definition setPage (f : PageState → PageState) (c : PageCells) : PageCells :=
  {| page := f (page c); commentPage := commentPage c;
     editSubmitting := editSubmitting c |}.

Definition setCommentPage (n : nat) (c : PageCells) : PageCells :=
  {| page := page c; commentPage := n; editSubmitting := editSubmitting c |}.

Definition setEditSubmitting (b : bool) (c : PageCells) : PageCells :=
  {| page := page c; commentPage := commentPage c; editSubmitting := b |}.

(** The window of top-level comments that [fetchComments(page, ..)] asks
    for: [from = page * COMMENTS_PAGE_SIZE], [to = from + COMMENTS_PAGE_SIZE - 1],
    both ends included. *)
Definition comment_range (n : nat) : nat * nat :=
  let from := (n * COMMENTS_PAGE_SIZE)%nat in
  (from, (from + COMMENTS_PAGE_SIZE - 1)%nat).

(** [loadMoreComments]:
    [const next = commentPage + 1; setCommentPage(next); fetchComments(next, true)] *)
Definition loadMoreComments (c : PageCells) : PageCells * list Effect :=
  let next := (commentPage c + 1)%nat in
  (setCommentPage next c, [FetchComments next true]).

(** What the handlers of the page send out besides the effects of the
    comment list. *)
Inductive PageEffect :=
  | OfComments (e : Effect)
  | UpdateCommentContent (comment actor body : jsstring).

(** [handleSaveEdit] *)
Definition handleSaveEdit (answer : Awaited) (c : PageCells)
  : PageCells * list PageEffect :=
  let s := page c in
  match editCommentId s with
  | None => (c, [])
  | Some k =>
      if negb (truthy k) || negb (truthy (trim (editContent s)))
         || (COMMENT_MAX_LENGTH <? length (editContent s))%nat
      then (c, [])
      else
        match user s with
        | None =>
            (* [user!.id] throws before the request is sent *)
            (setEditSubmitting false (setEditSubmitting true c),
             [OfComments ConsoleError;
              OfComments (ToastError (js "수정에 실패했습니다."))])
        | Some u =>
            let command :=
              UpdateCommentContent k (auth_id u) (trim (editContent s)) in
            match answer with
            | Fulfilled =>
                (setEditSubmitting false
                   (setPage (λ s, setEditContent [] (setEditCommentId None s))
                      (setEditSubmitting true c)),
                 [command;
                  OfComments (ToastSuccess (js "댓글이 수정되었습니다."));
                  OfComments (FetchComments 0 false)])
            | FulfilledWithError | Rejected =>
                (setEditSubmitting false (setEditSubmitting true c),
                 [command; OfComments ConsoleError;
                  OfComments (ToastError (js "수정에 실패했습니다."))])
            end
        end
  end.

(** ** The calls of fetchComments that the handlers make *)

(** A handler that calls [fetchComments(page, append)] is modelled as
    sending [FetchComments page append]; here the call is carried out
    with what the backend answers for that page. *)
Definition run_effect (getTime : jsstring → option Z) (backend : nat → Fetched)
    (c : PageCells) (e : Effect) : PageCells :=
  match e with
  | FetchComments n append =>
      setPage (λ s, (fetchComments getTime append (backend n) s).1) c
  | _ => c
  end.

Definition run_effects (getTime : jsstring → option Z) (backend : nat → Fetched)
    (effects : list Effect) (c : PageCells) : PageCells :=
  foldl (run_effect getTime backend) c effects.

(** The first load of the page: [fetchComments(0, false)]. *)
Definition first_load (getTime : jsstring → option Z) (backend : nat → Fetched)
    (c : PageCells) : PageCells :=
  run_effects getTime backend [FetchComments 0 false] c.

(** A click on the button that loads more comments, with the fetch it
    starts. *)
Definition load_more (getTime : jsstring → option Z) (backend : nat → Fetched)
    (c : PageCells) : PageCells :=
  let r := loadMoreComments c in
  run_effects getTime backend r.2 r.1.

(** A comment submitted and accepted by the backend, with the reload
    it starts. *)
Definition submit_comment (getTime : jsstring → option Z) (backend : nat → Fetched)
    (c : PageCells) : PageCells :=
  let r := handleSubmitComment Fulfilled (page c) in
  run_effects getTime backend r.2 (setPage (λ _, r.1) c).

(** ** The assembly with objects that have identity

    The same code once more, run on a heap: every object, array and map
    is a cell with an address, as in the JavaScript run; [{ ...c, k: v }]
    allocates a new object, [filter] and [map] allocate new arrays,
    [Map.set] and [sort] write into the cell they are called on. *)

Module Heap.

Abbreviation loc := nat (only parsing).

(** The property [parent] of an object: absent (or undefined), null, or a
    reference to a comment object. *)
Inductive ParentSlot :=
  | SlotAbsent
  | SlotNull
  | SlotRef (l : loc).

(** A comment object: the columns of the row, and the three properties
    that hold references ([profiles], [parent], [replies]). *)
Record Object := {
  o_id : jsstring;
  o_post_id : jsstring;
  o_user_id : jsstring;
  o_content : jsstring;
  o_created_at : jsstring;
  o_parent_id : option jsstring;
  o_likes_count : Z;
  o_deleted_at : option jsstring;
  o_profiles : option loc;
  o_parent : ParentSlot;
  o_replies : option loc;
}.

Inductive Cell :=
  | CProfile (p : ProfileRow)
  | CObject (o : Object)
  | CArray (elems : list loc)
  | CStrings (elems : list jsstring)
  | CMap (entries : gmap jsstring loc)
  | CSet (members : gset jsstring).

Abbreviation heap := (list Cell) (only parsing).

(** A run reads and extends the heap; [None] is a fault (a cell of the
    wrong kind, or no cell, at an address). *)
Definition Run (A : Type) : Type := heap → option (A * heap).

Definition ret {A} (a : A) : Run A := λ h, Some (a, h).

Definition bind {A B} (m : Run A) (f : A → Run B) : Run B :=
  λ h, match m h with Some (a, h') => f a h' | None => None end.

Definition fault {A} : Run A := λ _, None.

Notation "x <~ m ;; k" := (bind m (λ x, k))
  (at level 100, m at next level, right associativity).

Definition alloc (c : Cell) : Run loc := λ h, Some (length h, h ++ [c]).

Definition read (l : loc) : Run Cell :=
  λ h, match h !! l with Some c => Some (c, h) | None => None end.

Definition write (l : loc) (c : Cell) : Run unit :=
  λ h, if decide (l < length h)%nat then Some (tt, <[l := c]> h) else None.

Definition read_object (l : loc) : Run Object :=
  c <~ read l;; match c with CObject o => ret o | _ => fault end.

Definition read_array (l : loc) : Run (list loc) :=
  c <~ read l;; match c with CArray ls => ret ls | _ => fault end.

Definition read_strings (l : loc) : Run (list jsstring) :=
  c <~ read l;; match c with CStrings ks => ret ks | _ => fault end.

Definition read_map (l : loc) : Run (gmap jsstring loc) :=
  c <~ read l;; match c with CMap m => ret m | _ => fault end.

(** [l.map(f)], [l.filter(p)] and [l.forEach(f)] over the elements of an
    array. *)
Fixpoint mapM {A B} (f : A → Run B) (l : list A) : Run (list B) :=
  match l with
  | [] => ret []
  | x :: l' => y <~ f x;; ys <~ mapM f l';; ret (y :: ys)
  end.

Fixpoint filterM {A} (p : A → Run bool) (l : list A) : Run (list A) :=
  match l with
  | [] => ret []
  | x :: l' =>
      b <~ p x;; ys <~ filterM p l';; ret (if b then x :: ys else ys)
  end.

Fixpoint forEach {A} (f : A → Run unit) (l : list A) : Run unit :=
  match l with
  | [] => ret tt
  | x :: l' => _ <~ f x;; forEach f l'
  end.

(** [{ ...o, profiles: p }], [{ ...o, parent: s }], [{ ...o, replies: a }] *)
Definition with_profiles (o : Object) (p : option loc) : Object :=
  {| o_id := o_id o; o_post_id := o_post_id o; o_user_id := o_user_id o;
     o_content := o_content o; o_created_at := o_created_at o;
     o_parent_id := o_parent_id o; o_likes_count := o_likes_count o;
     o_deleted_at := o_deleted_at o; o_profiles := p;
     o_parent := o_parent o; o_replies := o_replies o |}.

Definition with_parent (o : Object) (s : ParentSlot) : Object :=
  {| o_id := o_id o; o_post_id := o_post_id o; o_user_id := o_user_id o;
     o_content := o_content o; o_created_at := o_created_at o;
     o_parent_id := o_parent_id o; o_likes_count := o_likes_count o;
     o_deleted_at := o_deleted_at o; o_profiles := o_profiles o;
     o_parent := s; o_replies := o_replies o |}.

Definition with_replies (o : Object) (a : loc) : Object :=
  {| o_id := o_id o; o_post_id := o_post_id o; o_user_id := o_user_id o;
     o_content := o_content o; o_created_at := o_created_at o;
     o_parent_id := o_parent_id o; o_likes_count := o_likes_count o;
     o_deleted_at := o_deleted_at o; o_profiles := o_profiles o;
     o_parent := o_parent o; o_replies := Some a |}.

Section Program.
Variable getTime : jsstring → option Z.
(** The arrays [list], [directReplies], [nestedReplies] and the map
    [profilesMap] that the code closes over. *)
Variables topLevel directReplies nestedReplies profilesMap : loc.

(** [attachProfiles]: a new object,
    [{ ...c, profiles: profilesMap.get(c.user_id) ?? null }] *)
Definition attachProfiles (c : loc) : Run loc :=
  o <~ read_object c;;
  m <~ read_map profilesMap;;
  alloc (CObject (with_profiles o (m !! o_user_id o))).

(** [const directReplyMap = new Map();
     directReplies.forEach((r) => directReplyMap.set(r.id, attachProfiles(r)))] *)
Definition build_directReplyMap : Run loc :=
  directReplyMap <~ alloc (CMap ∅);;
  rs <~ read_array directReplies;;
  _ <~ forEach
         (λ r,
            o <~ read_object r;;
            a <~ attachProfiles r;;
            m <~ read_map directReplyMap;;
            write directReplyMap (CMap (<[o_id o := a]> m)))
         rs;;
  ret directReplyMap.

(** [[...].sort((a, b) => new Date(b.created_at).getTime()
                          - new Date(a.created_at).getTime())]:
    a new array holding [elems], sorted in place. *)
Definition sorted_literal (elems : list loc) : Run loc :=
  arr <~ alloc (CArray elems);;
  ls <~ read_array arr;;
  keyed <~ mapM (λ l, o <~ read_object l;; ret (l, o_created_at o)) ls;;
  _ <~ write arr
         (CArray
            ((array_sort
                (λ a b : loc * jsstring,
                   number_minus (getTime b.2) (getTime a.2)) keyed).*1));;
  ret arr.

(** [directReplyMap.get(n.parent_id!)] as the value of [parent] *)
Definition get_parent (m : gmap jsstring loc) (p : option jsstring) : ParentSlot :=
  match p with
  | Some k => match m !! k with Some d => SlotRef d | None => SlotAbsent end
  | None => SlotAbsent
  end.

(** The body of [list.map((c) => { ... })] *)
Definition group_of (directReplyMap : loc) (c : loc) : Run loc :=
  oc <~ read_object c;;
  rs <~ read_array directReplies;;
  kept <~ filterM
            (λ r, o <~ read_object r;;
                  ret (bool_decide (o_parent_id o = Some (o_id oc))))
            rs;;
  _ <~ alloc (CArray kept);;
  direct_elems <~ mapM attachProfiles kept;;
  _ <~ alloc (CArray direct_elems);;
  ids <~ mapM (λ r, o <~ read_object r;; ret (o_id o)) direct_elems;;
  directIds <~ alloc (CStrings ids);;
  ns <~ read_array nestedReplies;;
  kept_n <~ filterM
              (λ n, o <~ read_object n;;
                    ks <~ read_strings directIds;;
                    ret (includes ks (o_parent_id o)))
              ns;;
  _ <~ alloc (CArray kept_n);;
  nested_elems <~ mapM
                    (λ n,
                       a <~ attachProfiles n;;
                       oa <~ read_object a;;
                       on <~ read_object n;;
                       m <~ read_map directReplyMap;;
                       alloc (CObject
                                (with_parent oa (get_parent m (o_parent_id on)))))
                    kept_n;;
  _ <~ alloc (CArray nested_elems);;
  direct_items <~ mapM
                    (λ r, o <~ read_object r;;
                          alloc (CObject (with_parent o SlotNull)))
                    direct_elems;;
  _ <~ alloc (CArray direct_items);;
  flatReplies <~ sorted_literal (direct_items ++ nested_elems);;
  a <~ attachProfiles c;;
  oa <~ read_object a;;
  alloc (CObject (with_replies oa flatReplies)).

(** [withReplies] *)
Definition withReplies : Run loc :=
  directReplyMap <~ build_directReplyMap;;
  tops <~ read_array topLevel;;
  groups <~ mapM (group_of directReplyMap) tops;;
  alloc (CArray groups).
End Program.

(** *** What a heap holds, as values *)

Definition is_profile (h : heap) (p : option loc) (v : option ProfileRow)
  : Prop :=
  match p, v with
  | None, None => True
  | Some l, Some pr => h !! l = Some (CProfile pr)
  | _, _ => False
  end.

(** The columns of an object, with a profile. *)
Definition columns (o : Object) (pr : option ProfileRow) : CommentRow :=
  {| id := o_id o; post_id := o_post_id o; user_id := o_user_id o;
     content := o_content o; created_at := o_created_at o;
     parent_id := o_parent_id o; likes_count := o_likes_count o;
     deleted_at := o_deleted_at o; profiles := pr |}.

(** The cell at [l] is a plain comment object with the value [c]. *)
Definition is_row (h : heap) (l : loc) (c : CommentRow) : Prop :=
  ∃ o, h !! l = Some (CObject o)
       ∧ o_parent o = SlotAbsent ∧ o_replies o = None
       ∧ is_profile h (o_profiles o) (profiles c)
       ∧ c = columns o (profiles c).

Definition is_parent (h : heap) (s : ParentSlot) (p : ParentRef) : Prop :=
  match s, p with
  | SlotAbsent, ParentUndefined => True
  | SlotNull, ParentNull => True
  | SlotRef l, ParentRow c => is_row h l c
  | _, _ => False
  end.

(** The cell at [l] is a reply item with the value [it]. *)
Definition is_reply (h : heap) (l : loc) (it : ReplyItem) : Prop :=
  ∃ o, h !! l = Some (CObject o)
       ∧ o_replies o = None
       ∧ is_profile h (o_profiles o) (profiles (reply_row it))
       ∧ reply_row it = columns o (profiles (reply_row it))
       ∧ is_parent h (o_parent o) (parent it).

(** The cell at [l] is a group with the value [g]. *)
Definition is_group (h : heap) (l : loc) (g : CommentWithReplies) : Prop :=
  ∃ o a ls, h !! l = Some (CObject o)
            ∧ o_parent o = SlotAbsent
            ∧ is_profile h (o_profiles o) (profiles (group_row g))
            ∧ group_row g = columns o (profiles (group_row g))
            ∧ o_replies o = Some a
            ∧ h !! a = Some (CArray ls)
            ∧ Forall2 (is_reply h) ls (replies g).

Definition is_rows (h : heap) (l : loc) (cs : list CommentRow) : Prop :=
  ∃ ls, h !! l = Some (CArray ls) ∧ Forall2 (is_row h) ls cs.

Definition is_groups (h : heap) (l : loc) (gs : list CommentWithReplies)
  : Prop :=
  ∃ ls, h !! l = Some (CArray ls) ∧ Forall2 (is_group h) ls gs.

Definition is_profiles (h : heap) (l : loc) (pm : gmap jsstring ProfileRow)
  : Prop :=
  ∃ m, h !! l = Some (CMap m) ∧ ∀ k, is_profile h (m !! k) (pm !! k).

(** The map at [l] holds, under each key, a plain comment object. *)
Definition is_row_map (h : heap) (l : loc) (M : gmap jsstring CommentRow)
  : Prop :=
  ∃ m, h !! l = Some (CMap m)
       ∧ ∀ k, match m !! k, M !! k with
              | Some a, Some c => is_row h a c
              | None, None => True
              | _, _ => False
              end.

(** The run [m] on [h] ends without fault, leaves every cell of [h] as it
    was, and its result and final heap satisfy [Q]. *)
Definition returns {A} (m : Run A) (h : heap) (Q : A → heap → Prop) : Prop :=
  ∃ a h', m h = Some (a, h') ∧ h `prefix_of` h' ∧ Q a h'.

End Heap.

(** ** Notions used to state the properties *)

(** Every reply item of every group, in the order of the result. *)
Definition all_replies (out : list CommentWithReplies) : list ReplyItem :=
  mjoin (replies <$> out).

(** The reply items of a result that carry the identifier [k]. *)
Definition occurrences (k : jsstring) (out : list CommentWithReplies)
  : list ReplyItem :=
  filter (λ it, id (reply_row it) = k) (all_replies out).

(** The identifiers of the three collections are pairwise distinct. *)
Definition distinct_ids (topLevel directReplies nestedReplies : list CommentRow)
  : Prop :=
  NoDup (id <$> (topLevel ++ directReplies ++ nestedReplies)).

(** A direct reply as it stands in a reply list. *)
Definition direct_item (pm : gmap jsstring ProfileRow) (r : CommentRow)
  : ReplyItem :=
  {| reply_row := attachProfiles pm r; parent := ParentNull |}.

(** A nested reply as it stands in a reply list, answering [d]. *)
Definition nested_item (pm : gmap jsstring ProfileRow) (n d : CommentRow)
  : ReplyItem :=
  {| reply_row := attachProfiles pm n;
     parent := ParentRow (attachProfiles pm d) |}.

(** A list in descending order of a numeric key. *)
Definition descending {A : Type} (key : A → Z) (l : list A) : Prop :=
  StronglySorted (λ a b, key b ≤ key a) l.

(** The creation time of a reply item; [None] when [created_at] is not a
    date. *)
Definition reply_time (getTime : jsstring → option Z) (it : ReplyItem)
  : option Z :=
  getTime (created_at (reply_row it)).

(** The [created_at] of every row is a date. *)
Definition times_parse (getTime : jsstring → option Z)
    (rows : list CommentRow) : Prop :=
  ∀ r, r ∈ rows → is_Some (getTime (created_at r)).

(** [b] was written at the time of [a] or before it. *)
Definition not_later (getTime : jsstring → option Z) (a b : ReplyItem)
  : Prop :=
  ∃ ta tb, reply_time getTime a = Some ta ∧ reply_time getTime b = Some tb
           ∧ tb ≤ ta.

(** Every reply item is followed by items written at its time or before
    it only. *)
Definition descending_times (getTime : jsstring → option Z)
    (l : list ReplyItem) : Prop :=
  StronglySorted (not_later getTime) l.

(** Replies with equal creation times stand in ascending (resp.
    descending) order of their identifiers. *)
Definition ties_by_id_ascending (getTime : jsstring → option Z)
    (l : list ReplyItem) : Prop :=
  ∀ i j a b, l !! i = Some a → l !! j = Some b → (i < j)%nat →
    reply_time getTime a = reply_time getTime b →
    ltb (id (reply_row b)) (id (reply_row a)) = false.

Definition ties_by_id_descending (getTime : jsstring → option Z)
    (l : list ReplyItem) : Prop :=
  ∀ i j a b, l !! i = Some a → l !! j = Some b → (i < j)%nat →
    reply_time getTime a = reply_time getTime b →
    ltb (id (reply_row a)) (id (reply_row b)) = false.

(** A comment with its profile taken off. *)
Definition without_profile (c : CommentRow) : CommentRow :=
  {| id := id c; post_id := post_id c; user_id := user_id c;
     content := content c; created_at := created_at c;
     parent_id := parent_id c; likes_count := likes_count c;
     deleted_at := deleted_at c; profiles := None |}.

Definition item_without_profile (it : ReplyItem) : ReplyItem :=
  {| reply_row := without_profile (reply_row it);
     parent :=
       match parent it with
       | ParentRow p => ParentRow (without_profile p)
       | other => other
       end |}.

Definition group_without_profile (g : CommentWithReplies) : CommentWithReplies :=
  {| group_row := without_profile (group_row g);
     replies := item_without_profile <$> replies g |}.

(** Every comment object reachable from a group: its own row, the rows of
    its replies and the rows they point back to. *)
Definition rows_of_item (it : ReplyItem) : list CommentRow :=
  reply_row it :: match parent it with ParentRow p => [p] | _ => [] end.

Definition rows_of_group (g : CommentWithReplies) : list CommentRow :=
  group_row g :: (replies g ≫= rows_of_item).

(** A nested reply whose [parent_id] is the id of no direct reply. *)
Definition orphaned (directReplies : list CommentRow) (n : CommentRow) : Prop :=
  includes (id <$> directReplies) (parent_id n) = false.

(** The soft delete of the comment [k] at the time [t], as the backend
    stores it: [deleted_at] is set, nothing else changes. *)
Definition soft_delete (k t : jsstring) (c : CommentRow) : CommentRow :=
  if decide (id c = k) then
    {| id := id c; post_id := post_id c; user_id := user_id c;
       content := content c; created_at := created_at c;
       parent_id := parent_id c; likes_count := likes_count c;
       deleted_at := Some t; profiles := profiles c |}
  else c.

Definition soft_delete_item (k t : jsstring) (it : ReplyItem) : ReplyItem :=
  {| reply_row := soft_delete k t (reply_row it);
     parent :=
       match parent it with
       | ParentRow p => ParentRow (soft_delete k t p)
       | other => other
       end |}.

Definition soft_delete_group (k t : jsstring) (g : CommentWithReplies)
  : CommentWithReplies :=
  {| group_row := soft_delete k t (group_row g);
     replies := soft_delete_item k t <$> replies g |}.

(** Like counts are counts. *)
Definition counts_nonnegative (prev : list CommentWithReplies) : Prop :=
  ∀ g, g ∈ prev →
    0 ≤ likes_count (group_row g)
    ∧ ∀ r, r ∈ replies g → 0 ≤ likes_count (reply_row r).

(** Two comments that agree on every field but [likes_count]. *)
Definition same_but_likes (a b : CommentRow) : Prop :=
  id a = id b ∧ post_id a = post_id b ∧ user_id a = user_id b
  ∧ content a = content b ∧ created_at a = created_at b
  ∧ parent_id a = parent_id b ∧ deleted_at a = deleted_at b
  ∧ profiles a = profiles b.

(** What a like toggle on [k] may do to one comment: every field but
    [likes_count] stays, a comment with another id stays as it is, and
    the count is kept, raised by one, or lowered by one but not below
    zero. *)
Definition row_frame (k : jsstring) (a a' : CommentRow) : Prop :=
  same_but_likes a a'
  ∧ (id a ≠ k → a' = a)
  ∧ (likes_count a' = likes_count a
     ∨ likes_count a' = likes_count a + 1
     ∨ likes_count a' = Z.max 0 (likes_count a - 1)).

(** The same for a group: its own row, and its replies place by place. *)
Definition group_frame (k : jsstring) (g g' : CommentWithReplies) : Prop :=
  row_frame k (group_row g) (group_row g')
  ∧ Forall2
      (λ r r', parent r' = parent r ∧ row_frame k (reply_row r) (reply_row r'))
      (replies g) (replies g').



(** What a like on [k] does to the counts of a group: the comment [k]
    gains one like; a reply is reached in a group whose own id is not
    [k]. *)
Definition group_liked (k : jsstring) (g g' : CommentWithReplies) : Prop :=
  (id (group_row g) = k →
   likes_count (group_row g') = likes_count (group_row g) + 1)
  ∧ (id (group_row g) ≠ k →
     Forall2
       (λ r r',
          id (reply_row r) = k →
          likes_count (reply_row r') = likes_count (reply_row r) + 1)
       (replies g) (replies g')).

(** The insert commands among the effects of a handler. *)
Definition is_insert (e : Effect) : bool :=
  match e with InsertComment _ _ _ _ => true | _ => false end.

Definition inserts (effects : list Effect) : list Effect :=
  filter (λ e, is_insert e = true) effects.

(** The toasts that report a failure. *)
Definition is_error_toast (e : Effect) : bool :=
  match e with ToastError _ => true | _ => false end.

Definition error_toasts (effects : list Effect) : list Effect :=
  filter (λ e, is_error_toast e = true) effects.

(** ** Notions used to state the further properties *)

(** Nothing trimmable at either end. *)
Definition trimmed (v : jsstring) : Prop :=
  (∀ u, head v = Some u → is_trimmable u = false)
  ∧ (∀ u, last v = Some u → is_trimmable u = false).

(** The groups that one answer of the backend yields. *)
Definition fetched_groups (getTime : jsstring → option Z) (answers : Fetched)
  : list CommentWithReplies :=
  match fetched_topLevel answers with
  | Some topLevel =>
      withReplies getTime (build_profilesMap (fetched_profiles answers))
        topLevel (fetched_replies answers)
        (match fetched_replies answers with
         | [] => []
         | _ :: _ => fetched_nested answers
         end)
  | None => []
  end.

(** Every object and profile of [h] is in [h'], unchanged. *)
Definition keeps_objects (h h' : Heap.heap) : Prop :=
  (∀ l o, h !! l = Some (Heap.CObject o) → h' !! l = Some (Heap.CObject o))
  ∧ (∀ l p, h !! l = Some (Heap.CProfile p) → h' !! l = Some (Heap.CProfile p)).

(** The entries [m] of a map cell hold, under each key, an object with the
    value that [M] has under it. *)
Definition entries_are_rows (h : Heap.heap) (m : gmap jsstring Heap.loc)
    (M : gmap jsstring CommentRow) : Prop :=
  ∀ k, match m !! k, M !! k with
       | Some a, Some c => Heap.is_row h a c
       | None, None => True
       | _, _ => False
       end.

(** The key of the sort, read from the object of an element. *)
Definition keyed_reply (h : Heap.heap) (p : Heap.loc * jsstring)
    (it : ReplyItem) : Prop :=
  Heap.is_reply h p.1 it ∧ p.2 = created_at (reply_row it).

(** ** Data for the worked examples *)

(** Timestamps written as a decimal count of milliseconds, read by
    [digits_ms] in place of [Date]; anything else is not a date. *)
Definition digits_ms (s : jsstring) : option Z :=
  match s with
  | [] => None
  | _ :: _ =>
      if forallb (λ u, (48 <=? u)%N && (u <=? 57)%N) s
      then Some (foldl (λ acc u, 10 * acc + (Z.of_N u - 48)) 0 s)
      else None
  end.

Definition row (i : string) (p : option string) (t : string) (u : string)
  : CommentRow :=
  {| id := js i; post_id := js "post"; user_id := js u; content := js "text";
     created_at := js t; parent_id := js <$> p; likes_count := 0;
     deleted_at := None; profiles := None |}.

(** A page with one top-level comment A, its direct replies B and C, the
    nested reply D to B, a direct reply E to a comment Z of another page,
    and a nested reply F to a direct reply Q that was not fetched. *)
Definition page_top : list CommentRow := [row "A" None "10" "ann"].
Definition page_direct : list CommentRow :=
  [row "B" (Some "A") "9" "bob"; row "C" (Some "A") "8" "cyd";
   row "E" (Some "Z") "6" "eve"].
Definition page_nested : list CommentRow :=
  [row "D" (Some "B") "7" "dan"; row "F" (Some "Q") "5" "fay"].

Definition page_profiles : gmap jsstring ProfileRow :=
  {[ js "ann" := {| nickname := Some (js "Ann"); avatar_url := None |} ]}.

(** Three direct replies written at the same instant. *)
Definition tie_time : string := "2025-01-28T09:00:00.000Z".
Definition tie_top : list CommentRow := [row "A" None tie_time "ann"].
Definition tie_direct : list CommentRow :=
  [row "b" (Some "A") tie_time "bob"; row "a" (Some "A") tie_time "cyd";
   row "c" (Some "A") tie_time "eve"].

(** A direct reply C whose [created_at] is not a date, between the direct
    reply B written at 1 and the nested reply D written at 2. *)
Definition unparsed_direct : list CommentRow :=
  [row "B" (Some "A") "1" "bob"; row "C" (Some "A") "soon" "cyd"].
Definition unparsed_nested : list CommentRow :=
  [row "D" (Some "B") "2" "dan"].

(** A signed-in viewer [u1] on the page of the post, who typed a comment
    and opened no reply box; the thread holds the viewer's own comment c1. *)
Definition viewer : AuthUser := {| auth_id := js "u1" |}.

Definition own_comment : CommentRow := row "c1" None "10" "u1".

Definition viewer_state : PageState :=
  {| user := Some viewer; page_id := Some (js "post");
     comments := withReplies digits_ms ∅ [own_comment] [] [];
     commentsLoading := false; hasMoreComments := false;
     commentInput := js "  hello "; commentSubmitting := false;
     replyToId := None; replyInput := js "   "; replySubmitting := false;
     editCommentId := None; editContent := [];
     likedCommentIds := {[ js "c1" ]} |}.

(** The viewer opens the reply box under c1, then deletes c1; the page
    loads the comments again and the backend answers with c1 marked as
    deleted. *)
Definition state_box_open : PageState := openReplyInput own_comment viewer_state.

Definition state_delete_sent : PageState :=
  (handleDeleteComment (js "c1") true Fulfilled state_box_open).1.

Definition reload_after_delete : Fetched :=
  {| fetched_topLevel :=
       Some [soft_delete (js "c1") (js "2025-01-28T09:00:00.000Z") own_comment];
     fetched_replies := []; fetched_nested := []; fetched_profiles := [];
     fetched_liked := {[ js "c1" ]} |}.

Definition state_reloaded : PageState :=
  (fetchComments digits_ms false reload_after_delete state_delete_sent).1.

(** A backend that answers page [n] with one top-level comment named
    after the page, and the cells of a viewer who has just arrived. *)
Definition paged_backend (n : nat) : Fetched :=
  {| fetched_topLevel :=
       Some [ {| id := js "p" ++ [N.of_nat (48 + n)]; post_id := js "post";
                 user_id := js "ann"; content := js "text";
                 created_at := js "10"; parent_id := None; likes_count := 0;
                 deleted_at := None; profiles := None |} ];
     fetched_replies := []; fetched_nested := []; fetched_profiles := [];
     fetched_liked := ∅ |}.

Definition viewer_cells : PageCells :=
  {| page := viewer_state; commentPage := 0; editSubmitting := false |}.

(** The viewer has opened the edit form on the own comment and typed a
    new text. *)
Definition editing_cells : PageCells :=
  {| page := onChangeEditContent (js " better ")
               (handleStartEdit own_comment viewer_state);
     commentPage := 0; editSubmitting := false |}.

(** The page above as the fetch leaves it on the heap: the profile of ann
    (0), [profilesMap] (1), the objects of the rows A, B, C, E, D, F (2 to
    7), and the arrays [list] (8), [directReplies] (9) and [nestedReplies]
    (10). *)
Definition object_of (c : CommentRow) : Heap.Object :=
  {| Heap.o_id := id c; Heap.o_post_id := post_id c;
     Heap.o_user_id := user_id c; Heap.o_content := content c;
     Heap.o_created_at := created_at c; Heap.o_parent_id := parent_id c;
     Heap.o_likes_count := likes_count c; Heap.o_deleted_at := deleted_at c;
     Heap.o_profiles := None; Heap.o_parent := Heap.SlotAbsent;
     Heap.o_replies := None |}.

Definition page_heap : Heap.heap :=
  [Heap.CProfile {| nickname := Some (js "Ann"); avatar_url := None |};
   Heap.CMap {[ js "ann" := 0%nat ]}]
  ++ (Heap.CObject ∘ object_of <$> page_top ++ page_direct ++ page_nested)
  ++ [Heap.CArray [2%nat]; Heap.CArray [3%nat; 4%nat; 5%nat];
      Heap.CArray [6%nat; 7%nat]].

(** The viewer on the page above, with its thread loaded (A with the
    replies B, C and D, all counts at 0) and no comment liked. *)
Definition thread_state : PageState :=
  setComments
    (λ _, withReplies digits_ms page_profiles page_top page_direct page_nested)
    (setLikedCommentIds (λ _, ∅) viewer_state).




(** The heap above with the set of liked ids behind it (11), and a second
    heap that holds the same page at other addresses: every cell one
    place further. *)
Definition page_heap_liked : Heap.heap :=
  page_heap ++ [Heap.CSet {[ js "c1" ]}].

Definition page_heap_moved : Heap.heap :=
  [Heap.CStrings [];
   Heap.CProfile {| nickname := Some (js "Ann"); avatar_url := None |};
   Heap.CMap {[ js "ann" := 1%nat ]}]
  ++ (Heap.CObject ∘ object_of <$> page_top ++ page_direct ++ page_nested)
  ++ [Heap.CArray [3%nat]; Heap.CArray [4%nat; 5%nat; 6%nat];
      Heap.CArray [7%nat; 8%nat]].
(** * Properties *)

(** ** Worked examples *)

Example js_ascii : js "ab 1" = [97; 98; 32; 49]%N.
Proof. reflexivity. Qed.

Example js_hangul : js "알 수 없음" = [50508; 32; 49688; 32; 50630; 51020]%N.
Proof. reflexivity. Qed.

Example trim_example : trim (js "  hi there
 ") = js "hi there".
Proof. reflexivity. Qed.

(** The scenario of the specification: A(t=10), B(parent=A,t=9),
    C(parent=A,t=8), D(parent=B,t=7). *)
Example scenario_ABCD :
  withReplies digits_ms ∅
    [row "A" None "10" "u"]
    [row "B" (Some "A") "9" "u"; row "C" (Some "A") "8" "u"]
    [row "D" (Some "B") "7" "u"]
  = [ {| group_row := row "A" None "10" "u";
         replies :=
           [ {| reply_row := row "B" (Some "A") "9" "u"; parent := ParentNull |};
             {| reply_row := row "C" (Some "A") "8" "u"; parent := ParentNull |};
             {| reply_row := row "D" (Some "B") "7" "u";
                parent := ParentRow (row "B" (Some "A") "9" "u") |} ] |} ].
Proof. vm_compute. reflexivity. Qed.

Example scenario_empty dr nr : withReplies digits_ms ∅ [] dr nr = [].
Proof. reflexivity. Qed.

(** ** The sort: a stable, descending rearrangement *)

Section ArraySortFacts.
  Context {A : Type} (cmp : A → A → option Z).

Lemma sort_insert_perm x l : sort_insert cmp x l ≡ₚ x :: l.
  Proof.
    induction l as [|y l IH]; simpl; [done|].
    destruct (sorts_after cmp x y); [|done].
    rewrite IH. apply Permutation_swap.
  Qed.

Lemma array_sort_perm l : array_sort cmp l ≡ₚ l.
  Proof.
    induction l as [|x l IH]; simpl; [done|].
    by rewrite sort_insert_perm, IH.
  Qed.

Lemma array_sort_length l : length (array_sort cmp l) = length l.
  Proof. by rewrite array_sort_perm. Qed.

Lemma array_sort_elem_of x l : x ∈ array_sort cmp l ↔ x ∈ l.
  Proof. by rewrite array_sort_perm. Qed.

  (** A list in which no element must move past a later one is left as it
      is. *)
Lemma array_sort_nothing_to_move l :
    (∀ a b, a ∈ l → b ∈ l → sorts_after cmp a b = false) →
    array_sort cmp l = l.
  Proof.
    induction l as [|x l IH]; simpl; [done|]. intros Hl.
    rewrite IH by (intros a b Ha Hb; apply Hl; by right).
    destruct l as [|y l]; simpl; [done|].
    rewrite Hl; [done|by left|by right; left].
  Qed.

  (** The sort only looks at the comparator on the elements of the list. *)
Lemma sort_insert_ext (cmp' : A → A → option Z) x l :
    (∀ b, b ∈ l → cmp x b = cmp' x b) →
    sort_insert cmp x l = sort_insert cmp' x l.
  Proof.
    induction l as [|y l IH]; simpl; [done|]. intros Hl.
    unfold sorts_after. rewrite (Hl y) by by left.
    destruct (cmp' x y) as [v|]; [|done].
    destruct (0 <? v); [|done].
    f_equal. apply IH. intros b Hb. apply Hl. by right.
  Qed.

Lemma array_sort_ext (cmp' : A → A → option Z) l :
    (∀ a b, a ∈ l → b ∈ l → cmp a b = cmp' a b) →
    array_sort cmp l = array_sort cmp' l.
  Proof.
    induction l as [|x l IH]; simpl; [done|]. intros Hl.
    rewrite <- IH by (intros a b Ha Hb; apply Hl; by right).
    apply sort_insert_ext. intros b Hb. apply Hl; [by left|].
    right. by rewrite array_sort_elem_of in Hb.
  Qed.

  (** The comparator of the page on values that are numbers: the
      difference of a numeric key, later minus earlier. *)
  Context (key : A → Z).
  Hypothesis cmp_key : ∀ a b, cmp a b = Some (key b - key a).

Lemma sorts_after_key a b : sorts_after cmp a b = (0 <? key b - key a).
  Proof. unfold sorts_after. by rewrite cmp_key. Qed.

Lemma sort_insert_descending x l :
    descending key l → descending key (sort_insert cmp x l).
  Proof.
    unfold descending. induction l as [|y l IH]; simpl; intros Hl.
    - repeat constructor.
    - apply StronglySorted_cons in Hl as [Hy Hl].
      rewrite sorts_after_key.
      destruct (Z.ltb_spec 0 (key y - key x)) as [Hlt|Hge].
      + apply StronglySorted_cons. split; [|by apply IH].
        rewrite Forall_forall. intros z Hz.
        rewrite sort_insert_perm in Hz.
        apply elem_of_cons in Hz as [->|Hz]; [lia|].
        by eapply Forall_forall in Hy.
      + apply StronglySorted_cons. split.
        * constructor; [lia|].
          eapply Forall_impl; [exact Hy|]. simpl. intros; lia.
        * by apply StronglySorted_cons.
  Qed.

Lemma array_sort_descending l : descending key (array_sort cmp l).
  Proof.
    induction l as [|x l IH]; simpl; [constructor|].
    by apply sort_insert_descending.
  Qed.

Lemma sort_insert_stable t x l :
    filter (λ a, key a = t) (sort_insert cmp x l)
    = filter (λ a, key a = t) (x :: l).
  Proof.
    induction l as [|y l IH]; simpl; [done|].
    rewrite sorts_after_key.
    destruct (Z.ltb_spec 0 (key y - key x)) as [Hlt|Hge]; [|done].
    rewrite (filter_cons _ y), IH, !(filter_cons _ x), (filter_cons _ y).
    repeat case_decide; first [done | lia].
  Qed.

  (** Elements with the same key keep the order they had before the sort. *)
Lemma array_sort_stable t l :
    filter (λ a, key a = t) (array_sort cmp l) = filter (λ a, key a = t) l.
  Proof.
    induction l as [|x l IH]; simpl; [done|].
    rewrite sort_insert_stable, !(filter_cons _ x), IH. done.
  Qed.

  (** A list that is already in descending order is left as it is. *)
Lemma array_sort_of_descending l : descending key l → array_sort cmp l = l.
  Proof.
    unfold descending. induction l as [|x l IH]; simpl; [done|].
    intros [Hx Hl]%StronglySorted_cons. rewrite IH by done.
    destruct l as [|y l]; simpl; [done|].
    apply Forall_cons in Hx as [Hxy _].
    rewrite sorts_after_key.
    destruct (Z.ltb_spec 0 (key y - key x)) as [Hlt|Hge]; [|done]. lia.
  Qed.
End ArraySortFacts.

(** ** Lists of comments filtered by identifier *)

Section ListFacts.
  Context {A B : Type}.

Lemma filter_fmap (f : A → B) (P : B → Prop) `{!∀ y, Decision (P y)}
      (l : list A) :
    filter P (f <$> l) = f <$> filter (λ x, P (f x)) l.
  Proof.
    induction l as [|x l IH]; [done|].
    rewrite fmap_cons, !filter_cons, IH. by case_decide.
  Qed.

Lemma filter_join (P : A → Prop) `{!∀ x, Decision (P x)}
      (ls : list (list A)) :
    filter P (mjoin ls) = mjoin (filter P <$> ls).
  Proof.
    induction ls as [|l ls IH]; [done|].
    simpl. by rewrite filter_app, IH.
  Qed.

Lemma filter_none (P : A → Prop) `{!∀ x, Decision (P x)} (l : list A) :
    (∀ x, x ∈ l → ¬ P x) → filter P l = [].
  Proof.
    intros Hl. induction l as [|x l IH]; [done|].
    rewrite filter_cons_False by (apply Hl; left).
    apply IH. intros y Hy. apply Hl. by right.
  Qed.

  (** In a list without repeated keys, selecting by the key of a member
      selects that member alone. *)
Lemma filter_key_member `{EqDecision B} (key : A → B) (l : list A) (r : A) :
    NoDup (key <$> l) → r ∈ l → filter (λ x, key x = key r) l = [r].
  Proof.
    induction l as [|x l IH]; intros Hnd Hr; [by apply elem_of_nil in Hr|].
    rewrite fmap_cons in Hnd. apply NoDup_cons in Hnd as [Hx Hnd].
    apply elem_of_cons in Hr as [->|Hr].
    - rewrite filter_cons_True by done. f_equal.
      apply filter_none. intros y Hy Heq. apply Hx.
      rewrite <- Heq. by apply list_elem_of_fmap_2.
    - rewrite filter_cons_False; [by apply IH|].
      intros Heq. apply Hx. rewrite Heq. by apply list_elem_of_fmap_2.
  Qed.

Lemma filter_key_absent `{EqDecision B} (key : A → B) (l : list A) (k : B) :
    k ∉ key <$> l → filter (λ x, key x = k) l = [].
  Proof.
    intros Hk. apply filter_none. intros x Hx Heq. apply Hk.
    rewrite <- Heq. by apply list_elem_of_fmap_2.
  Qed.

  (** Exactly one member of a list without repeated keys has a given key. *)
Lemma join_select_member `{EqDecision B} {C} (key : A → B) (l : list A)
      (c : A) (v : list C) (Q : A → Prop) `{!∀ x, Decision (Q x)} :
    NoDup (key <$> l) → c ∈ l → (∀ x, x ∈ l → Q x ↔ key x = key c) →
    mjoin ((λ x, if decide (Q x) then v else []) <$> l) = v.
  Proof.
    induction l as [|x l IH]; intros Hnd Hc HQ; [by apply elem_of_nil in Hc|].
    rewrite fmap_cons in Hnd. apply NoDup_cons in Hnd as [Hx Hnd].
    rewrite fmap_cons. simpl.
    assert (∀ y, y ∈ l → Q y ↔ key y = key c) as HQ'
      by (intros y Hy; apply HQ; by right).
    apply elem_of_cons in Hc as [->|Hc].
    - rewrite decide_True by (apply HQ; [by left|done]).
      rewrite (proj2 (join_nil _)); [by rewrite app_nil_r|].
      apply Forall_fmap, Forall_forall. intros y Hy. simpl.
      rewrite decide_False; [done|].
      intros Heq%HQ'; [|done]. apply Hx. rewrite <- Heq.
      by apply list_elem_of_fmap_2.
    - rewrite decide_False; [by apply IH|].
      intros Heq%HQ; [|by left]. apply Hx. rewrite Heq.
      by apply list_elem_of_fmap_2.
  Qed.

Lemma join_select_none {C} (l : list A) (v : list C) (Q : A → Prop)
      `{!∀ x, Decision (Q x)} :
    (∀ x, x ∈ l → ¬ Q x) →
    mjoin ((λ x, if decide (Q x) then v else []) <$> l) = [].
  Proof.
    intros HQ. apply join_nil, Forall_fmap, Forall_forall.
    intros x Hx. simpl. by rewrite decide_False by by apply HQ.
  Qed.

Lemma fmap_ext_elem_of {C} (f g : A → C) (l : list A) :
    (∀ x, x ∈ l → f x = g x) → f <$> l = g <$> l.
  Proof.
    intros Hfg. apply list_fmap_ext. intros i x Hx. apply Hfg.
    by eapply list_elem_of_lookup_2.
  Qed.
End ListFacts.

(** ** The reply assembly *)

Lemma distinct_ids_inv (top dr nr : list CommentRow) :
  distinct_ids top dr nr →
  NoDup (id <$> top) ∧ NoDup (id <$> dr) ∧ NoDup (id <$> nr)
  ∧ (∀ k, k ∈ (id <$> top) → (k ∉ (id <$> dr)) ∧ (k ∉ (id <$> nr)))
  ∧ (∀ k, k ∈ (id <$> dr) → k ∉ (id <$> nr)).
Proof.
  unfold distinct_ids. rewrite !fmap_app, !NoDup_app.
  intros (Ht & Htd & Hd & Hdn & Hn). split_and!; try done.
  intros k Hk. split; intros Hk'; (eapply Htd; [done|]);
    apply elem_of_app; [by left|by right].
Qed.

Section AssemblerFacts.
  Local Set Default Proof Using "Type".
  Variable getTime : jsstring → option Z.
  Variable pm : gmap jsstring ProfileRow.
  Implicit Types (top dr nr : list CommentRow) (c r n d : CommentRow).
  Implicit Types (k : jsstring).

Lemma withReplies_length top dr nr :
    length (withReplies getTime pm top dr nr) = length top.
  Proof. unfold withReplies. by rewrite length_fmap. Qed.

  (** The group at a position of the result is built from the top-level
      comment at that position. *)
Lemma withReplies_lookup top dr nr i :
    withReplies getTime pm top dr nr !! i
    = (λ c, {| group_row := attachProfiles pm c;
               replies :=
                 array_sort (compare_replies getTime)
                   (merged_of pm (build_directReplyMap pm dr) dr nr c) |})
        <$> (top !! i).
  Proof. unfold withReplies. by rewrite list_lookup_fmap. Qed.

Lemma all_replies_withReplies top dr nr :
    all_replies (withReplies getTime pm top dr nr)
    ≡ₚ mjoin (merged_of pm (build_directReplyMap pm dr) dr nr <$> top).
  Proof.
    unfold all_replies, withReplies.
    induction top as [|c top IH]; [done|].
    rewrite !fmap_cons. simpl. by rewrite array_sort_perm, IH.
  Qed.

  (** The items of one group that carry the identifier [k]. *)
Lemma merged_of_by_id k m dr nr c :
    filter (λ it, id (reply_row it) = k) (merged_of pm m dr nr c)
    = (direct_item pm
         <$> filter (λ r, parent_id r = Some (id c)) (filter (λ r, id r = k) dr))
      ++ ((λ n, {| reply_row := attachProfiles pm n;
                   parent := map_get m (parent_id n) |})
            <$> filter
                  (λ n, includes (id <$> direct_of pm dr c) (parent_id n) = true)
                  (filter (λ n, id n = k) nr)).
  Proof.
    unfold merged_of, nested_of, direct_of.
    rewrite filter_app, !filter_fmap. simpl.
    rewrite !list_filter_filter, <- !list_fmap_compose.
    f_equal.
    - change (direct_item pm)
        with ((λ r, {| reply_row := r; parent := ParentNull |}) ∘ attachProfiles pm).
      f_equal. apply list_filter_iff. intros x; split; intros [? ?]; by split.
    - f_equal. apply list_filter_iff. intros x; split; intros [? ?]; by split.
  Qed.

  (** [directReplyMap] holds, under each id, a direct reply with that id. *)
Lemma build_directReplyMap_snoc dr r :
    build_directReplyMap pm (dr ++ [r])
    = <[id r := attachProfiles pm r]> (build_directReplyMap pm dr).
  Proof. unfold build_directReplyMap. by rewrite foldl_snoc. Qed.

Lemma build_directReplyMap_lookup_Some dr k v :
    build_directReplyMap pm dr !! k = Some v →
    ∃ d, d ∈ dr ∧ id d = k ∧ v = attachProfiles pm d.
  Proof.
    induction dr as [|r dr IH] using rev_ind; [done|].
    rewrite build_directReplyMap_snoc.
    destruct (decide (id r = k)) as [<-|Hne].
    - rewrite lookup_insert_eq. intros [= <-]. exists r.
      split; [|done]. apply elem_of_app. right. by left.
    - rewrite lookup_insert_ne by done. intros (d & Hd & ? & ?)%IH.
      exists d. split; [|done]. apply elem_of_app. by left.
  Qed.

Lemma build_directReplyMap_lookup_is_Some dr k :
    k ∈ id <$> dr → is_Some (build_directReplyMap pm dr !! k).
  Proof.
    induction dr as [|r dr IH] using rev_ind;
      [by intros ?%elem_of_nil|].
    rewrite build_directReplyMap_snoc, fmap_app.
    destruct (decide (id r = k)) as [<-|Hne].
    - rewrite lookup_insert_eq. by eexists.
    - rewrite lookup_insert_ne by done.
      intros [Hk|Hk%list_elem_of_singleton]%elem_of_app; [by apply IH|done].
  Qed.

Lemma build_directReplyMap_lookup dr d :
    NoDup (id <$> dr) → d ∈ dr →
    build_directReplyMap pm dr !! id d = Some (attachProfiles pm d).
  Proof.
    intros Hnd Hd.
    destruct (build_directReplyMap_lookup_is_Some dr (id d)) as [v Hv];
      [by apply list_elem_of_fmap_2|].
    rewrite Hv. apply build_directReplyMap_lookup_Some in Hv as (d' & Hd' & Hid & ->).
    assert (d' ∈ filter (λ x, id x = id d) dr) as Hin
      by (by apply list_elem_of_filter).
    rewrite (filter_key_member id dr d Hnd Hd) in Hin.
    apply list_elem_of_singleton in Hin. by subst.
  Qed.

Lemma direct_of_ids dr c :
    id <$> direct_of pm dr c
    = id <$> filter (λ r, parent_id r = Some (id c)) dr.
  Proof. unfold direct_of. by rewrite <- list_fmap_compose. Qed.

  (** [directIds.includes(k)] holds for the ids of the direct replies of [c]. *)
Lemma includes_direct_of dr c k :
    includes (id <$> direct_of pm dr c) (Some k) = true
    ↔ ∃ d, d ∈ dr ∧ id d = k ∧ parent_id d = Some (id c).
  Proof.
    simpl. rewrite bool_decide_eq_true, direct_of_ids, list_elem_of_fmap.
    split.
    - intros (d & -> & [? ?]%list_elem_of_filter). by exists d.
    - intros (d & ? & <- & ?). exists d. split; [done|].
      by apply list_elem_of_filter.
  Qed.
End AssemblerFacts.

Section Placement.
  Local Set Default Proof Using "Type".
  Variable getTime : jsstring → option Z.
  Variable pm : gmap jsstring ProfileRow.
  Implicit Types (top dr nr : list CommentRow) (c r n d : CommentRow).

Lemma occurrences_withReplies k top dr nr :
    occurrences k (withReplies getTime pm top dr nr)
    ≡ₚ mjoin
         ((λ c, filter (λ it, id (reply_row it) = k)
                  (merged_of pm (build_directReplyMap pm dr) dr nr c))
            <$> top).
  Proof.
    unfold occurrences.
    by rewrite all_replies_withReplies, filter_join, <- list_fmap_compose.
  Qed.

  (** Where the direct reply [r] stands in the group of [c]. *)
Lemma direct_reply_in_group top dr nr r c :
    distinct_ids top dr nr → r ∈ dr →
    filter (λ it, id (reply_row it) = id r)
      (merged_of pm (build_directReplyMap pm dr) dr nr c)
    = if decide (parent_id r = Some (id c)) then [direct_item pm r] else [].
  Proof.
    intros (_ & Hdr & _ & _ & Hdn)%distinct_ids_inv Hr.
    rewrite merged_of_by_id.
    rewrite (filter_key_member id dr r Hdr Hr).
    rewrite (filter_key_absent id nr (id r))
      by (apply Hdn; by apply list_elem_of_fmap_2).
    rewrite filter_nil, fmap_nil, app_nil_r, filter_cons, filter_nil.
    by case_decide.
  Qed.

  (** Where the nested reply [n], an answer to the direct reply [d],
      stands in the group of [c]. *)
Lemma nested_reply_in_group top dr nr n d c :
    distinct_ids top dr nr → n ∈ nr → d ∈ dr → parent_id n = Some (id d) →
    filter (λ it, id (reply_row it) = id n)
      (merged_of pm (build_directReplyMap pm dr) dr nr c)
    = if decide (parent_id d = Some (id c)) then [nested_item pm n d] else [].
  Proof.
    intros (_ & Hdr & Hnr & _ & Hdn)%distinct_ids_inv Hn Hd Hp.
    rewrite merged_of_by_id.
    rewrite (filter_key_member id nr n Hnr Hn).
    rewrite (filter_key_absent id dr (id n)).
    2:{ intros Hin. by apply (Hdn _ Hin), list_elem_of_fmap_2. }
    rewrite filter_nil, fmap_nil, app_nil_l, filter_cons, filter_nil, Hp.
    assert (includes (id <$> direct_of pm dr c) (Some (id d)) = true
            ↔ parent_id d = Some (id c)) as Hincl.
    { rewrite includes_direct_of. split; [|intros; by exists d].
      intros (d' & Hd' & Hid & Hpar).
      assert (d' ∈ filter (λ x, id x = id d) dr) as Hin
        by (by apply list_elem_of_filter).
      rewrite (filter_key_member id dr d Hdr Hd) in Hin.
      apply list_elem_of_singleton in Hin. by subst. }
    destruct (decide (parent_id d = Some (id c))) as [Hc|Hc].
    - rewrite decide_True by by apply Hincl.
      rewrite fmap_cons, fmap_nil, Hp. unfold map_get.
      by rewrite (build_directReplyMap_lookup pm dr d Hdr Hd).
    - rewrite decide_False; [done|]. by rewrite Hincl.
  Qed.

  (** Every item of a reply list is a direct reply with a null
      back-reference, or a nested reply that points back to a direct reply
      whose id is that of a direct reply of the same group. *)
Lemma merged_of_elem_of dr nr c it :
    it ∈ merged_of pm (build_directReplyMap pm dr) dr nr c →
    (∃ r, r ∈ dr ∧ parent_id r = Some (id c) ∧ it = direct_item pm r)
    ∨ (∃ n d d', n ∈ nr ∧ d ∈ dr ∧ parent_id n = Some (id d)
         ∧ d' ∈ dr ∧ id d' = id d ∧ parent_id d' = Some (id c)
         ∧ it = nested_item pm n d).
  Proof.
    unfold merged_of, nested_of.
    intros [Hit|Hit]%elem_of_app.
    - left. apply list_elem_of_fmap in Hit as (a & -> & Ha).
      unfold direct_of in Ha.
      apply list_elem_of_fmap in Ha as (r & -> & [Hp Hr]%list_elem_of_filter).
      by exists r.
    - right. apply list_elem_of_fmap in Hit as (n & -> & [Hi Hn]%list_elem_of_filter).
      destruct (parent_id n) as [k|] eqn:Hp; [|done].
      apply includes_direct_of in Hi as (d' & Hd' & Hid & Hpar).
      destruct (build_directReplyMap_lookup_is_Some pm dr k) as [v Hv].
      { rewrite <- Hid. by apply list_elem_of_fmap_2. }
      pose proof Hv as (d & Hd & Hk & ->)%build_directReplyMap_lookup_Some.
      exists n, d, d'. unfold nested_item, map_get. rewrite Hv.
      split_and!; try done; congruence.
  Qed.

Lemma all_replies_elem_of top dr nr it :
    it ∈ all_replies (withReplies getTime pm top dr nr) →
    ∃ c, c ∈ top ∧ it ∈ merged_of pm (build_directReplyMap pm dr) dr nr c.
  Proof using Type.
    rewrite all_replies_withReplies.
    intros (l & Hit & (c & -> & Hc)%list_elem_of_fmap)%list_elem_of_join.
    by exists c.
  Qed.
End Placement.

(** C1: when the identifiers of the three collections are pairwise
    distinct, a direct reply whose [parent_id] is the id of a top-level
    comment of the page occurs exactly once in the reply lists of the
    result (as itself with its profile and a null back-reference), and a
    direct reply whose [parent_id] is the id of no top-level comment of
    the page occurs in no reply list. *)
Theorem direct_reply_placed_once (getTime : jsstring → option Z)
    (pm : gmap jsstring ProfileRow) (top dr nr : list CommentRow)
    (r : CommentRow) :
  distinct_ids top dr nr → r ∈ dr →
  ((∃ c, c ∈ top ∧ parent_id r = Some (id c)) →
     occurrences (id r) (withReplies getTime pm top dr nr) = [direct_item pm r])
  ∧ ((∀ c, c ∈ top → parent_id r ≠ Some (id c)) →
     occurrences (id r) (withReplies getTime pm top dr nr) = []).
Proof.
  intros Hids Hr.
  pose proof (occurrences_withReplies getTime pm (id r) top dr nr) as Hocc.
  rewrite (fmap_ext_elem_of _
             (λ c, if decide (parent_id r = Some (id c))
                   then [direct_item pm r] else [])) in Hocc
    by (intros; by eapply direct_reply_in_group).
  destruct (distinct_ids_inv _ _ _ Hids) as (Htop & _).
  split.
  - intros (c & Hc & Hp).
    rewrite (join_select_member id top c) in Hocc; try done.
    + by apply Permutation_singleton_r in Hocc.
    + intros x _. rewrite Hp. split; congruence.
  - intros Hnone.
    rewrite join_select_none in Hocc by done.
    by apply Permutation_nil_r in Hocc.
Qed.

(** C2: when the identifiers are pairwise distinct, a nested reply whose
    [parent_id] is the id of a direct reply that answers a top-level
    comment of the page occurs exactly once in the reply lists, with that
    direct reply (with its profile) as back-reference; and an item of a
    reply list that carries the id of a direct reply has a null
    back-reference. *)
Theorem nested_reply_placed_once (getTime : jsstring → option Z)
    (pm : gmap jsstring ProfileRow) (top dr nr : list CommentRow) :
  distinct_ids top dr nr →
  (∀ n d c, n ∈ nr → d ∈ dr → c ∈ top →
     parent_id n = Some (id d) → parent_id d = Some (id c) →
     occurrences (id n) (withReplies getTime pm top dr nr)
     = [nested_item pm n d])
  ∧ (∀ it, it ∈ all_replies (withReplies getTime pm top dr nr) →
       id (reply_row it) ∈ (id <$> dr) → parent it = ParentNull).
Proof.
  intros Hids.
  destruct (distinct_ids_inv _ _ _ Hids) as (Htop & Hdr & Hnr & _ & Hdn).
  split.
  - intros n d c Hn Hd Hc Hpn Hpd.
    pose proof (occurrences_withReplies getTime pm (id n) top dr nr) as Hocc.
    rewrite (fmap_ext_elem_of _
               (λ c, if decide (parent_id d = Some (id c))
                     then [nested_item pm n d] else [])) in Hocc
      by (intros; by eapply nested_reply_in_group).
    rewrite (join_select_member id top c) in Hocc; try done.
    + by apply Permutation_singleton_r in Hocc.
    + intros x _. rewrite Hpd. split; congruence.
  - intros it (c & Hc & Hit)%all_replies_elem_of Hid.
    apply merged_of_elem_of in Hit
      as [(r & _ & _ & ->)|(n & d & d' & Hn & _ & _ & _ & _ & _ & ->)]; [done|].
    exfalso. apply (Hdn _ Hid). simpl. by apply list_elem_of_fmap_2.
Qed.

(** Closed facts about concrete lists are settled by evaluation. *)
Ltac by_evaluation := apply (bool_decide_unpack _); vm_compute; exact I.

Lemma direct_reply_placed_once_witness :
  distinct_ids page_top page_direct page_nested
  ∧ occurrences (js "B")
      (withReplies digits_ms page_profiles page_top page_direct page_nested)
    = [direct_item page_profiles (row "B" (Some "A") "9" "bob")]
  ∧ occurrences (js "E")
      (withReplies digits_ms page_profiles page_top page_direct page_nested)
    = [].
Proof.
  assert (distinct_ids page_top page_direct page_nested) as Hids
    by by_evaluation.
  split; [exact Hids|]. split.
  - refine (proj1 (direct_reply_placed_once digits_ms page_profiles
                     page_top page_direct page_nested
                     (row "B" (Some "A") "9" "bob") Hids _) _).
    + by_evaluation.
    + exists (row "A" None "10" "ann"). split; [by_evaluation|reflexivity].
  - refine (proj2 (direct_reply_placed_once digits_ms page_profiles
                     page_top page_direct page_nested
                     (row "E" (Some "Z") "6" "eve") Hids _) _).
    + by_evaluation.
    + intros c Hc. apply list_elem_of_singleton in Hc. subst c. discriminate.
Defined.

Lemma nested_reply_placed_once_witness :
  distinct_ids page_top page_direct page_nested
  ∧ occurrences (js "D")
      (withReplies digits_ms page_profiles page_top page_direct page_nested)
    = [nested_item page_profiles (row "D" (Some "B") "7" "dan")
         (row "B" (Some "A") "9" "bob")].
Proof.
  assert (distinct_ids page_top page_direct page_nested) as Hids
    by by_evaluation.
  split; [exact Hids|].
  refine (proj1 (nested_reply_placed_once digits_ms page_profiles
                   page_top page_direct page_nested Hids)
            (row "D" (Some "B") "7" "dan") (row "B" (Some "A") "9" "bob")
            (row "A" None "10" "ann") _ _ _ _ _);
    first [reflexivity | by_evaluation].
Defined.

(** ** The order of a reply list *)

Lemma filter_ext_elem_of {A} (P Q : A → Prop) `{!∀ x, Decision (P x)}
    `{!∀ x, Decision (Q x)} (l : list A) :
  (∀ x, x ∈ l → P x ↔ Q x) → filter P l = filter Q l.
Proof.
  induction l as [|x l IH]; [done|]. intros Hl.
  rewrite !filter_cons, IH by (intros y Hy; apply Hl; by right).
  destruct (decide (P x)) as [HP|HP], (decide (Q x)) as [HQ|HQ]; try done.
  - destruct HQ. by apply (Hl x); [left|].
  - destruct HP. by apply (Hl x); [left|].
Qed.

Lemma StronglySorted_impl_elem_of {A} (R R' : A → A → Prop) (l : list A) :
  (∀ a b, a ∈ l → b ∈ l → R a b → R' a b) →
  StronglySorted R l → StronglySorted R' l.
Proof.
  induction l as [|x l IH]; intros HR Hl; [constructor|].
  apply StronglySorted_cons in Hl as [Hx Hl].
  apply StronglySorted_cons. split.
  - apply Forall_forall. intros y Hy. apply HR; [by left|by right|].
    by eapply Forall_forall in Hx.
  - apply IH; [|done]. intros a b Ha Hb. apply HR; by right.
Qed.

Lemma times_parse_Forall (getTime : jsstring → option Z)
    (rows : list CommentRow) :
  Forall (λ r, is_Some (getTime (created_at r))) rows →
  times_parse getTime rows.
Proof. intros Hrows r Hr. by eapply Forall_forall in Hrows. Qed.

(** The creation times of the items of a merge are those of fetched
    replies. *)
Lemma merged_of_times_parse (getTime : jsstring → option Z)
    (pm : gmap jsstring ProfileRow) (dr nr : list CommentRow)
    (c : CommentRow) (it : ReplyItem) :
  times_parse getTime (dr ++ nr) →
  it ∈ merged_of pm (build_directReplyMap pm dr) dr nr c →
  is_Some (reply_time getTime it).
Proof.
  intros Hparse
    [(r & Hr & _ & ->)|(n & d & d' & Hn & _ & _ & _ & _ & _ & ->)]%merged_of_elem_of;
    unfold reply_time; simpl; apply Hparse, elem_of_app; auto.
Qed.

(** On items whose creation times are dates the comparator is the
    difference of the times. *)
Lemma compare_replies_parsed (getTime : jsstring → option Z)
    (a b : ReplyItem) :
  is_Some (reply_time getTime a) → is_Some (reply_time getTime b) →
  compare_replies getTime a b
  = Some (default 0 (reply_time getTime b) - default 0 (reply_time getTime a)).
Proof.
  unfold compare_replies, reply_time. by intros [ta ->] [tb ->].
Qed.

(** C3, as the code has it: when the [created_at] of every fetched reply
    is a date, in every group the reply list is in descending order of
    creation time, it is a rearrangement of the direct replies of the
    comment followed by their nested replies, and replies with the same
    creation time keep the order they have in that merge (no comparison
    of identifiers takes place). *)
Theorem replies_descending_and_stable (getTime : jsstring → option Z)
    (pm : gmap jsstring ProfileRow) (top dr nr : list CommentRow) :
  times_parse getTime (dr ++ nr) →
  Forall2
    (λ c g,
       let merged := merged_of pm (build_directReplyMap pm dr) dr nr c in
       group_row g = attachProfiles pm c
       ∧ descending_times getTime (replies g)
       ∧ replies g ≡ₚ merged
       ∧ ∀ t, filter (λ it, reply_time getTime it = t) (replies g)
              = filter (λ it, reply_time getTime it = t) merged)
    top (withReplies getTime pm top dr nr).
Proof.
  intros Hparse.
  unfold withReplies. apply Forall2_fmap_r, Forall_Forall2_diag, Forall_forall.
  intros c _. simpl.
  set (merged := merged_of pm (build_directReplyMap pm dr) dr nr c).
  set (key := λ it, default 0 (reply_time getTime it)).
  assert (∀ it, it ∈ merged → is_Some (reply_time getTime it)) as Hmerged
    by (intros it; by apply merged_of_times_parse).
  assert (∀ it, it ∈ array_sort (compare_replies getTime) merged →
                is_Some (reply_time getTime it)) as Hsorted
    by (intros it Hit; apply Hmerged; by rewrite array_sort_elem_of in Hit).
  assert (array_sort (compare_replies getTime) merged
          = array_sort (λ a b, Some (key b - key a)) merged) as Hsort.
  { apply array_sort_ext. intros a b Ha Hb.
    apply compare_replies_parsed; by apply Hmerged. }
  split_and!.
  - done.
  - apply (StronglySorted_impl_elem_of (λ a b, key b ≤ key a)).
    + intros a b [ta Ha]%Hsorted [tb Hb]%Hsorted Hle.
      exists ta, tb. unfold key in Hle. rewrite Ha, Hb in Hle. done.
    + rewrite Hsort. by apply (array_sort_descending _ key).
  - apply array_sort_perm.
  - intros [t|].
    + rewrite (filter_ext_elem_of _ (λ it, key it = t)
                 (array_sort (compare_replies getTime) merged)).
      2:{ intros it [ti Hi]%Hsorted. unfold key. rewrite Hi. simpl.
          split; congruence. }
      rewrite (filter_ext_elem_of _ (λ it, key it = t) merged).
      2:{ intros it [ti Hi]%Hmerged. unfold key. rewrite Hi. simpl.
          split; congruence. }
      rewrite Hsort. by apply (array_sort_stable _ key).
    + rewrite !filter_none; [done| |].
      * intros it [ti Hi]%Hmerged. congruence.
      * intros it [ti Hi]%Hsorted. congruence.
Qed.

Lemma replies_descending_and_stable_witness :
  times_parse digits_ms (page_direct ++ page_nested)
  ∧ Forall2
      (λ c g,
         let merged :=
           merged_of page_profiles
             (build_directReplyMap page_profiles page_direct)
             page_direct page_nested c in
         group_row g = attachProfiles page_profiles c
         ∧ descending_times digits_ms (replies g)
         ∧ replies g ≡ₚ merged
         ∧ ∀ t, filter (λ it, reply_time digits_ms it = t) (replies g)
                = filter (λ it, reply_time digits_ms it = t) merged)
      page_top
      (withReplies digits_ms page_profiles page_top page_direct page_nested).
Proof.
  assert (times_parse digits_ms (page_direct ++ page_nested)) as Hparse
    by (apply times_parse_Forall; by_evaluation).
  split; [exact Hparse|].
  exact (replies_descending_and_stable digits_ms page_profiles page_top
           page_direct page_nested Hparse).
Defined.

(** C3 fails as stated: three replies to A written at the same instant
    and fetched in the order b, a, c are shown in that order, which is
    neither the ascending nor the descending order of their identifiers,
    however the timestamps are read. *)
Lemma ties_not_ordered_by_id :
  (∀ getTime,
     withReplies getTime ∅ tie_top tie_direct []
     = [ {| group_row := row "A" None tie_time "ann";
            replies := direct_item ∅ <$> tie_direct |} ])
  ∧ (∀ getTime,
       ¬ ∀ g, g ∈ withReplies getTime ∅ tie_top tie_direct [] →
           ties_by_id_ascending getTime (replies g))
  ∧ (∀ getTime,
       ¬ ∀ g, g ∈ withReplies getTime ∅ tie_top tie_direct [] →
           ties_by_id_descending getTime (replies g)).
Proof.
  assert (∀ getTime,
            withReplies getTime ∅ tie_top tie_direct []
            = [ {| group_row := row "A" None tie_time "ann";
                   replies := direct_item ∅ <$> tie_direct |} ]) as Hout.
  { intros getTime. unfold withReplies, tie_top. rewrite fmap_cons, fmap_nil.
    f_equal. f_equal.
    assert (merged_of ∅ (build_directReplyMap ∅ tie_direct) tie_direct []
              (row "A" None tie_time "ann") = direct_item ∅ <$> tie_direct)
      as -> by (vm_compute; reflexivity).
    apply array_sort_nothing_to_move.
    assert (∀ it, it ∈ direct_item ∅ <$> tie_direct →
                  created_at (reply_row it) = js tie_time) as Htime.
    { intros it (r & -> & Hr)%list_elem_of_fmap. unfold tie_direct in Hr.
      repeat (apply elem_of_cons in Hr as [->|Hr]; [reflexivity|]).
      by apply elem_of_nil in Hr. }
    intros a b Ha%Htime Hb%Htime.
    unfold sorts_after, compare_replies. rewrite Ha, Hb.
    destruct (getTime (js tie_time)) as [t|]; [|done].
    unfold number_minus. rewrite Z.sub_diag. done. }
  split; [exact Hout|]. split; intros getTime Hall.
  - specialize (Hall _ ltac:(rewrite Hout; left)).
    specialize (Hall 0%nat 1%nat
                  (direct_item ∅ (row "b" (Some "A") tie_time "bob"))
                  (direct_item ∅ (row "a" (Some "A") tie_time "cyd"))).
    vm_compute in Hall.
    discriminate (Hall eq_refl eq_refl (le_n _) eq_refl).
  - specialize (Hall _ ltac:(rewrite Hout; left)).
    specialize (Hall 1%nat 2%nat
                  (direct_item ∅ (row "a" (Some "A") tie_time "cyd"))
                  (direct_item ∅ (row "c" (Some "A") tie_time "eve"))).
    vm_compute in Hall.
    discriminate (Hall eq_refl eq_refl (le_n _) eq_refl).
Qed.

(** Why the dates must parse: with a direct reply C whose [created_at]
    is not a date, the comparator answers NaN for every pair with C. The
    merge B, C, D is then a run in which no element is found to be out of
    place, and B, written at 1, stays before D, written at 2. *)
Lemma unparsed_time_breaks_order :
  (λ it, (id (reply_row it), reply_time digits_ms it))
    <$> all_replies
          (withReplies digits_ms ∅ page_top unparsed_direct unparsed_nested)
  = [(js "B", Some 1); (js "C", None); (js "D", Some 2)].
Proof. by_evaluation. Qed.

(** ** Orphaned nested replies *)

Lemma includes_direct_of_all (pm : gmap jsstring ProfileRow)
    (dr : list CommentRow) (c : CommentRow) (p : option jsstring) :
  includes (id <$> direct_of pm dr c) p = true →
  includes (id <$> dr) p = true.
Proof.
  destruct p as [k|]; [|done].
  intros (d & Hd & <- & _)%includes_direct_of.
  simpl. apply bool_decide_eq_true. by apply list_elem_of_fmap_2.
Qed.

Lemma orphaned_not_included (pm : gmap jsstring ProfileRow)
    (dr : list CommentRow) (c n : CommentRow) :
  orphaned dr n → includes (id <$> direct_of pm dr c) (parent_id n) ≠ true.
Proof.
  unfold orphaned. intros Ho Hi%includes_direct_of_all. congruence.
Qed.

(** C5: a nested reply whose [parent_id] is the id of no direct reply is
    left out of every reply list: the result has one group per top-level
    comment, it is the result obtained without that nested reply, and
    (when the ids of the replies are distinct) no item of a reply list
    carries its id. *)
Theorem orphaned_nested_reply_dropped (getTime : jsstring → option Z)
    (pm : gmap jsstring ProfileRow) (top dr nr : list CommentRow)
    (n : CommentRow) :
  n ∈ nr → orphaned dr n →
  length (withReplies getTime pm top dr nr) = length top
  ∧ withReplies getTime pm top dr nr
    = withReplies getTime pm top dr (filter (λ x, x ≠ n) nr)
  ∧ (NoDup (id <$> (dr ++ nr)) →
     occurrences (id n) (withReplies getTime pm top dr nr) = []).
Proof.
  intros Hn Ho. split_and!.
  - apply withReplies_length.
  - unfold withReplies. apply fmap_ext_elem_of. intros c _.
    f_equal. f_equal. unfold merged_of, nested_of. f_equal. f_equal.
    rewrite list_filter_filter. apply list_filter_iff.
    intros x. split; [|by intros [? ?]].
    intros Hx. split; [done|]. intros ->.
    by apply (orphaned_not_included pm dr c n).
  - rewrite fmap_app. intros (_ & Hdn & Hnr)%NoDup_app.
    pose proof (occurrences_withReplies getTime pm (id n) top dr nr) as Hocc.
    rewrite (fmap_ext_elem_of _ (λ _, [])) in Hocc.
    + rewrite (proj2 (join_nil _)) in Hocc
        by (by apply Forall_fmap, Forall_forall).
      by apply Permutation_nil_r in Hocc.
    + intros c _. rewrite merged_of_by_id.
      rewrite (filter_key_member id nr n Hnr Hn).
      rewrite (filter_key_absent id dr (id n)).
      2:{ intros Hin. by apply (Hdn _ Hin), list_elem_of_fmap_2. }
      rewrite filter_nil, fmap_nil, app_nil_l.
      rewrite filter_cons_False; [done|].
      by apply orphaned_not_included.
Qed.

Lemma orphaned_nested_reply_dropped_witness :
  length (withReplies digits_ms page_profiles page_top page_direct page_nested)
  = 1%nat
  ∧ withReplies digits_ms page_profiles page_top page_direct page_nested
    = withReplies digits_ms page_profiles page_top page_direct
        [row "D" (Some "B") "7" "dan"]
  ∧ occurrences (js "F")
      (withReplies digits_ms page_profiles page_top page_direct page_nested)
    = [].
Proof.
  destruct (orphaned_nested_reply_dropped digits_ms page_profiles
              page_top page_direct page_nested (row "F" (Some "Q") "5" "fay"))
    as (Hlen & Hsame & Hnone).
  - by_evaluation.
  - reflexivity.
  - split_and!; [exact Hlen | exact Hsame |].
    apply Hnone. by_evaluation.
Defined.

(** ** Missing profiles *)

Section Profiles.
  Local Set Default Proof Using "Type".
  Variable getTime : jsstring → option Z.
  Implicit Types (pm : gmap jsstring ProfileRow).
  Implicit Types (top dr nr : list CommentRow) (c : CommentRow).

Lemma without_profile_attachProfiles pm c :
    without_profile (attachProfiles pm c) = without_profile c.
  Proof. done. Qed.

  (** The sort does not look at what a map over the items leaves alone. *)
Lemma array_sort_fmap {A} (cmp : A → A → option Z) (f : A → A) (l : list A) :
    (∀ a b, cmp (f a) (f b) = cmp a b) →
    array_sort cmp (f <$> l) = f <$> array_sort cmp l.
  Proof.
    intros Hf. induction l as [|x l IH]; [done|].
    rewrite fmap_cons. simpl. rewrite IH. clear IH.
    induction (array_sort cmp l) as [|y k IHk]; [done|].
    rewrite fmap_cons. simpl. unfold sorts_after. rewrite Hf.
    destruct (cmp x y) as [v|]; [|done].
    destruct (0 <? v); [|done].
    by rewrite fmap_cons, IHk.
  Qed.

Lemma build_directReplyMap_without_profile pm pm' dr k :
    without_profile <$> (build_directReplyMap pm dr !! k)
    = without_profile <$> (build_directReplyMap pm' dr !! k).
  Proof.
    induction dr as [|r dr IH] using rev_ind; [done|].
    rewrite !build_directReplyMap_snoc.
    destruct (decide (id r = k)) as [<-|Hne].
    - by rewrite !lookup_insert_eq.
    - by rewrite !lookup_insert_ne.
  Qed.

Lemma merged_of_without_profile pm pm' dr nr c :
    item_without_profile
      <$> merged_of pm (build_directReplyMap pm dr) dr nr c
    = item_without_profile
      <$> merged_of pm' (build_directReplyMap pm' dr) dr nr c.
  Proof.
    unfold merged_of, nested_of. rewrite !fmap_app. f_equal.
    - unfold direct_of. by rewrite <- !list_fmap_compose.
    - rewrite !direct_of_ids, <- !list_fmap_compose.
      apply fmap_ext_elem_of. intros n _.
      unfold item_without_profile. simpl. f_equal.
      unfold map_get. destruct (parent_id n) as [k|]; [|done].
      pose proof (build_directReplyMap_without_profile pm pm' dr k) as Hk.
      destruct (build_directReplyMap pm dr !! k),
        (build_directReplyMap pm' dr !! k); simpl in Hk; congruence.
  Qed.

  (** Which comments are emitted, and where, does not depend on the
      profiles that were found. *)
Lemma withReplies_without_profile pm pm' top dr nr :
    group_without_profile <$> withReplies getTime pm top dr nr
    = group_without_profile <$> withReplies getTime pm' top dr nr.
  Proof.
    unfold withReplies. rewrite <- !list_fmap_compose.
    apply fmap_ext_elem_of. intros c _.
    unfold group_without_profile. simpl. f_equal.
    rewrite <- !(array_sort_fmap (compare_replies getTime)) by done.
    by rewrite (merged_of_without_profile pm pm').
  Qed.

  (** Every comment object of the result has the profile found under its
      author, or none. *)
Lemma rows_of_group_profiles pm top dr nr g c :
    g ∈ withReplies getTime pm top dr nr → c ∈ rows_of_group g →
    profiles c = pm !! user_id c.
  Proof.
    unfold withReplies.
    intros (c0 & -> & Hc0)%list_elem_of_fmap. unfold rows_of_group. simpl.
    intros [->|Hc]%elem_of_cons; [done|].
    apply list_elem_of_bind in Hc as (it & Hc & Hit).
    rewrite array_sort_elem_of in Hit.
    apply merged_of_elem_of in Hit
      as [(r & _ & _ & ->)|(n & d & d' & _ & _ & _ & _ & _ & _ & ->)];
      unfold rows_of_item in Hc; simpl in Hc.
    - by apply list_elem_of_singleton in Hc as ->.
    - apply elem_of_cons in Hc as [->|Hc]; [done|].
      by apply list_elem_of_singleton in Hc as ->.
  Qed.
End Profiles.

(** What [CommentBlock] shows for a comment without profile. *)
Lemma CommentBlock_without_profile (s : PageState) (c : CommentRow)
    (isReply : bool) (par : ParentRef) :
  profiles c = None →
  shown_nickname (CommentBlock s c isReply par) = js "알 수 없음"
  ∧ avatar (CommentBlock s c isReply par) = AvatarInitial (user_id c) (js "?").
Proof.
  intros Hp. unfold CommentBlock, nickname_or, avatar_src. simpl.
  by rewrite Hp.
Qed.

(** A direct reply to a comment stands in the merge of that comment. *)
Lemma direct_item_in_merged (pm : gmap jsstring ProfileRow)
    (M : gmap jsstring CommentRow) (dr nr : list CommentRow)
    (c r : CommentRow) :
  r ∈ dr → parent_id r = Some (id c) →
  direct_item pm r ∈ merged_of pm M dr nr c.
Proof.
  intros Hr Hp. unfold merged_of. apply elem_of_app. left.
  apply list_elem_of_fmap. exists (attachProfiles pm r). split; [done|].
  unfold direct_of. apply list_elem_of_fmap_2. by apply list_elem_of_filter.
Qed.

(** So does a nested reply to a direct reply to that comment. *)
Lemma nested_item_in_merged (pm : gmap jsstring ProfileRow)
    (M : gmap jsstring CommentRow) (dr nr : list CommentRow)
    (c d n : CommentRow) :
  d ∈ dr → n ∈ nr → parent_id d = Some (id c) → parent_id n = Some (id d) →
  {| reply_row := attachProfiles pm n; parent := map_get M (parent_id n) |}
  ∈ merged_of pm M dr nr c.
Proof.
  intros Hd Hn Hpd Hpn. unfold merged_of, nested_of. apply elem_of_app. right.
  apply (list_elem_of_fmap_2
           (λ n, {| reply_row := attachProfiles pm n;
                    parent := map_get M (parent_id n) |})).
  apply list_elem_of_filter. split; [|done].
  rewrite Hpn. apply includes_direct_of. by exists d.
Qed.

(** The group of a top-level comment is in the result, with the sorted
    merge as its replies. *)
Lemma group_in_withReplies (getTime : jsstring → option Z)
    (pm : gmap jsstring ProfileRow) (top dr nr : list CommentRow)
    (c : CommentRow) (it : ReplyItem) :
  c ∈ top → it ∈ merged_of pm (build_directReplyMap pm dr) dr nr c →
  ∃ g, g ∈ withReplies getTime pm top dr nr
       ∧ group_row g = attachProfiles pm c ∧ it ∈ replies g.
Proof.
  intros Hc Hit. eexists. split_and!.
  - unfold withReplies. apply list_elem_of_fmap_2. exact Hc.
  - done.
  - simpl. by rewrite array_sort_elem_of.
Qed.

(** C7: a comment whose author has no entry in [profilesMap] is emitted
    all the same. The result has one group per top-level comment, and the
    comments it holds and their places are those obtained with any other
    profile map. A comment object of the result whose author has no entry
    carries the null profile, for which the page shows the placeholder
    name and the placeholder initial. And the comments without profile
    are there: a top-level comment of the page as the row of a group, a
    direct reply to it in the replies of that group with a null
    back-reference, and a reply to such a direct reply in the same
    replies. *)
Theorem missing_profile_placeholder (getTime : jsstring → option Z)
    (pm : gmap jsstring ProfileRow) (top dr nr : list CommentRow) :
  length (withReplies getTime pm top dr nr) = length top
  ∧ (∀ pm',
       group_without_profile <$> withReplies getTime pm top dr nr
       = group_without_profile <$> withReplies getTime pm' top dr nr)
  ∧ (∀ g c, g ∈ withReplies getTime pm top dr nr → c ∈ rows_of_group g →
       pm !! user_id c = None →
       profiles c = None
       ∧ ∀ s isReply par,
           shown_nickname (CommentBlock s c isReply par) = js "알 수 없음"
           ∧ avatar (CommentBlock s c isReply par)
             = AvatarInitial (user_id c) (js "?"))
  ∧ (∀ c, c ∈ top → pm !! user_id c = None →
       ∃ g, g ∈ withReplies getTime pm top dr nr
            ∧ group_row g = attachProfiles pm c
            ∧ profiles (group_row g) = None)
  ∧ (∀ c r, c ∈ top → r ∈ dr → parent_id r = Some (id c) →
       pm !! user_id r = None →
       ∃ g it, g ∈ withReplies getTime pm top dr nr
               ∧ group_row g = attachProfiles pm c
               ∧ it ∈ replies g ∧ it = direct_item pm r
               ∧ profiles (reply_row it) = None)
  ∧ (∀ c d n, c ∈ top → d ∈ dr → n ∈ nr → parent_id d = Some (id c) →
       parent_id n = Some (id d) → pm !! user_id n = None →
       ∃ g it, g ∈ withReplies getTime pm top dr nr
               ∧ group_row g = attachProfiles pm c
               ∧ it ∈ replies g ∧ reply_row it = attachProfiles pm n
               ∧ profiles (reply_row it) = None).
Proof.
  split_and!.
  - apply withReplies_length.
  - intros pm'. apply withReplies_without_profile.
  - intros g c Hg Hc Hnone.
    assert (profiles c = None) as Hp
      by (by rewrite (rows_of_group_profiles getTime pm top dr nr g c)).
    split; [done|]. intros. by apply CommentBlock_without_profile.
  - intros c Hc Hnone. eexists. split_and!.
    + unfold withReplies. apply list_elem_of_fmap_2. exact Hc.
    + done.
    + done.
  - intros c r Hc Hr Hp Hnone.
    destruct (group_in_withReplies getTime pm top dr nr c (direct_item pm r))
      as (g & Hg & Hrow & Hit);
      [done|by apply direct_item_in_merged|].
    by exists g, (direct_item pm r).
  - intros c d n Hc Hd Hn Hpd Hpn Hnone.
    destruct (group_in_withReplies getTime pm top dr nr c
                {| reply_row := attachProfiles pm n;
                   parent := map_get (build_directReplyMap pm dr) (parent_id n) |})
      as (g & Hg & Hrow & Hit);
      [done|by eapply nested_item_in_merged|].
    eexists g, _. by split_and!.
Qed.

Lemma missing_profile_placeholder_witness :
  (∃ g it,
     g ∈ withReplies digits_ms page_profiles page_top page_direct page_nested
     ∧ group_row g = attachProfiles page_profiles (row "A" None "10" "ann")
     ∧ it ∈ replies g
     ∧ it = direct_item page_profiles (row "B" (Some "A") "9" "bob")
     ∧ profiles (reply_row it) = None)
  ∧ (∃ g it,
       g ∈ withReplies digits_ms page_profiles page_top page_direct page_nested
       ∧ group_row g = attachProfiles page_profiles (row "A" None "10" "ann")
       ∧ it ∈ replies g
       ∧ reply_row it
         = attachProfiles page_profiles (row "D" (Some "B") "7" "dan")
       ∧ profiles (reply_row it) = None).
Proof.
  destruct (missing_profile_placeholder digits_ms page_profiles page_top
              page_direct page_nested)
    as (_ & _ & _ & _ & Hdirect & Hnested).
  split.
  - apply (Hdirect (row "A" None "10" "ann") (row "B" (Some "A") "9" "bob"));
      by_evaluation.
  - apply (Hnested (row "A" None "10" "ann") (row "B" (Some "A") "9" "bob")
             (row "D" (Some "B") "7" "dan")); by_evaluation.
Defined.

(** ** Submitting a comment or a reply *)

Lemma truthy_false (v : jsstring) : truthy v = false ↔ v = [].
Proof. by destruct v. Qed.


Lemma handleSubmitComment_accepted (s : PageState) (u : AuthUser)
    (i : jsstring) (answer : Awaited) :
  user s = Some u → page_id s = Some i → truthy i = true →
  trim (commentInput s) ≠ [] →
  (length (trim (commentInput s)) ≤ COMMENT_MAX_LENGTH)%nat →
  inserts (handleSubmitComment answer s).2
  = [InsertComment i (auth_id u) (trim (commentInput s)) None].
Proof.
  intros Hu Hi Ht Hne Hlen. unfold handleSubmitComment. rewrite Hu, Hi, Ht.
  cbn [negb]. destruct (truthy (trim (commentInput s))) eqn:Hc; cbn [negb].
  - apply Nat.ltb_ge in Hlen. rewrite Hlen. by destruct answer.
  - by apply truthy_false in Hc.
Qed.





(** ** Toggling a like *)

Lemma row_frame_refl (k : jsstring) (a : CommentRow) : row_frame k a a.
Proof. unfold row_frame, same_but_likes. split_and!; try done. by left. Qed.

Lemma like_row_frame (k : jsstring) (a : CommentRow) :
  id a = k → row_frame k a (like_row a).
Proof.
  intros Hk. unfold row_frame, same_but_likes. simpl. split_and!; try done.
  right. by left.
Qed.

Lemma unlike_row_frame (k : jsstring) (a : CommentRow) :
  id a = k → row_frame k a (unlike_row a).
Proof.
  intros Hk. unfold row_frame, same_but_likes. simpl.
  split_and!; try done. right. by right.
Qed.

Lemma update_likes_frame (upd : CommentRow → CommentRow) (k : jsstring)
    (prev : list CommentWithReplies) :
  (∀ a, id a = k → row_frame k a (upd a)) →
  Forall2 (group_frame k) prev (update_likes upd k prev).
Proof.
  intros Hupd. unfold update_likes.
  apply Forall2_fmap_r, Forall_Forall2_diag, Forall_forall.
  intros g Hg. unfold group_frame. simpl.
  destruct (decide (id (group_row g) = k)) as [Hk|Hk]; simpl.
  - split; [by apply Hupd|].
    apply Forall_Forall2_diag, Forall_forall. intros r _.
    split; [done|apply row_frame_refl].
  - split; [apply row_frame_refl|].
    apply Forall2_fmap_r, Forall_Forall2_diag, Forall_forall.
    intros r Hr. simpl.
    destruct (decide (id (reply_row r) = k)) as [Hkr|Hkr]; simpl.
    + split; [done|]. by apply Hupd.
    + split; [done|apply row_frame_refl].
Qed.

Lemma group_frame_refl (k : jsstring) (prev : list CommentWithReplies) :
  Forall2 (group_frame k) prev prev.
Proof.
  apply Forall_Forall2_diag, Forall_forall. intros g _.
  split; [apply row_frame_refl|].
  apply Forall_Forall2_diag, Forall_forall. intros r _.
  split; [done|apply row_frame_refl].
Qed.

Lemma handleToggleLike_frame (s : PageState) (k : jsstring)
    (answer : Awaited) :
  Forall2 (group_frame k) (comments s)
    (comments (handleToggleLike k answer s).1).
Proof.
  unfold handleToggleLike.
  destruct (user s) as [u|]; [|apply group_frame_refl].
  case_bool_decide; destruct answer; simpl;
    first [ apply group_frame_refl
          | apply update_likes_frame; intros a Ha;
            first [by apply unlike_row_frame | by apply like_row_frame] ].
Qed.



Lemma counts_nonnegative_Forall (prev : list CommentWithReplies) :
  Forall
    (λ g, 0 ≤ likes_count (group_row g)
          ∧ Forall (λ r, 0 ≤ likes_count (reply_row r)) (replies g))
    prev →
  counts_nonnegative prev.
Proof.
  intros Hprev g Hg. eapply Forall_forall in Hprev as [Hg0 Hrs]; [|done].
  split; [done|]. intros r Hr. by eapply Forall_forall in Hrs.
Qed.




(** What an unlike does to the counts: the comment [k] loses one like,
    but never goes below zero; a reply is reached in a group whose own id
    is not [k]. *)
Lemma update_likes_unlike (k : jsstring) (prev : list CommentWithReplies) :
  Forall2
    (λ g g',
       (id (group_row g) = k →
        likes_count (group_row g') = Z.max 0 (likes_count (group_row g) - 1))
       ∧ (id (group_row g) ≠ k →
          Forall2
            (λ r r',
               id (reply_row r) = k →
               likes_count (reply_row r')
               = Z.max 0 (likes_count (reply_row r) - 1))
            (replies g) (replies g')))
    prev (update_likes unlike_row k prev).
Proof.
  unfold update_likes.
  apply Forall2_fmap_r, Forall_Forall2_diag, Forall_forall.
  intros g _. simpl.
  destruct (decide (id (group_row g) = k)) as [Hk|Hk]; simpl;
    (split; [done|]); [done|].
  intros _. apply Forall2_fmap_r, Forall_Forall2_diag, Forall_forall.
  intros r _. simpl. by destruct (decide (id (reply_row r) = k)).
Qed.

(** C8: for a signed-in viewer and a comment whose id is in
    [likedCommentIds], the like button of the comment, whenever it is
    shown, is shown filled, and it is shown for a comment that is neither
    deleted nor being edited; a toggle (whose backend call is not
    rejected) sends the deletion of the like, takes the id out of
    [likedCommentIds] and lowers the like count of the comment by one,
    not below zero. *)
Theorem liked_then_unliked (s : PageState) (u : AuthUser) (k : jsstring)
    (answer : Awaited) :
  user s = Some u → k ∈ likedCommentIds s → answer ≠ Rejected →
  (∀ c isReply par a b,
     id c = k → actions (CommentBlock s c isReply par) = Some a →
     like_button a = Some b → heart_filled b = true)
  ∧ (∀ c isReply par,
       id c = k → isDeleted c = false → isEditing s c = false →
       ∃ a, actions (CommentBlock s c isReply par) = Some a
            ∧ like_button a
              = Some {| heart_filled := true; shown_count := likes_count c |})
  ∧ (handleToggleLike k answer s).2 = [DeleteCommentLike k (auth_id u)]
  ∧ likedCommentIds (handleToggleLike k answer s).1
    = likedCommentIds s ∖ {[k]}
  ∧ (k ∉ likedCommentIds (handleToggleLike k answer s).1)
  ∧ Forall2
      (λ g g',
         (id (group_row g) = k →
          likes_count (group_row g')
          = Z.max 0 (likes_count (group_row g) - 1))
         ∧ (id (group_row g) ≠ k →
            Forall2
              (λ r r',
                 id (reply_row r) = k →
                 likes_count (reply_row r')
                 = Z.max 0 (likes_count (reply_row r) - 1))
              (replies g) (replies g')))
      (comments s) (comments (handleToggleLike k answer s).1).
Proof.
  intros Hu Hk Hans.
  assert (handleToggleLike k answer s
          = (setComments (update_likes unlike_row k)
               (setLikedCommentIds (λ prev, prev ∖ {[k]}) s),
             [DeleteCommentLike k (auth_id u)])) as ->.
  { unfold handleToggleLike. rewrite Hu, bool_decide_eq_true_2 by done.
    by destruct answer. }
  split_and!.
  - intros c isReply par a b <-. unfold CommentBlock. simpl.
    destruct (isEditing s c); [done|]. intros [= <-]. simpl.
    destruct (negb (isDeleted c) && _); [|done].
    intros [= <-]. simpl. by apply bool_decide_eq_true_2.
  - intros c isReply par <- Hd He. unfold CommentBlock. cbn [actions].
    rewrite He. eexists. split; [reflexivity|]. cbn [like_button].
    rewrite Hd, Hu.
    rewrite (bool_decide_eq_true_2 (is_Some (Some u))) by by eexists.
    by rewrite (bool_decide_eq_true_2 (id c ∈ likedCommentIds s)).
  - done.
  - done.
  - simpl. rewrite elem_of_difference, elem_of_singleton. by intros [_ ?].
  - simpl. apply update_likes_unlike.
Qed.

Lemma liked_then_unliked_witness :
  (handleToggleLike (js "c1") Fulfilled viewer_state).2
  = [DeleteCommentLike (js "c1") (js "u1")]
  ∧ js "c1" ∉ likedCommentIds (handleToggleLike (js "c1") Fulfilled viewer_state).1.
Proof.
  destruct (liked_then_unliked viewer_state viewer (js "c1") Fulfilled)
    as (_ & _ & Heff & _ & Hout & _).
  - reflexivity.
  - by_evaluation.
  - discriminate.
  - split; [exact Heff|exact Hout].
Defined.

(** ** Soft-deleted comments *)

Section SoftDelete.
Local Set Default Proof Using "Type".
Variable getTime : jsstring → option Z.
Variable pm : gmap jsstring ProfileRow.
Variables k t : jsstring.
Implicit Types (top dr nr : list CommentRow) (c r n : CommentRow).

Lemma soft_delete_id c : id (soft_delete k t c) = id c.
Proof. unfold soft_delete. by case_decide. Qed.

Lemma soft_delete_parent_id c : parent_id (soft_delete k t c) = parent_id c.
Proof. unfold soft_delete. by case_decide. Qed.

Lemma soft_delete_created_at c : created_at (soft_delete k t c) = created_at c.
Proof. unfold soft_delete. by case_decide. Qed.

Lemma soft_delete_attachProfiles c :
  attachProfiles pm (soft_delete k t c) = soft_delete k t (attachProfiles pm c).
Proof. unfold soft_delete. simpl. by case_decide. Qed.

Lemma build_directReplyMap_soft_delete dr :
  build_directReplyMap pm (soft_delete k t <$> dr)
  = soft_delete k t <$> build_directReplyMap pm dr.
Proof.
  induction dr as [|r dr IH] using rev_ind.
  { unfold build_directReplyMap. simpl. by rewrite fmap_empty. }
  rewrite fmap_app, fmap_cons, fmap_nil, !build_directReplyMap_snoc, IH.
  by rewrite fmap_insert, soft_delete_id, soft_delete_attachProfiles.
Qed.

Lemma merged_of_soft_delete dr nr c :
  merged_of pm (build_directReplyMap pm (soft_delete k t <$> dr))
    (soft_delete k t <$> dr) (soft_delete k t <$> nr) (soft_delete k t c)
  = soft_delete_item k t
    <$> merged_of pm (build_directReplyMap pm dr) dr nr c.
Proof.
  assert (direct_of pm (soft_delete k t <$> dr) (soft_delete k t c)
          = soft_delete k t <$> direct_of pm dr c) as Hdirect.
  { unfold direct_of. rewrite filter_fmap, <- !list_fmap_compose.
    erewrite (list_filter_iff _ (λ r, parent_id r = Some (id c))).
    - apply fmap_ext_elem_of. intros r _. simpl.
      apply soft_delete_attachProfiles.
    - intros r. by rewrite soft_delete_parent_id, soft_delete_id. }
  unfold merged_of. rewrite Hdirect, fmap_app. f_equal.
  - rewrite <- !list_fmap_compose. by apply fmap_ext_elem_of.
  - assert ((id <$> (soft_delete k t <$> direct_of pm dr c))
            = id <$> direct_of pm dr c) as ->.
    { rewrite <- list_fmap_compose. apply fmap_ext_elem_of.
      intros r _. apply soft_delete_id. }
    unfold nested_of. rewrite filter_fmap, <- !list_fmap_compose.
    erewrite (list_filter_iff _
                (λ n, includes (id <$> direct_of pm dr c) (parent_id n) = true)).
    2:{ intros n. by rewrite soft_delete_parent_id. }
    apply fmap_ext_elem_of. intros n _. simpl.
    unfold soft_delete_item. simpl.
    rewrite soft_delete_attachProfiles, soft_delete_parent_id. f_equal.
    rewrite build_directReplyMap_soft_delete. unfold map_get.
    destruct (parent_id n) as [p|]; [|done].
    rewrite lookup_fmap. by destruct (build_directReplyMap pm dr !! p).
Qed.

(** The assembly does not look at [deleted_at]: marking a comment as
    deleted in what was fetched marks it in the result and moves
    nothing. *)
Lemma withReplies_soft_delete top dr nr :
  withReplies getTime pm (soft_delete k t <$> top) (soft_delete k t <$> dr)
    (soft_delete k t <$> nr)
  = soft_delete_group k t <$> withReplies getTime pm top dr nr.
Proof.
  unfold withReplies. rewrite <- !list_fmap_compose.
  apply fmap_ext_elem_of. intros c _. simpl.
  unfold soft_delete_group. simpl.
  rewrite soft_delete_attachProfiles. f_equal.
  rewrite merged_of_soft_delete.
  apply array_sort_fmap. intros a b. unfold compare_replies. simpl.
  by rewrite !soft_delete_created_at.
Qed.
End SoftDelete.

(** What [CommentBlock] shows for a deleted comment: the notice in place
    of the text, and a row of actions without any control. *)
Lemma CommentBlock_deleted (s : PageState) (c : CommentRow) (isReply : bool)
    (par : ParentRef) :
  isDeleted c = true →
  block_key (CommentBlock s c isReply par) = id c
  ∧ time_of (CommentBlock s c isReply par) = created_at c
  ∧ body (CommentBlock s c isReply par)
    = BodyDeletedNotice (js "삭제된 댓글입니다.")
  ∧ actions (CommentBlock s c isReply par)
    = Some {| like_button := None; like_count_only := None;
              reply_button := false; edit_button := false;
              delete_button := false |}.
Proof.
  intros Hd. unfold CommentBlock, isEditing. cbn [block_key time_of body actions].
  by rewrite Hd.
Qed.

(** The reply box depends on [replyToId] and the id alone: it stays under
    a comment that gets deleted. *)
Lemma reply_box_for_soft_delete (s : PageState) (k t : jsstring)
    (c : CommentRow) :
  reply_box_for s (soft_delete k t c) = reply_box_for s c.
Proof. unfold reply_box_for. by rewrite soft_delete_id. Qed.

(** C6 at a state the page reaches: the viewer opens the reply box under
    the own comment c1 and then deletes c1. After the reload c1 stands
    where it stood, with its id and creation time, shows the deletion
    notice and no like, reply, edit or delete control; but the reply box
    is still under it with its submit button enabled, and submitting
    inserts a reply to the deleted comment. *)
Theorem reply_box_survives_deletion :
  replyToId state_delete_sent = Some (js "c1")
  ∧ (handleDeleteComment (js "c1") true Fulfilled state_box_open).2
    = [UpdateCommentDeleted (js "c1") (js "u1");
       ToastSuccess (js "댓글이 삭제되었습니다."); FetchComments 0 false]
  ∧ (∃ g, comments state_reloaded = [g]
          ∧ id (group_row g) = js "c1"
          ∧ created_at (group_row g) = js "10"
          ∧ isDeleted (group_row g) = true)
  ∧ (∃ entry,
       render_thread state_reloaded = [(entry, [])]
       ∧ body (entry_block entry) = BodyDeletedNotice (js "삭제된 댓글입니다.")
       ∧ actions (entry_block entry)
         = Some {| like_button := None; like_count_only := None;
                   reply_button := false; edit_button := false;
                   delete_button := false |}
       ∧ entry_reply_box entry
         = Some {| box_value := js "@알 수 없음 "; box_target := js "c1";
                   box_submit_disabled := false |})
  ∧ inserts (handleSubmitReply (js "c1") Fulfilled state_reloaded).2
    = [InsertComment (js "post") (js "u1") (js "@알 수 없음")
         (Some (js "c1"))].
Proof.
  split_and!.
  - reflexivity.
  - reflexivity.
  - eexists. split_and!; reflexivity.
  - eexists. split_and!; reflexivity.
  - reflexivity.
Qed.

(** * Further properties of the page *)

(** ** The shape of the assembled thread *)

(** The groups are the top-level comments of the page, in the order they
    were fetched, each with the profile stored under its author (or none),
    and every comment object of the result (group, reply, back-reference)
    carries exactly the profile stored under its author. *)
Theorem groups_follow_page (getTime : jsstring → option Z)
    (pm : gmap jsstring ProfileRow) (top dr nr : list CommentRow) :
  group_row <$> withReplies getTime pm top dr nr = attachProfiles pm <$> top
  ∧ without_profile <$> (group_row <$> withReplies getTime pm top dr nr)
    = without_profile <$> top
  ∧ ∀ g c, g ∈ withReplies getTime pm top dr nr → c ∈ rows_of_group g →
      profiles c = pm !! user_id c.
Proof.
  assert (group_row <$> withReplies getTime pm top dr nr
          = attachProfiles pm <$> top) as Hrows.
  { unfold withReplies. rewrite <- list_fmap_compose.
    by apply fmap_ext_elem_of. }
  split_and!; [done| |].
  - rewrite Hrows, <- list_fmap_compose. by apply fmap_ext_elem_of.
  - intros g c. apply rows_of_group_profiles.
Qed.

(** Every item of a reply list answers its own group: it is a direct
    reply to the comment of the group and has a null back-reference, or it
    answers the comment it points back to, and a direct reply with the id
    of that comment stands in the same list. The back-reference is never
    left undefined. *)
Theorem replies_answer_their_group (getTime : jsstring → option Z)
    (pm : gmap jsstring ProfileRow) (top dr nr : list CommentRow) :
  Forall2
    (λ c g,
       Forall
         (λ it,
            (parent it = ParentNull
             ∧ parent_id (reply_row it) = Some (id c))
            ∨ (∃ d, parent it = ParentRow d
                    ∧ parent_id (reply_row it) = Some (id d)
                    ∧ ∃ it', it' ∈ replies g ∧ parent it' = ParentNull
                             ∧ id (reply_row it') = id d
                             ∧ parent_id (reply_row it') = Some (id c)))
         (replies g))
    top (withReplies getTime pm top dr nr).
Proof.
  unfold withReplies. apply Forall2_fmap_r, Forall_Forall2_diag, Forall_forall.
  intros c _. simpl. apply Forall_forall. intros it Hit.
  rewrite array_sort_elem_of in Hit.
  apply merged_of_elem_of in Hit
    as [(r & Hr & Hp & ->)|(n & d & d' & Hn & Hd & Hpn & Hd' & Hid & Hpd & ->)].
  - by left.
  - right. exists (attachProfiles pm d). split_and!; try done.
    exists (direct_item pm d'). split_and!; try done.
    rewrite array_sort_elem_of. unfold merged_of.
    apply elem_of_app. left.
    apply (list_elem_of_fmap_2
             (λ r, {| reply_row := r; parent := ParentNull |}) _
             (attachProfiles pm d')).
    unfold direct_of. apply list_elem_of_fmap_2.
    by apply list_elem_of_filter.
Qed.

Section Distinct.
Context {A B : Type} `{EqDecision B} (key : A → B).

(** A list in which selecting by the key of any member yields that member
    alone has no repeated key. *)
Lemma NoDup_by_selection (l : list A) :
  (∀ x, x ∈ l → filter (λ y, key y = key x) l = [x]) → NoDup (key <$> l).
Proof.
  induction l as [|a l IH]; intros Hsel; [constructor|].
  rewrite fmap_cons. apply NoDup_cons.
  pose proof (Hsel a ltac:(left)) as Ha.
  rewrite filter_cons_True in Ha by done.
  assert (filter (λ y, key y = key a) l = []) as Hnone by congruence.
  split.
  - intros (y & Hy & Hin)%list_elem_of_fmap.
    by apply (filter_nil_not_elem_of _ _ y Hnone).
  - apply IH. intros x Hx. specialize (Hsel x ltac:(by right)).
    rewrite filter_cons_False in Hsel; [done|].
    intros Heq. apply (filter_nil_not_elem_of _ _ x Hnone); [done|done].
Qed.
End Distinct.

Section Occurrences.
Local Set Default Proof Using "Type".
Variable getTime : jsstring → option Z.
Variable pm : gmap jsstring ProfileRow.
Implicit Types (top dr nr : list CommentRow) (c r n d : CommentRow).

Lemma occurrences_of_direct top dr nr r c :
  distinct_ids top dr nr → r ∈ dr → c ∈ top → parent_id r = Some (id c) →
  occurrences (id r) (withReplies getTime pm top dr nr) = [direct_item pm r].
Proof.
  intros Hids Hr Hc Hp.
  pose proof (occurrences_withReplies getTime pm (id r) top dr nr) as Hocc.
  rewrite (fmap_ext_elem_of _
             (λ c, if decide (parent_id r = Some (id c))
                   then [direct_item pm r] else [])) in Hocc
    by (intros; by eapply direct_reply_in_group).
  destruct (distinct_ids_inv _ _ _ Hids) as (Htop & _).
  rewrite (join_select_member id top c) in Hocc; try done.
  - by apply Permutation_singleton_r in Hocc.
  - intros x _. rewrite Hp. split; congruence.
Qed.

Lemma occurrences_of_nested top dr nr n d c :
  distinct_ids top dr nr → n ∈ nr → d ∈ dr → c ∈ top →
  parent_id n = Some (id d) → parent_id d = Some (id c) →
  occurrences (id n) (withReplies getTime pm top dr nr)
  = [nested_item pm n d].
Proof.
  intros Hids Hn Hd Hc Hpn Hpd.
  pose proof (occurrences_withReplies getTime pm (id n) top dr nr) as Hocc.
  rewrite (fmap_ext_elem_of _
             (λ c, if decide (parent_id d = Some (id c))
                   then [nested_item pm n d] else [])) in Hocc
    by (intros; by eapply nested_reply_in_group).
  destruct (distinct_ids_inv _ _ _ Hids) as (Htop & _).
  rewrite (join_select_member id top c) in Hocc; try done.
  - by apply Permutation_singleton_r in Hocc.
  - intros x _. rewrite Hpd. split; congruence.
Qed.
End Occurrences.

(** When the identifiers of the three collections are pairwise distinct,
    no identifier occurs twice among the replies of the whole result, and
    every reply of the result is one of the fetched replies. *)
Theorem reply_ids_distinct (getTime : jsstring → option Z)
    (pm : gmap jsstring ProfileRow) (top dr nr : list CommentRow) :
  distinct_ids top dr nr →
  NoDup ((λ it, id (reply_row it))
           <$> all_replies (withReplies getTime pm top dr nr))
  ∧ ∀ it, it ∈ all_replies (withReplies getTime pm top dr nr) →
      reply_row it ∈ (attachProfiles pm <$> (dr ++ nr)).
Proof.
  intros Hids. split.
  - apply NoDup_by_selection. intros it (c & Hc & Hit)%all_replies_elem_of.
    apply merged_of_elem_of in Hit
      as [(r & Hr & Hp & ->)|(n & d & d' & Hn & Hd & Hpn & Hd' & Hid & Hpd & ->)].
    + by apply (occurrences_of_direct getTime pm top dr nr r c).
    + destruct (distinct_ids_inv _ _ _ Hids) as (_ & Hdr & _).
      assert (d' = d) as ->.
      { assert (d' ∈ filter (λ x, id x = id d) dr) as Hin
          by (by apply list_elem_of_filter).
        rewrite (filter_key_member id dr d Hdr Hd) in Hin.
        by apply list_elem_of_singleton in Hin. }
      by apply (occurrences_of_nested getTime pm top dr nr n d c).
  - intros it (c & Hc & Hit)%all_replies_elem_of.
    apply merged_of_elem_of in Hit
      as [(r & Hr & _ & ->)|(n & d & d' & Hn & _ & _ & _ & _ & _ & ->)];
      simpl; apply list_elem_of_fmap_2, elem_of_app; [by left|by right].
Qed.

Lemma reply_ids_distinct_witness :
  NoDup ((λ it, id (reply_row it))
           <$> all_replies
                 (withReplies digits_ms page_profiles page_top page_direct
                    page_nested)).
Proof.
  refine (proj1 (reply_ids_distinct digits_ms page_profiles page_top
                   page_direct page_nested _)).
  by_evaluation.
Defined.

(** ** What [trim] leaves *)

Lemma trimStart_suffix (v : jsstring) : trimStart v `suffix_of` v.
Proof.
  induction v as [|u v IH]; simpl; [done|].
  destruct (is_trimmable u); [by apply suffix_cons_r|done].
Qed.

Lemma trimStart_head (v : jsstring) (u : N) :
  head (trimStart v) = Some u → is_trimmable u = false.
Proof.
  induction v as [|w v IH]; simpl; [done|].
  destruct (is_trimmable w) eqn:Hw; [done|]. simpl. by intros [= <-].
Qed.

Lemma trimStart_last (v : jsstring) (u : N) :
  last (trimStart v) = Some u → last v = Some u.
Proof.
  destruct (trimStart_suffix v) as [k Hk]. intros Hlast.
  rewrite Hk. apply last_Some in Hlast as [l' Hl'].
  rewrite Hl', app_assoc. apply last_snoc.
Qed.

Lemma trimStart_blank (v : jsstring) :
  Forall (λ u, is_trimmable u = true) v → trimStart v = [].
Proof.
  induction 1 as [|u v Hu _ IH]; simpl; [done|]. by rewrite Hu.
Qed.

Lemma trimStart_keeps (v : jsstring) (u : N) :
  u ∈ v → is_trimmable u = false → trimStart v ≠ [].
Proof.
  induction v as [|w v IH]; simpl; [by intros ?%elem_of_nil|].
  intros [->|Hu]%elem_of_cons Hnot.
  - by rewrite Hnot.
  - destruct (is_trimmable w); [by apply IH|done].
Qed.

Lemma trim_trimmed (v : jsstring) : trimmed (trim v).
Proof.
  unfold trimmed, trim. split; intros u.
  - rewrite head_reverse. intros Hu%trimStart_last.
    rewrite last_reverse in Hu. by apply trimStart_head in Hu.
  - rewrite last_reverse. apply trimStart_head.
Qed.

Lemma trim_length (v : jsstring) : (length (trim v) ≤ length v)%nat.
Proof.
  unfold trim. rewrite length_reverse.
  etrans; [apply suffix_length, trimStart_suffix|].
  rewrite length_reverse. apply suffix_length, trimStart_suffix.
Qed.

Lemma trim_blank (v : jsstring) :
  Forall (λ u, is_trimmable u = true) v → trim v = [].
Proof. intros Hv. unfold trim. by rewrite (trimStart_blank v Hv). Qed.

Lemma trim_keeps (v : jsstring) (u : N) :
  u ∈ v → is_trimmable u = false → trim v ≠ [].
Proof.
  intros Hu Hnot. unfold trim.
  assert (trimStart v ≠ []) as Hne by by eapply trimStart_keeps.
  destruct (trimStart v) as [|w t] eqn:Ht; [done|].
  pose proof (trimStart_head v w) as Hw. rewrite Ht in Hw.
  specialize (Hw eq_refl).
  intros Hnil. apply (f_equal reverse) in Hnil.
  rewrite reverse_involutive, reverse_nil in Hnil.
  revert Hnil. apply (trimStart_keeps _ w); [|done].
  rewrite elem_of_reverse. by left.
Qed.

(** ** What the submit handlers send *)

Lemma handleSubmitComment_inserts (s : PageState) (answer : Awaited)
    (e : Effect) :
  e ∈ (handleSubmitComment answer s).2 → is_insert e = true →
  ∃ u i, user s = Some u ∧ page_id s = Some i
         ∧ e = InsertComment i (auth_id u) (trim (commentInput s)) None
         ∧ trim (commentInput s) ≠ []
         ∧ (length (trim (commentInput s)) ≤ COMMENT_MAX_LENGTH)%nat.
Proof.
  unfold handleSubmitComment.
  destruct (user s) as [u|]; [|by intros ->%list_elem_of_singleton].
  destruct (page_id s) as [i|]; [|by intros ->%list_elem_of_singleton].
  destruct (truthy i); cbn [negb]; [|by intros ->%list_elem_of_singleton].
  destruct (truthy (trim (commentInput s))) eqn:Hc; cbn [negb];
    [|by intros ->%list_elem_of_singleton].
  destruct (Nat.ltb_spec COMMENT_MAX_LENGTH (length (trim (commentInput s))))
    as [Hlen|Hlen]; [by intros ->%list_elem_of_singleton|].
  intros He Hins. exists u, i. split_and!; try done.
  - destruct answer; simpl in He;
      repeat (apply elem_of_cons in He as [->|He]; [done|]);
      by apply elem_of_nil in He.
  - intros Hnil. by rewrite Hnil in Hc.
Qed.

Lemma handleSubmitReply_inserts (s : PageState) (parentId : jsstring)
    (answer : Awaited) (e : Effect) :
  e ∈ (handleSubmitReply parentId answer s).2 → is_insert e = true →
  ∃ u i, user s = Some u ∧ page_id s = Some i
         ∧ e = InsertComment i (auth_id u) (trim (replyInput s)) (Some parentId)
         ∧ trim (replyInput s) ≠ []
         ∧ (length (trim (replyInput s)) ≤ COMMENT_MAX_LENGTH)%nat.
Proof.
  unfold handleSubmitReply.
  destruct (user s) as [u|]; [|by intros ?%elem_of_nil].
  destruct (page_id s) as [i|]; [|by intros ?%elem_of_nil].
  destruct (truthy i); cbn [negb]; [|by intros ?%elem_of_nil].
  destruct (truthy (trim (replyInput s))) eqn:Hc; cbn [negb orb];
    [|by intros ->%list_elem_of_singleton].
  destruct (Nat.ltb_spec COMMENT_MAX_LENGTH (length (trim (replyInput s))))
    as [Hlen|Hlen]; [by intros ->%list_elem_of_singleton|].
  intros He Hins. exists u, i. split_and!; try done.
  - destruct answer; simpl in He;
      repeat (apply elem_of_cons in He as [->|He]; [done|]);
      by apply elem_of_nil in He.
  - intros Hnil. by rewrite Hnil in Hc.
Qed.

Lemma handleSubmitComment_inserts_shape (s : PageState) (answer : Awaited) :
  inserts (handleSubmitComment answer s).2 = []
  ∨ inserts (handleSubmitComment answer s).2
    = [InsertComment (default [] (page_id s))
         (default [] (auth_id <$> user s)) (trim (commentInput s)) None].
Proof.
  unfold handleSubmitComment.
  destruct (user s), (page_id s) as [i|]; try by left.
  destruct (truthy i); cbn [negb]; [|by left].
  destruct (truthy (trim (commentInput s))); cbn [negb]; [|by left].
  destruct (_ <? _)%nat; [by left|]. right. by destruct answer.
Qed.

Lemma handleSubmitReply_inserts_shape (s : PageState) (parentId : jsstring)
    (answer : Awaited) :
  inserts (handleSubmitReply parentId answer s).2 = []
  ∨ inserts (handleSubmitReply parentId answer s).2
    = [InsertComment (default [] (page_id s))
         (default [] (auth_id <$> user s)) (trim (replyInput s))
         (Some parentId)].
Proof.
  unfold handleSubmitReply.
  destruct (user s), (page_id s) as [i|]; try by left.
  destruct (truthy i); cbn [negb]; [|by left].
  destruct (truthy (trim (replyInput s))); cbn [negb orb]; [|by left].
  destruct (_ <? _)%nat; [by left|]. right. by destruct answer.
Qed.

(** Whatever the state of the page and the answer of the backend, an
    insert sent by [handleSubmitComment] or [handleSubmitReply] is sent
    for the signed-in user and the post of the page, and its text is the
    trimmed input: not empty, at most 1000 code units long, without
    white space at either end. A handler sends at most one insert. *)
Theorem inserts_are_checked (s : PageState) (parentId : jsstring)
    (answer : Awaited) :
  (∀ p a b par,
     InsertComment p a b par
     ∈ (handleSubmitComment answer s).2 ++ (handleSubmitReply parentId answer s).2 →
     page_id s = Some p
     ∧ (∃ u, user s = Some u ∧ auth_id u = a)
     ∧ b ≠ [] ∧ (length b ≤ COMMENT_MAX_LENGTH)%nat ∧ trimmed b
     ∧ ((b = trim (commentInput s) ∧ par = None)
        ∨ (b = trim (replyInput s) ∧ par = Some parentId)))
  ∧ (length (inserts (handleSubmitComment answer s).2) ≤ 1)%nat
  ∧ (length (inserts (handleSubmitReply parentId answer s).2) ≤ 1)%nat.
Proof.
  split_and!.
  - intros p a b par [He|He]%elem_of_app.
    + apply handleSubmitComment_inserts in He
        as (u & i & Hu & Hi & [= -> -> -> ->] & Hne & Hlen); [|done].
      split_and!; eauto using trim_trimmed.
    + apply handleSubmitReply_inserts in He
        as (u & i & Hu & Hi & [= -> -> -> ->] & Hne & Hlen); [|done].
      split_and!; eauto using trim_trimmed.
  - destruct (handleSubmitComment_inserts_shape s answer) as [->| ->];
      simpl; lia.
  - destruct (handleSubmitReply_inserts_shape s parentId answer) as [->| ->];
      simpl; lia.
Qed.

(** A text made of white space only is never inserted. *)
Theorem blank_text_not_inserted (s : PageState) (parentId : jsstring)
    (answer : Awaited) :
  (Forall (λ u, is_trimmable u = true) (commentInput s) →
   inserts (handleSubmitComment answer s).2 = [])
  ∧ (Forall (λ u, is_trimmable u = true) (replyInput s) →
     inserts (handleSubmitReply parentId answer s).2 = []).
Proof.
  split; intros Hblank%trim_blank.
  - unfold handleSubmitComment. rewrite Hblank.
    by destruct (user s), (page_id s) as [i|]; try destruct (truthy i).
  - unfold handleSubmitReply. rewrite Hblank.
    by destruct (user s), (page_id s) as [i|]; try destruct (truthy i).
Qed.

Lemma blank_text_not_inserted_witness :
  inserts (handleSubmitReply (js "c1") Fulfilled viewer_state).2 = [].
Proof.
  refine (proj2 (blank_text_not_inserted viewer_state (js "c1") Fulfilled) _).
  by_evaluation.
Defined.

(** ** Drafts *)

Lemma setCommentSubmitting_back (s : PageState) :
  commentSubmitting s = false →
  setCommentSubmitting false (setCommentSubmitting true s) = s.
Proof. destruct s. simpl. by intros ->. Qed.

Lemma setReplySubmitting_back (s : PageState) :
  replySubmitting s = false →
  setReplySubmitting false (setReplySubmitting true s) = s.
Proof. destruct s. simpl. by intros ->. Qed.

(** When no submission is under way, a submission that is refused, or
    that the backend does not accept, leaves every cell of the page as it
    was, the typed text included; an accepted comment empties the comment
    box, an accepted reply empties and closes the reply box, and nothing
    else changes. *)
Theorem drafts_survive_failure (s : PageState) (parentId : jsstring)
    (answer : Awaited) :
  commentSubmitting s = false → replySubmitting s = false →
  (answer ≠ Fulfilled →
   (handleSubmitComment answer s).1 = s
   ∧ (handleSubmitReply parentId answer s).1 = s)
  ∧ (handleSubmitComment Fulfilled s).1
    = (if decide (inserts (handleSubmitComment Fulfilled s).2 = [])
       then s else setCommentInput [] s)
  ∧ (handleSubmitReply parentId Fulfilled s).1
    = (if decide (inserts (handleSubmitReply parentId Fulfilled s).2 = [])
       then s else cancelReply s).
Proof.
  intros Hc Hr. split_and!.
  - intros Hans. split.
    + unfold handleSubmitComment.
      destruct (user s), (page_id s) as [i|]; try done.
      destruct (truthy i); cbn [negb]; [|done].
      destruct (truthy (trim (commentInput s))); cbn [negb]; [|done].
      destruct (_ <? _)%nat; [done|].
      destruct answer; try done; by apply setCommentSubmitting_back.
    + unfold handleSubmitReply.
      destruct (user s), (page_id s) as [i|]; try done.
      destruct (truthy i); cbn [negb]; [|done].
      destruct (truthy (trim (replyInput s))); cbn [negb orb]; [|done].
      destruct (_ <? _)%nat; [done|].
      destruct answer; try done; by apply setReplySubmitting_back.
  - unfold handleSubmitComment.
    destruct (user s), (page_id s) as [i|]; try done.
    destruct (truthy i); cbn [negb]; [|done].
    destruct (truthy (trim (commentInput s))); cbn [negb]; [|done].
    destruct (_ <? _)%nat; [done|]. cbn [fst snd].
    rewrite decide_False by (by intros [=]).
    destruct s. simpl in *. by subst.
  - unfold handleSubmitReply.
    destruct (user s), (page_id s) as [i|]; try done.
    destruct (truthy i); cbn [negb]; [|done].
    destruct (truthy (trim (replyInput s))); cbn [negb orb]; [|done].
    destruct (_ <? _)%nat; [done|]. cbn [fst snd].
    rewrite decide_False by (by intros [=]).
    destruct s. simpl in *. by subst.
Qed.

Lemma drafts_survive_failure_witness :
  (handleSubmitComment Rejected viewer_state).1 = viewer_state
  ∧ commentInput (handleSubmitComment Fulfilled viewer_state).1 = [].
Proof.
  destruct (drafts_survive_failure viewer_state (js "c1") Rejected
              eq_refl eq_refl) as (Hfail & Hok & _).
  split.
  - apply Hfail. discriminate.
  - rewrite Hok. reflexivity.
Defined.

(** Text that went through the [onChange] of a box is at most 1000 code
    units long, so a signed-in user's comment typed into the box is
    refused only when it is blank: the length test of the handler cannot
    fail. *)
Theorem typed_text_fits (value : jsstring) (s : PageState) (u : AuthUser)
    (i : jsstring) (answer : Awaited) :
  user s = Some u → page_id s = Some i → truthy i = true →
  (length (commentInput (onChangeCommentInput value s)) ≤ COMMENT_MAX_LENGTH)%nat
  ∧ (length (replyInput (onChangeReplyInput value s)) ≤ COMMENT_MAX_LENGTH)%nat
  ∧ (length (editContent (onChangeEditContent value s)) ≤ COMMENT_MAX_LENGTH)%nat
  ∧ (trim (slice0 COMMENT_MAX_LENGTH value) ≠ [] →
     inserts (handleSubmitComment answer (onChangeCommentInput value s)).2
     = [InsertComment i (auth_id u) (trim (slice0 COMMENT_MAX_LENGTH value))
          None]).
Proof.
  intros Hu Hi Ht.
  assert (length (slice0 COMMENT_MAX_LENGTH value) ≤ COMMENT_MAX_LENGTH)%nat
    as Hlen by (unfold slice0; rewrite length_take; lia).
  split_and!; try done.
  intros Hne.
  apply (handleSubmitComment_accepted (onChangeCommentInput value s) u i answer);
    try done.
  etrans; [apply trim_length|done].
Qed.

Lemma typed_text_fits_witness :
  inserts
    (handleSubmitComment Fulfilled
       (onChangeCommentInput (js " fine ") viewer_state)).2
  = [InsertComment (js "post") (js "u1") (js "fine") None].
Proof.
  refine (proj2 (proj2 (proj2
            (typed_text_fits (js " fine ") viewer_state viewer (js "post")
               Fulfilled eq_refl eq_refl eq_refl))) _).
  discriminate.
Defined.

(** ** A like and its withdrawal *)

Lemma unlike_like_row (a : CommentRow) :
  0 ≤ likes_count a → unlike_row (like_row a) = a.
Proof.
  intros Ha. destruct a as [? ? ? ? ? ? n ? ?]. unfold unlike_row, like_row.
  simpl in *. f_equal. lia.
Qed.

Lemma update_likes_like_unlike (k : jsstring) (prev : list CommentWithReplies) :
  counts_nonnegative prev →
  update_likes unlike_row k (update_likes like_row k prev) = prev.
Proof.
  intros Hpos. unfold update_likes. rewrite <- list_fmap_compose.
  rewrite <- (list_fmap_id prev) at 2.
  apply fmap_ext_elem_of. intros g Hg. destruct (Hpos g Hg) as [Hg0 Hrs].
  simpl. destruct (decide (id (group_row g) = k)) as [Hk|Hk]; simpl.
  - rewrite decide_True by done. simpl. rewrite unlike_like_row by done.
    by destruct g.
  - rewrite decide_False by done. simpl. destruct g as [c rs]. simpl in *.
    f_equal. rewrite <- list_fmap_compose.
    rewrite <- (list_fmap_id rs) at 2.
    apply fmap_ext_elem_of. intros r Hr. simpl.
    destruct (decide (id (reply_row r) = k)) as [Hkr|Hkr]; simpl.
    + rewrite decide_True by done. simpl.
      rewrite unlike_like_row by by apply Hrs. by destruct r.
    + by rewrite decide_False.
Qed.

(** What a like does to the counts: the comment [k] gains one like; a
    reply is reached in a group whose own id is not [k]. *)
Lemma update_likes_like (k : jsstring) (prev : list CommentWithReplies) :
  Forall2 (group_liked k) prev (update_likes like_row k prev).
Proof.
  unfold update_likes.
  apply Forall2_fmap_r, Forall_Forall2_diag, Forall_forall.
  intros g _. unfold group_liked. simpl.
  destruct (decide (id (group_row g) = k)) as [Hk|Hk]; simpl;
    (split; [done|]); [done|].
  intros _. apply Forall2_fmap_r, Forall_Forall2_diag, Forall_forall.
  intros r _. simpl. by destruct (decide (id (reply_row r) = k)).
Qed.

(** For a signed-in viewer who has not liked the comment [k]: a toggle
    sends the like, puts [k] into [likedCommentIds] and raises the count
    of the comment [k] by one (of the group with that id, or else of the
    replies with that id); a second toggle sends the withdrawal, and the
    page is exactly as before the first (like counts being counts). The
    backend calls are taken not to be rejected. *)
Theorem like_then_unlike_restores (s : PageState) (u : AuthUser)
    (k : jsstring) (first second : Awaited) :
  user s = Some u → k ∉ likedCommentIds s →
  first ≠ Rejected → second ≠ Rejected →
  counts_nonnegative (comments s) →
  (handleToggleLike k first s).2 = [InsertCommentLike k (auth_id u)]
  ∧ k ∈ likedCommentIds (handleToggleLike k first s).1
  ∧ Forall2 (group_liked k) (comments s)
      (comments (handleToggleLike k first s).1)
  ∧ Forall2 (group_frame k) (comments s)
      (comments (handleToggleLike k first s).1)
  ∧ (handleToggleLike k second (handleToggleLike k first s).1).2
    = [DeleteCommentLike k (auth_id u)]
  ∧ (handleToggleLike k second (handleToggleLike k first s).1).1 = s.
Proof.
  intros Hu Hk H1 H2 Hpos.
  pose proof (handleToggleLike_frame s k first) as Hframe.
  assert (handleToggleLike k first s
          = (setComments (update_likes like_row k)
               (setLikedCommentIds (λ prev, prev ∪ {[k]}) s),
             [InsertCommentLike k (auth_id u)])) as Hfirst.
  { unfold handleToggleLike. rewrite Hu, bool_decide_eq_false_2 by done.
    by destruct first. }
  rewrite Hfirst in Hframe |- *.
  cbn [fst snd] in Hframe |- *.
  assert (k ∈ likedCommentIds s ∪ {[k]}) as Hin
    by (apply elem_of_union; right; by apply elem_of_singleton).
  assert (∀ t, handleToggleLike k second
                 (setComments (update_likes like_row k)
                    (setLikedCommentIds (λ prev, prev ∪ {[k]}) s))
               = t → t.2 = [DeleteCommentLike k (auth_id u)]
                     ∧ t.1 = s) as Hsecond.
  { intros t <-. unfold handleToggleLike. cbn [user setComments
      setLikedCommentIds likedCommentIds].
    rewrite Hu, bool_decide_eq_true_2 by done.
    assert (setComments (update_likes unlike_row k)
              (setLikedCommentIds (λ prev, prev ∖ {[k]})
                 (setComments (update_likes like_row k)
                    (setLikedCommentIds (λ prev, prev ∪ {[k]}) s))) = s)
      as Hback.
    { destruct s as [? ? cs ? ? ? ? ? ? ? ? ? liked]. unfold setComments,
        setLikedCommentIds. simpl in *. f_equal.
      - by apply update_likes_like_unlike.
      - apply set_eq. intros x.
        rewrite elem_of_difference, elem_of_union, elem_of_singleton.
        split; [by intros [[?|?] ?]|].
        intros Hx. split; [by left|]. by intros ->. }
    destruct second; try done; cbn [fst snd]; by rewrite Hback. }
  split_and!; try done.
  - apply update_likes_like.
  - by apply (Hsecond _ eq_refl).
  - by apply (Hsecond _ eq_refl).
Qed.

Lemma like_then_unlike_restores_witness :
  (λ it, (id (reply_row it), likes_count (reply_row it)))
    <$> all_replies
          (comments (handleToggleLike (js "B") Fulfilled thread_state).1)
  = [(js "B", 1); (js "C", 0); (js "D", 0)]
  ∧ Forall2 (group_liked (js "B")) (comments thread_state)
      (comments (handleToggleLike (js "B") Fulfilled thread_state).1)
  ∧ (handleToggleLike (js "B") Fulfilled
       (handleToggleLike (js "B") Fulfilled thread_state).1).1
    = thread_state.
Proof.
  destruct (like_then_unlike_restores thread_state viewer (js "B")
              Fulfilled Fulfilled)
    as (_ & _ & Hliked & _ & _ & Hback).
  - reflexivity.
  - by_evaluation.
  - discriminate.
  - discriminate.
  - apply counts_nonnegative_Forall. by_evaluation.
  - split; [by_evaluation|]. by split.
Defined.

(** A toggle that cannot go through changes nothing: without a signed-in
    user nothing is sent, and when the backend call is rejected the liked
    set and the counts stay and one error toast is shown. *)
Theorem failed_toggle_changes_nothing (s : PageState) (k : jsstring)
    (answer : Awaited) :
  (user s = None → handleToggleLike k answer s = (s, []))
  ∧ (handleToggleLike k Rejected s).1 = s
  ∧ (is_Some (user s) →
     error_toasts (handleToggleLike k Rejected s).2
     = [ToastError (js "처리하지 못했습니다.")]).
Proof.
  unfold handleToggleLike. split_and!.
  - by intros ->.
  - destruct (user s); [|done]. by case_bool_decide.
  - intros [u ->]. by case_bool_decide.
Qed.

(** ** Who sees which control *)

(** The controls of a comment block are shown to those entitled to them:
    edit and delete only on comments of the signed-in user, like and reply
    buttons only to a signed-in user, the bare count only to a visitor;
    and none of them on a deleted comment. *)
Theorem controls_need_entitlement (s : PageState) (c : CommentRow)
    (isReply : bool) (par : ParentRef) (a : ActionsView) :
  actions (CommentBlock s c isReply par) = Some a →
  (edit_button a = true ∨ delete_button a = true →
   isDeleted c = false
   ∧ ∃ u, user s = Some u ∧ auth_id u = user_id c)
  ∧ (reply_button a = true ∨ is_Some (like_button a) →
     isDeleted c = false ∧ is_Some (user s))
  ∧ (is_Some (like_count_only a) → isDeleted c = false ∧ user s = None).
Proof.
  unfold CommentBlock. cbn [actions].
  destruct (isEditing s c); [done|]. intros [= <-].
  cbn [edit_button delete_button reply_button like_button like_count_only].
  unfold isOwn. destruct (isDeleted c); cbn [negb andb].
  { split_and!; [by intros [?|?] | by intros [?|[? ?]] | by intros [? ?]]. }
  case_bool_decide as Hin.
  - destruct Hin as [u Hu]. rewrite Hu. cbn [negb]. split_and!.
    + intros Hown. split; [done|]. exists u. split; [done|].
      destruct Hown as [Hown|Hown]; by apply bool_decide_eq_true in Hown.
    + intros _. split; [done|by eexists].
    + by intros [? ?].
  - assert (user s = None) as Hu.
    { destruct (user s); [|done]. exfalso. apply Hin. by eexists. }
    rewrite Hu. cbn [negb]. split_and!.
    + by intros [?|?].
    + by intros [?|[? ?]].
    + done.
Qed.

Lemma controls_need_entitlement_witness :
  ∃ a, actions (CommentBlock viewer_state own_comment false ParentUndefined)
       = Some a
       ∧ edit_button a = true
       ∧ ∃ u, user viewer_state = Some u ∧ auth_id u = user_id own_comment.
Proof.
  eexists. split; [reflexivity|]. split; [reflexivity|].
  refine (proj2 (proj1 (controls_need_entitlement viewer_state own_comment
                          false ParentUndefined _ eq_refl) _)).
  left. reflexivity.
Defined.

(** ** The edit form and the reply box *)

(** At most one comment is in edit mode: after [handleStartEdit] on a
    comment that is not deleted, its block shows the edit form filled with
    its text and no row of actions, no comment with another id shows an
    edit form, and a deleted comment never shows one; after the cancel
    button no block shows an edit form. *)
Theorem edit_form_follows_edit_id (s : PageState) (c c' : CommentRow)
    (isReply : bool) (par : ParentRef) :
  (isDeleted c = false →
   body (CommentBlock (handleStartEdit c s) c isReply par)
   = BodyEditForm (content c)
   ∧ actions (CommentBlock (handleStartEdit c s) c isReply par) = None)
  ∧ (id c' ≠ id c →
     ∀ v, body (CommentBlock (handleStartEdit c s) c' isReply par)
          ≠ BodyEditForm v)
  ∧ (isDeleted c' = true →
     ∀ v, body (CommentBlock s c' isReply par) ≠ BodyEditForm v)
  ∧ (∀ v, body (CommentBlock (cancelEdit s) c' isReply par) ≠ BodyEditForm v).
Proof.
  unfold CommentBlock, isEditing. cbn [body actions]. split_and!.
  - intros Hd. rewrite Hd. cbn [negb andb].
    by rewrite !(bool_decide_eq_true_2 (editCommentId _ = Some (id c))).
  - intros Hne v. destruct (isDeleted c'); cbn [negb andb]; [done|].
    rewrite bool_decide_eq_false_2; [done|].
    cbn. by intros [=].
  - intros Hd v. by rewrite Hd.
  - intros v. destruct (isDeleted c'); cbn [negb andb]; [done|].
    by rewrite bool_decide_eq_false_2.
Qed.

Lemma edit_form_follows_edit_id_witness :
  body (CommentBlock (handleStartEdit own_comment viewer_state) own_comment
          false ParentUndefined)
  = BodyEditForm (js "text").
Proof.
  refine (proj1 (proj1 (edit_form_follows_edit_id viewer_state own_comment
                          own_comment false ParentUndefined) _)).
  reflexivity.
Defined.

Lemma trim_mention_not_blank (v : jsstring) : truthy (trim (js "@" ++ v)) = true.
Proof.
  destruct (trim (js "@" ++ v)) eqn:Ht; [|done].
  exfalso. revert Ht. apply (trim_keeps _ 64%N); [by left|done].
Qed.

(** The reply box stands under the comments whose id is [replyToId] and
    nowhere else: [openReplyInput] on a comment opens it there, filled
    with a mention of the author (or of the placeholder name), with the
    submit button enabled unless a reply is being sent; no comment with
    another id has a box; the cancel button, and an accepted reply, close
    it. *)
Theorem reply_box_follows_reply_id (s : PageState) (c c' : CommentRow)
    (parentId : jsstring) :
  reply_box_for (openReplyInput c s) c
  = Some {| box_value := js "@" ++ nickname_or (js "알 수 없음") c ++ js " ";
            box_target := id c;
            box_submit_disabled := replySubmitting s |}
  ∧ (id c' ≠ id c → reply_box_for (openReplyInput c s) c' = None)
  ∧ reply_box_for (cancelReply s) c' = None
  ∧ (inserts (handleSubmitReply parentId Fulfilled s).2 ≠ [] →
     reply_box_for (handleSubmitReply parentId Fulfilled s).1 c' = None).
Proof.
  split_and!.
  - unfold reply_box_for, openReplyInput.
    cbn [replyToId replyInput replySubmitting setReplyInput setReplyToId].
    rewrite decide_True by done. do 2 f_equal.
    rewrite trim_mention_not_blank. by destruct (replySubmitting s).
  - intros Hne. unfold reply_box_for, openReplyInput.
    cbn [replyToId setReplyInput setReplyToId].
    rewrite decide_False; [done|]. by intros [=].
  - done.
  - intros Hins. unfold handleSubmitReply in *.
    destruct (user s), (page_id s) as [i|]; try done.
    destruct (truthy i); cbn [negb] in *; [|done].
    destruct (truthy (trim (replyInput s))); cbn [negb orb] in *; [|done].
    destruct (_ <? _)%nat; done.
Qed.

(** ** Loading the thread *)

Lemma page_id_missing_false (s : PageState) :
  page_id_missing s = false ↔ ∃ i, page_id s = Some i ∧ truthy i = true.
Proof.
  unfold page_id_missing.
  destruct (page_id s) as [i|]; [destruct (truthy i) eqn:Ht|]; simpl.
  - split; [|done]. intros _. by exists i.
  - split; [done|]. intros (j & [= <-] & Hj). congruence.
  - split; [done|]. by intros (j & ? & _).
Qed.

Lemma fetchComments_appended (getTime : jsstring → option Z) (answers : Fetched)
    (s : PageState) :
  page_id_missing s = false →
  comments (fetchComments getTime true answers s).1
  = comments s ++ fetched_groups getTime answers.
Proof.
  intros Hid. unfold fetchComments, fetched_groups. rewrite Hid.
  destruct (fetched_topLevel answers) as [[|c top]|];
    cbn [fst snd]; by rewrite ?app_nil_r.
Qed.

Lemma fetchComments_replaced (getTime : jsstring → option Z) (answers : Fetched)
    (s : PageState) :
  page_id_missing s = false → is_Some (fetched_topLevel answers) →
  comments (fetchComments getTime false answers s).1
  = fetched_groups getTime answers.
Proof.
  intros Hid [top Htop]. unfold fetchComments, fetched_groups.
  rewrite Hid, Htop. by destruct top.
Qed.

(** A finished [fetchComments] on a post page: the loading flag is off;
    with [append] the groups already shown stay in front, unchanged, and
    the groups of the answer follow; without [append] the groups of the
    answer replace the thread, unless the first query failed, in which
    case the thread stays and one error toast is shown; "more" is offered
    exactly when the answer holds a full page of 20; and the boxes, the
    signed-in user and the edit state are not touched. *)
Theorem fetch_appends_or_replaces (getTime : jsstring → option Z) (append : bool)
    (answers : Fetched) (s : PageState) :
  page_id_missing s = false →
  commentsLoading (fetchComments getTime append answers s).1 = false
  ∧ (append = true →
     comments (fetchComments getTime append answers s).1
     = comments s ++ fetched_groups getTime answers)
  ∧ (append = false → is_Some (fetched_topLevel answers) →
     comments (fetchComments getTime append answers s).1
     = fetched_groups getTime answers)
  ∧ (fetched_topLevel answers = None →
     comments (fetchComments getTime append answers s).1 = comments s
     ∧ error_toasts (fetchComments getTime append answers s).2
       = [ToastError (js "댓글을 불러오지 못했습니다.")])
  ∧ (∀ l, fetched_topLevel answers = Some l →
       hasMoreComments (fetchComments getTime append answers s).1
       = bool_decide (length l = COMMENTS_PAGE_SIZE))
  ∧ (let s' := (fetchComments getTime append answers s).1 in
     user s' = user s ∧ page_id s' = page_id s
     ∧ commentInput s' = commentInput s
     ∧ commentSubmitting s' = commentSubmitting s
     ∧ replyToId s' = replyToId s ∧ replyInput s' = replyInput s
     ∧ editCommentId s' = editCommentId s ∧ editContent s' = editContent s).
Proof.
  intros Hid. unfold fetchComments, fetched_groups. rewrite Hid.
  destruct (fetched_topLevel answers) as [[|c top]|], append;
    cbn [fst snd]; split_and!; intros; simplify_eq;
    rewrite ?app_nil_r; try done.
  all: by match goal with H : is_Some None |- _ => destruct H end.
Qed.

Lemma fetch_appends_or_replaces_witness :
  comments (fetchComments digits_ms true reload_after_delete viewer_state).1
  = comments viewer_state ++ fetched_groups digits_ms reload_after_delete.
Proof.
  refine (proj1 (proj2
            (fetch_appends_or_replaces digits_ms true reload_after_delete
               viewer_state eq_refl)) eq_refl).
Defined.




(** ** Pages of the thread *)

(** The windows that [fetchComments] asks for tile the rows of the ordered
    thread: the row at position [i] lies in the window of page [i / 20]
    and of no other page. *)
Theorem comment_ranges_tile (n i : nat) :
  ((comment_range n).1 ≤ i ∧ i ≤ (comment_range n).2)%nat
  ↔ (i / COMMENTS_PAGE_SIZE)%nat = n.
Proof.
  unfold comment_range, COMMENTS_PAGE_SIZE. cbn [fst snd].
  pose proof (Nat.div_mod_eq i 20) as Hdiv.
  pose proof (Nat.mod_upper_bound i 20 ltac:(lia)) as Hmod.
  lia.
Qed.

Section Session.
Local Set Default Proof Using "Type".
Variable getTime : jsstring → option Z.
Variable backend : nat → Fetched.

Lemma run_effects_cons (e : Effect) (effects : list Effect) (c : PageCells) :
  run_effects getTime backend (e :: effects) c
  = run_effects getTime backend effects (run_effect getTime backend c e).
Proof. done. Qed.

Lemma load_more_unfold (c : PageCells) :
  load_more getTime backend c
  = setPage
      (λ s, (fetchComments getTime true (backend (commentPage c + 1)) s).1)
      (setCommentPage (commentPage c + 1) c).
Proof. done. Qed.

(** What a fetch leaves alone. *)
Lemma fetchComments_keeps (append : bool) (answers : Fetched) (s : PageState) :
  page_id (fetchComments getTime append answers s).1 = page_id s
  ∧ user (fetchComments getTime append answers s).1 = user s
  ∧ commentInput (fetchComments getTime append answers s).1 = commentInput s
  ∧ commentSubmitting (fetchComments getTime append answers s).1
    = commentSubmitting s.
Proof.
  unfold fetchComments.
  destruct (page_id_missing s); [done|].
  by destruct (fetched_topLevel answers) as [[|? ?]|], append.
Qed.

Lemma page_id_missing_fetchComments (append : bool) (answers : Fetched)
    (s : PageState) :
  page_id_missing (fetchComments getTime append answers s).1
  = page_id_missing s.
Proof.
  unfold page_id_missing.
  by rewrite (proj1 (fetchComments_keeps append answers s)).
Qed.

(** The cells a submission reads, and the page counter, after [k] clicks
    on "more". *)
Lemma load_more_iter (k : nat) (c : PageCells) :
  let shown := Nat.iter k (load_more getTime backend) c in
  commentPage shown = (commentPage c + k)%nat
  ∧ page_id (page shown) = page_id (page c)
  ∧ user (page shown) = user (page c)
  ∧ commentInput (page shown) = commentInput (page c)
  ∧ commentSubmitting (page shown) = commentSubmitting (page c).
Proof.
  intros shown. subst shown. induction k as [|k IH].
  - simpl. split_and!; try done; lia.
  - destruct IH as (Hn & Hi & Hu & Hc & Hs).
    rewrite Nat.iter_succ, load_more_unfold.
    cbn [commentPage page setPage setCommentPage].
    destruct (fetchComments_keeps true
                (backend (commentPage (Nat.iter k (load_more getTime backend) c) + 1))
                (page (Nat.iter k (load_more getTime backend) c)))
      as (Hi' & Hu' & Hc' & Hs').
    split_and!; [lia|congruence..].
Qed.

Lemma handleSubmitComment_sent (s : PageState) (u : AuthUser) (i : jsstring) :
  user s = Some u → page_id s = Some i → truthy i = true →
  trim (commentInput s) ≠ [] →
  (length (trim (commentInput s)) ≤ COMMENT_MAX_LENGTH)%nat →
  handleSubmitComment Fulfilled s
  = (setCommentSubmitting false
       (setCommentInput [] (setCommentSubmitting true s)),
     [InsertComment i (auth_id u) (trim (commentInput s)) None;
      ToastSuccess (js "댓글이 작성되었습니다."); FetchComments 0 false]).
Proof.
  intros Hu Hi Ht Hne Hlen. unfold handleSubmitComment. rewrite Hu, Hi, Ht.
  cbn [negb]. destruct (truthy (trim (commentInput s))) eqn:Hc; cbn [negb].
  - apply Nat.ltb_ge in Hlen. by rewrite Hlen.
  - by apply truthy_false in Hc.
Qed.

Lemma paging_after_reload (c : PageCells) (u : AuthUser) (k : nat) :
  page_id_missing (page c) = false → user (page c) = Some u →
  trim (commentInput (page c)) ≠ [] →
  (length (trim (commentInput (page c))) ≤ COMMENT_MAX_LENGTH)%nat →
  commentPage c = 0%nat → is_Some (fetched_topLevel (backend 0)) →
  let shown :=
    Nat.iter k (load_more getTime backend) (first_load getTime backend c) in
  let reloaded := submit_comment getTime backend shown in
  let after := load_more getTime backend reloaded in
  comments (page reloaded) = fetched_groups getTime (backend 0)
  ∧ commentPage reloaded = k
  ∧ commentPage after = (k + 1)%nat
  ∧ comments (page after)
    = fetched_groups getTime (backend 0)
      ++ fetched_groups getTime (backend (k + 1)).
Proof.
  intros Hid Hu Hne Hlen Hzero Htop. intros shown reloaded after.
  apply page_id_missing_false in Hid as (i & Hi & Ht).
  destruct (fetchComments_keeps false (backend 0) (page c))
    as (Hi0 & Hu0 & Hc0 & _).
  destruct (load_more_iter k (first_load getTime backend c))
    as (Hn & Hi1 & Hu1 & Hc1 & _).
  fold shown in Hn, Hi1, Hu1, Hc1.
  change (page (first_load getTime backend c))
    with (fetchComments getTime false (backend 0) (page c)).1
    in Hi1, Hu1, Hc1.
  change (commentPage (first_load getTime backend c)) with (commentPage c) in Hn.
  rewrite Hi0, Hi in Hi1. rewrite Hu0, Hu in Hu1. rewrite Hc0 in Hc1.
  rewrite Hzero in Hn. simpl in Hn.
  assert (reloaded
          = setPage
              (λ s, (fetchComments getTime false (backend 0) s).1)
              (setPage
                 (λ _, setCommentSubmitting false
                         (setCommentInput []
                            (setCommentSubmitting true (page shown))))
                 shown)) as Hreloaded.
  { unfold reloaded, submit_comment.
    rewrite (handleSubmitComment_sent (page shown) u i) by congruence.
    done. }
  assert (comments (page reloaded) = fetched_groups getTime (backend 0)
          ∧ page_id_missing (page reloaded) = false
          ∧ commentPage reloaded = k) as (Hshown & Hid' & Hpage).
  { rewrite Hreloaded. cbn [page setPage commentPage]. split_and!.
    - apply fetchComments_replaced; [|done].
      apply page_id_missing_false. exists i. by rewrite <- Hi1.
    - rewrite page_id_missing_fetchComments.
      apply page_id_missing_false. exists i. by rewrite <- Hi1.
    - done. }
  split_and!; try done.
  - unfold after. rewrite load_more_unfold. cbn [commentPage setPage
      setCommentPage]. lia.
  - unfold after. rewrite load_more_unfold. cbn [page setPage setCommentPage].
    rewrite Hpage.
    rewrite (fetchComments_appended getTime (backend (k + 1))
               (page reloaded) Hid').
    by rewrite Hshown.
Qed.
End Session.

(** How paging and reloading compose. A user loads the first page, clicks
    "more" [k] times, then submits a comment that the backend accepts.
    The reload that follows shows page 0 alone but leaves the page counter
    at [k]: the next click on "more" asks for page [k + 1], and the thread
    then shows page 0 followed by page [k + 1]. *)
Theorem reload_keeps_page_counter (getTime : jsstring → option Z)
    (backend : nat → Fetched) (c : PageCells) (u : AuthUser) (k : nat) :
  page_id_missing (page c) = false → user (page c) = Some u →
  trim (commentInput (page c)) ≠ [] →
  (length (trim (commentInput (page c))) ≤ COMMENT_MAX_LENGTH)%nat →
  commentPage c = 0%nat → is_Some (fetched_topLevel (backend 0%nat)) →
  comments
    (page (submit_comment getTime backend
             (Nat.iter k (load_more getTime backend)
                (first_load getTime backend c))))
  = fetched_groups getTime (backend 0%nat)
  ∧ commentPage
      (load_more getTime backend
         (submit_comment getTime backend
            (Nat.iter k (load_more getTime backend)
               (first_load getTime backend c))))
    = (k + 1)%nat
  ∧ comments
      (page (load_more getTime backend
               (submit_comment getTime backend
                  (Nat.iter k (load_more getTime backend)
                     (first_load getTime backend c)))))
    = fetched_groups getTime (backend 0%nat)
      ++ fetched_groups getTime (backend (k + 1)%nat).
Proof.
  intros Hid Hu Hne Hlen Hzero Htop.
  destruct (paging_after_reload getTime backend c u k Hid Hu Hne Hlen Hzero
              Htop) as (H1 & _ & H3 & H4).
  by split_and!.
Qed.

Lemma reload_keeps_page_counter_witness :
  commentPage
    (load_more digits_ms paged_backend
       (submit_comment digits_ms paged_backend
          (Nat.iter 1 (load_more digits_ms paged_backend)
             (first_load digits_ms paged_backend viewer_cells))))
  = 2%nat
  ∧ comments
      (page (load_more digits_ms paged_backend
               (submit_comment digits_ms paged_backend
                  (Nat.iter 1 (load_more digits_ms paged_backend)
                     (first_load digits_ms paged_backend viewer_cells)))))
    = fetched_groups digits_ms (paged_backend 0)
      ++ fetched_groups digits_ms (paged_backend 2).
Proof.
  refine (proj2 (reload_keeps_page_counter digits_ms paged_backend
                   viewer_cells viewer 1 eq_refl eq_refl _ _ eq_refl _)).
  - discriminate.
  - apply Nat.leb_le. vm_compute. reflexivity.
  - by eexists.
Defined.

(** ** Saving an edit *)

Lemma handleSaveEdit_refused (c : PageCells) (answer : Awaited) :
  editCommentId (page c) = None
  ∨ editCommentId (page c) = Some []
  ∨ trim (editContent (page c)) = []
  ∨ (COMMENT_MAX_LENGTH < length (editContent (page c)))%nat →
  handleSaveEdit answer c = (c, []).
Proof.
  unfold handleSaveEdit. intros Hbad.
  destruct (editCommentId (page c)) as [k|]; [|done].
  destruct (truthy k) eqn:Hk; cbn [negb orb]; [|done].
  destruct (truthy (trim (editContent (page c)))) eqn:Ht; cbn [negb orb];
    [|done].
  destruct (Nat.ltb_spec COMMENT_MAX_LENGTH (length (editContent (page c))))
    as [Hlen|Hlen]; [done|].
  destruct Hbad as [?|[[= ->]|[Hnil|?]]]; [done|done| |lia].
  by rewrite Hnil in Ht.
Qed.

Lemma handleSaveEdit_sent (c : PageCells) (answer : Awaited) (k a b : jsstring) :
  UpdateCommentContent k a b ∈ (handleSaveEdit answer c).2 →
  editCommentId (page c) = Some k
  ∧ (∃ u, user (page c) = Some u ∧ auth_id u = a)
  ∧ b = trim (editContent (page c)) ∧ b ≠ []
  ∧ (length (editContent (page c)) ≤ COMMENT_MAX_LENGTH)%nat
  ∧ (handleSaveEdit answer c).1
    = match answer with
      | Fulfilled => setEditSubmitting false (setPage cancelEdit c)
      | _ => setEditSubmitting false c
      end.
Proof.
  unfold handleSaveEdit.
  destruct (editCommentId (page c)) as [k'|]; [|by intros ?%elem_of_nil].
  destruct (truthy k'); cbn [negb orb]; [|by intros ?%elem_of_nil].
  destruct (truthy (trim (editContent (page c)))) eqn:Ht; cbn [negb orb];
    [|by intros ?%elem_of_nil].
  destruct (Nat.ltb_spec COMMENT_MAX_LENGTH (length (editContent (page c))))
    as [Hlen|Hlen]; [by intros ?%elem_of_nil|].
  destruct (user (page c)) as [u|].
  - intros Hin.
    assert (k = k' ∧ a = auth_id u ∧ b = trim (editContent (page c)))
      as (-> & -> & ->).
    { destruct answer; cbn [snd] in Hin;
        apply elem_of_cons in Hin as [[= -> -> ->]|Hin]; try done;
        repeat (apply elem_of_cons in Hin as [?|Hin]; [done|]);
        by apply elem_of_nil in Hin. }
    split_and!; try done.
    + by exists u.
    + intros Hnil. by rewrite Hnil in Ht.
    + by destruct answer.
  - cbn [snd]. intros Hin.
    repeat (apply elem_of_cons in Hin as [?|Hin]; [done|]).
    by apply elem_of_nil in Hin.
Qed.

(** [handleSaveEdit] sends an update only for the comment being edited,
    on behalf of the signed-in user, with the trimmed text, when that text
    is not empty and the text as typed is at most 1000 code units long.
    Otherwise (no comment being edited, a blank text, a typed text longer
    than 1000 even if its trimmed form would fit) it does nothing at all,
    without a message. After an accepted update the edit form is closed;
    after a failed one the form and the typed text stay. *)
Theorem save_edit_checked (c : PageCells) (answer : Awaited) :
  (editCommentId (page c) = None
   ∨ editCommentId (page c) = Some []
   ∨ trim (editContent (page c)) = []
   ∨ (COMMENT_MAX_LENGTH < length (editContent (page c)))%nat →
   handleSaveEdit answer c = (c, []))
  ∧ (∀ k a b,
       UpdateCommentContent k a b ∈ (handleSaveEdit answer c).2 →
       editCommentId (page c) = Some k
       ∧ (∃ u, user (page c) = Some u ∧ auth_id u = a)
       ∧ b = trim (editContent (page c)) ∧ b ≠ []
       ∧ (length (editContent (page c)) ≤ COMMENT_MAX_LENGTH)%nat
       ∧ (handleSaveEdit answer c).1
         = match answer with
           | Fulfilled => setEditSubmitting false (setPage cancelEdit c)
           | _ => setEditSubmitting false c
           end).
Proof.
  split.
  - apply handleSaveEdit_refused.
  - intros k a b. apply handleSaveEdit_sent.
Qed.

Lemma save_edit_checked_witness :
  (handleSaveEdit Fulfilled editing_cells).2
  = [UpdateCommentContent (js "c1") (js "u1") (js "better");
     OfComments (ToastSuccess (js "댓글이 수정되었습니다."));
     OfComments (FetchComments 0 false)]
  ∧ editCommentId (page (handleSaveEdit Fulfilled editing_cells).1) = None.
Proof.
  split; [reflexivity|].
  destruct (proj2 (save_edit_checked editing_cells Fulfilled)
              (js "c1") (js "u1") (js "better"))
    as (_ & _ & _ & _ & _ & ->); [|reflexivity].
  left.
Defined.

Lemma CommentBlock_deleted_witness :
  body (CommentBlock state_reloaded
          (soft_delete (js "c1") (js "2025-01-28T09:00:00.000Z") own_comment)
          false ParentUndefined)
  = BodyDeletedNotice (js "삭제된 댓글입니다.").
Proof.
  refine (proj1 (proj2 (proj2
            (CommentBlock_deleted state_reloaded
               (soft_delete (js "c1") (js "2025-01-28T09:00:00.000Z")
                  own_comment)
               false ParentUndefined _)))).
  reflexivity.
Defined.

(** ** Deleting a comment *)

(** [handleDeleteComment] sends nothing unless the user confirmed; what it
    sends marks the one comment it was called for, and only as a row of
    the signed-in user; the reload is asked for only after the backend
    accepted the update; and the handler itself changes no cell of the
    page, so a deleted comment leaves the thread only through that
    reload. *)
Theorem deletion_needs_confirmation (s : PageState) (k : jsstring)
    (confirmed : bool) (answer : Awaited) :
  (handleDeleteComment k confirmed answer s).1 = s
  ∧ (confirmed = false → (handleDeleteComment k confirmed answer s).2 = [])
  ∧ (∀ k' a,
       UpdateCommentDeleted k' a ∈ (handleDeleteComment k confirmed answer s).2 →
       confirmed = true ∧ k' = k ∧ ∃ u, user s = Some u ∧ auth_id u = a)
  ∧ (∀ p b,
       FetchComments p b ∈ (handleDeleteComment k confirmed answer s).2 →
       answer = Fulfilled ∧ p = 0%nat ∧ b = false
       ∧ ∃ u, user s = Some u
              ∧ UpdateCommentDeleted k (auth_id u)
                ∈ (handleDeleteComment k confirmed answer s).2).
Proof.
  unfold handleDeleteComment.
  destruct confirmed, (user s) as [u|], answer; cbn [negb fst snd];
    split_and!; try done; intros ? ? Hin;
    repeat (apply elem_of_cons in Hin as [Hin|Hin]; [try discriminate Hin|]);
    try (by apply elem_of_nil in Hin).
  all: try (injection Hin as -> ->).
  all: split_and!; try done; try (by exists u).
  all: exists u; split; [done|]; apply elem_of_cons; by left.
Qed.

(** ** The assembly on the heap *)

(** *** Runs *)

Lemma returns_ret {A} (a : A) (h : Heap.heap) (Q : A → Heap.heap → Prop) :
  Q a h → Heap.returns (Heap.ret a) h Q.
Proof. intros HQ. by exists a, h. Qed.

Lemma returns_bind {A B} (m : Heap.Run A) (f : A → Heap.Run B)
    (h : Heap.heap) (Q : B → Heap.heap → Prop) :
  Heap.returns m h (λ a h', Heap.returns (f a) h' Q) →
  Heap.returns (Heap.bind m f) h Q.
Proof.
  intros (a & h' & Hm & Hpre & b & h'' & Hf & Hpre' & HQ).
  exists b, h''. unfold Heap.bind. rewrite Hm. split_and!; try done.
  by etrans.
Qed.

Lemma returns_consequence {A} (m : Heap.Run A) (h : Heap.heap)
    (Q Q' : A → Heap.heap → Prop) :
  Heap.returns m h Q →
  (∀ a h', h `prefix_of` h' → Q a h' → Q' a h') →
  Heap.returns m h Q'.
Proof.
  intros (a & h' & Hm & Hpre & HQ) Himpl. exists a, h'. eauto.
Qed.

Lemma returns_alloc (c : Heap.Cell) (h : Heap.heap)
    (Q : Heap.loc → Heap.heap → Prop) :
  Q (length h) (h ++ [c]) → Heap.returns (Heap.alloc c) h Q.
Proof.
  intros HQ. exists (length h), (h ++ [c]). split_and!; try done.
  by apply prefix_app_r.
Qed.

Lemma alloc_lookup (c : Heap.Cell) (h : Heap.heap) :
  (h ++ [c]) !! length h = Some c.
Proof. by rewrite list_lookup_middle. Qed.

Lemma returns_read_object (l : Heap.loc) (o : Heap.Object) (h : Heap.heap)
    (Q : Heap.Object → Heap.heap → Prop) :
  h !! l = Some (Heap.CObject o) → Q o h →
  Heap.returns (Heap.read_object l) h Q.
Proof.
  intros Hl HQ. exists o, h.
  unfold Heap.read_object, Heap.bind, Heap.read. by rewrite Hl.
Qed.

Lemma returns_read_array (l : Heap.loc) (ls : list Heap.loc) (h : Heap.heap)
    (Q : list Heap.loc → Heap.heap → Prop) :
  h !! l = Some (Heap.CArray ls) → Q ls h →
  Heap.returns (Heap.read_array l) h Q.
Proof.
  intros Hl HQ. exists ls, h.
  unfold Heap.read_array, Heap.bind, Heap.read. by rewrite Hl.
Qed.

Lemma returns_read_strings (l : Heap.loc) (ks : list jsstring) (h : Heap.heap)
    (Q : list jsstring → Heap.heap → Prop) :
  h !! l = Some (Heap.CStrings ks) → Q ks h →
  Heap.returns (Heap.read_strings l) h Q.
Proof.
  intros Hl HQ. exists ks, h.
  unfold Heap.read_strings, Heap.bind, Heap.read. by rewrite Hl.
Qed.

Lemma returns_read_map (l : Heap.loc) (m : gmap jsstring Heap.loc)
    (h : Heap.heap) (Q : gmap jsstring Heap.loc → Heap.heap → Prop) :
  h !! l = Some (Heap.CMap m) → Q m h →
  Heap.returns (Heap.read_map l) h Q.
Proof.
  intros Hl HQ. exists m, h.
  unfold Heap.read_map, Heap.bind, Heap.read. by rewrite Hl.
Qed.

(** *** Values survive when the cells they are read from stay *)

Lemma prefix_keeps_objects (h h' : Heap.heap) :
  h `prefix_of` h' → keeps_objects h h'.
Proof.
  intros Hpre. split; intros l x Hl; by eapply prefix_lookup_Some.
Qed.

Lemma is_profile_kept (h h' : Heap.heap) (p : option Heap.loc)
    (v : option ProfileRow) :
  keeps_objects h h' → Heap.is_profile h p v → Heap.is_profile h' p v.
Proof.
  intros [_ Hk]. unfold Heap.is_profile. destruct p, v; try done. apply Hk.
Qed.

Lemma is_row_kept (h h' : Heap.heap) (l : Heap.loc) (c : CommentRow) :
  keeps_objects h h' → Heap.is_row h l c → Heap.is_row h' l c.
Proof.
  intros Hk (o & Hl & Hp & Hr & Hprof & Hc). exists o. split_and!; try done.
  - by apply Hk.
  - by eapply is_profile_kept.
Qed.

Lemma is_row_mono (h h' : Heap.heap) (l : Heap.loc) (c : CommentRow) :
  h `prefix_of` h' → Heap.is_row h l c → Heap.is_row h' l c.
Proof. intros Hpre. by apply is_row_kept, prefix_keeps_objects. Qed.

Lemma is_profile_mono (h h' : Heap.heap) (p : option Heap.loc)
    (v : option ProfileRow) :
  h `prefix_of` h' → Heap.is_profile h p v → Heap.is_profile h' p v.
Proof. intros Hpre. by apply is_profile_kept, prefix_keeps_objects. Qed.

Lemma is_parent_mono (h h' : Heap.heap) (s : Heap.ParentSlot) (p : ParentRef) :
  h `prefix_of` h' → Heap.is_parent h s p → Heap.is_parent h' s p.
Proof.
  intros Hpre. unfold Heap.is_parent. destruct s, p; try done.
  by apply is_row_mono.
Qed.

Lemma is_reply_mono (h h' : Heap.heap) (l : Heap.loc) (it : ReplyItem) :
  h `prefix_of` h' → Heap.is_reply h l it → Heap.is_reply h' l it.
Proof.
  intros Hpre (o & Hl & Hr & Hprof & Hc & Hpar). exists o.
  split_and!; try done.
  - by eapply prefix_lookup_Some.
  - by eapply is_profile_mono.
  - by eapply is_parent_mono.
Qed.

Lemma is_group_mono (h h' : Heap.heap) (l : Heap.loc) (g : CommentWithReplies) :
  h `prefix_of` h' → Heap.is_group h l g → Heap.is_group h' l g.
Proof.
  intros Hpre (o & a & ls & Hl & Hpar & Hprof & Hc & Hrep & Ha & Hls).
  exists o, a, ls. split_and!; try done.
  - by eapply prefix_lookup_Some.
  - by eapply is_profile_mono.
  - by eapply prefix_lookup_Some.
  - eapply Forall2_impl; [done|]. intros. by eapply is_reply_mono.
Qed.

Lemma is_rows_mono (h h' : Heap.heap) (l : Heap.loc) (cs : list CommentRow) :
  h `prefix_of` h' → Heap.is_rows h l cs → Heap.is_rows h' l cs.
Proof.
  intros Hpre (ls & Hl & Hls). exists ls. split.
  - by eapply prefix_lookup_Some.
  - eapply Forall2_impl; [done|]. intros. by eapply is_row_mono.
Qed.

Lemma is_profiles_mono (h h' : Heap.heap) (l : Heap.loc)
    (pm : gmap jsstring ProfileRow) :
  h `prefix_of` h' → Heap.is_profiles h l pm → Heap.is_profiles h' l pm.
Proof.
  intros Hpre (m & Hl & Hm). exists m. split.
  - by eapply prefix_lookup_Some.
  - intros k. by eapply is_profile_mono.
Qed.

Lemma is_row_map_mono (h h' : Heap.heap) (l : Heap.loc)
    (M : gmap jsstring CommentRow) :
  h `prefix_of` h' → Heap.is_row_map h l M → Heap.is_row_map h' l M.
Proof.
  intros Hpre (m & Hl & Hm). exists m. split.
  - by eapply prefix_lookup_Some.
  - intros k. specialize (Hm k).
    destruct (m !! k), (M !! k); try done. by eapply is_row_mono.
Qed.

(** *** Loops over the elements of an array *)

Lemma returns_mapM {A B C D} (f : A → Heap.Run B)
    (I : Heap.heap → A → C → Prop) (R : Heap.heap → B → D → Prop)
    (G : Heap.heap → Prop) (g : C → D) :
  (∀ h h', h `prefix_of` h' → G h → G h') →
  (∀ h h' a c, h `prefix_of` h' → I h a c → I h' a c) →
  (∀ h h' b d, h `prefix_of` h' → R h b d → R h' b d) →
  (∀ h a c, G h → I h a c → Heap.returns (f a) h (λ b h', R h' b (g c))) →
  ∀ l cs h, G h → Forall2 (I h) l cs →
    Heap.returns (Heap.mapM f l) h (λ bs h', Forall2 (R h') bs (g <$> cs)).
Proof.
  intros HG HI HR Hf l. induction l as [|a l IH]; intros cs h Hh Hl.
  - apply Forall2_nil_inv_l in Hl as ->. apply returns_ret. constructor.
  - apply Forall2_cons_inv_l in Hl as (c & cs' & Hac & Hl & ->).
    simpl. apply returns_bind.
    eapply returns_consequence; [by apply Hf|].
    intros b h' Hpre Hb. cbv beta. apply returns_bind.
    eapply returns_consequence.
    + apply (IH cs'); [by eapply HG|].
      eapply Forall2_impl; [exact Hl|]. intros. by eapply HI.
    + intros bs h'' Hpre' Hbs. cbv beta. apply returns_ret.
      constructor; [by eapply HR|done].
Qed.

(** A filter whose test only reads. *)
Lemma filterM_reads {C} (I : Heap.loc → C → Prop) (p : Heap.loc → Heap.Run bool)
    (Q : C → Prop) `{!∀ c, Decision (Q c)} (h : Heap.heap) :
  (∀ l c, I l c → p l h = Some (bool_decide (Q c), h)) →
  ∀ ls cs, Forall2 I ls cs →
    ∃ kept, Heap.filterM p ls h = Some (kept, h)
            ∧ Forall2 I kept (filter Q cs).
Proof.
  intros Hp ls cs Hls. induction Hls as [|l c ls cs Hlc Hls (kept & Hrun & Hkept)].
  - by exists [].
  - exists (if bool_decide (Q c) then l :: kept else kept).
    simpl. unfold Heap.bind at 1. rewrite (Hp l c Hlc).
    unfold Heap.bind at 1. rewrite Hrun. split; [done|].
    rewrite filter_cons. case_bool_decide.
    + rewrite decide_True by done. by constructor.
    + by rewrite decide_False by done.
Qed.

Lemma returns_run {A} (m : Heap.Run A) (h : Heap.heap) (a : A)
    (Q : A → Heap.heap → Prop) :
  m h = Some (a, h) → Q a h → Heap.returns m h Q.
Proof. intros Hm HQ. by exists a, h. Qed.

Lemma bind_eq {A B} (m : Heap.Run A) (f : A → Heap.Run B)
    (h h' : Heap.heap) (a : A) :
  m h = Some (a, h') → Heap.bind m f h = f a h'.
Proof. intros Hm. unfold Heap.bind. by rewrite Hm. Qed.

Lemma read_object_eq (l : Heap.loc) (o : Heap.Object) (h : Heap.heap) :
  h !! l = Some (Heap.CObject o) → Heap.read_object l h = Some (o, h).
Proof.
  intros Hl. unfold Heap.read_object, Heap.bind, Heap.read. by rewrite Hl.
Qed.

Lemma read_map_eq (l : Heap.loc) (m : gmap jsstring Heap.loc) (h : Heap.heap) :
  h !! l = Some (Heap.CMap m) → Heap.read_map l h = Some (m, h).
Proof.
  intros Hl. unfold Heap.read_map, Heap.bind, Heap.read. by rewrite Hl.
Qed.

Lemma read_array_eq (l : Heap.loc) (ls : list Heap.loc) (h : Heap.heap) :
  h !! l = Some (Heap.CArray ls) → Heap.read_array l h = Some (ls, h).
Proof.
  intros Hl. unfold Heap.read_array, Heap.bind, Heap.read. by rewrite Hl.
Qed.

Lemma read_strings_eq (l : Heap.loc) (ks : list jsstring) (h : Heap.heap) :
  h !! l = Some (Heap.CStrings ks) → Heap.read_strings l h = Some (ks, h).
Proof.
  intros Hl. unfold Heap.read_strings, Heap.bind, Heap.read. by rewrite Hl.
Qed.

Lemma write_eq (l : Heap.loc) (c : Heap.Cell) (h : Heap.heap) :
  (l < length h)%nat → Heap.write l c h = Some (tt, <[l := c]> h).
Proof. intros Hl. unfold Heap.write. by rewrite decide_True. Qed.

(** *** attachProfiles *)

Lemma is_row_attachProfiles (h : Heap.heap) (a : Heap.loc) (o : Heap.Object)
    (m : gmap jsstring Heap.loc) (pm : gmap jsstring ProfileRow)
    (row : CommentRow) :
  h !! a = Some (Heap.CObject (Heap.with_profiles o (m !! Heap.o_user_id o))) →
  Heap.o_parent o = Heap.SlotAbsent → Heap.o_replies o = None →
  row = Heap.columns o (profiles row) →
  (∀ k, Heap.is_profile h (m !! k) (pm !! k)) →
  Heap.is_row h a (attachProfiles pm row).
Proof.
  intros Ha Hpar Hrep Hrow Hm.
  exists (Heap.with_profiles o (m !! Heap.o_user_id o)).
  split_and!; try done.
  - simpl. rewrite Hrow. apply Hm.
  - rewrite Hrow. reflexivity.
Qed.

Lemma returns_attachProfiles (lpm c : Heap.loc)
    (pm : gmap jsstring ProfileRow) (row : CommentRow) (h : Heap.heap) :
  Heap.is_row h c row → Heap.is_profiles h lpm pm →
  Heap.returns (Heap.attachProfiles lpm c) h
    (λ a h', Heap.is_row h' a (attachProfiles pm row)).
Proof.
  intros (o & Hl & Hpar & Hrep & Hprof & Hrow) (m & Hm & Hpm).
  unfold Heap.attachProfiles.
  apply returns_bind, (returns_read_object _ o); [done|].
  apply returns_bind, (returns_read_map _ m); [done|].
  apply returns_alloc.
  eapply is_row_attachProfiles; try done; [apply alloc_lookup|].
  intros k. eapply is_profile_mono; [|apply Hpm]. by apply prefix_app_r.
Qed.

(** *** The map of the direct replies *)

Lemma prefix_insert_ge {A} (h0 h : list A) (n : nat) (c : A) :
  h0 `prefix_of` h → (length h0 ≤ n)%nat → h0 `prefix_of` <[n := c]> h.
Proof.
  intros [t ->] Hn. rewrite insert_app_r_alt by done. by apply prefix_app_r.
Qed.

Lemma keeps_objects_set_map (h : Heap.heap) (n : Heap.loc)
    (mi : gmap jsstring Heap.loc) (c x : Heap.Cell) :
  h !! n = Some (Heap.CMap mi) →
  keeps_objects h (<[n := c]> (h ++ [x])).
Proof.
  intros Hn. split; intros l o Hl.
  - rewrite list_lookup_insert_ne by (intros ->; by rewrite Hn in Hl).
    by apply lookup_app_l_Some.
  - rewrite list_lookup_insert_ne by (intros ->; by rewrite Hn in Hl).
    by apply lookup_app_l_Some.
Qed.

Lemma entries_are_rows_kept (h h' : Heap.heap) (m : gmap jsstring Heap.loc)
    (M : gmap jsstring CommentRow) :
  keeps_objects h h' → entries_are_rows h m M → entries_are_rows h' m M.
Proof.
  intros Hk Hm k. specialize (Hm k).
  destruct (m !! k), (M !! k); try done. by eapply is_row_kept.
Qed.

Lemma fill_directReplyMap (lpm : Heap.loc) (pm : gmap jsstring ProfileRow)
    (h0 : Heap.heap) (n : Heap.loc) :
  n = length h0 → Heap.is_profiles h0 lpm pm →
  ∀ rs rows, Forall2 (Heap.is_row h0) rs rows →
  ∀ h mi Mi, h0 `prefix_of` h → h !! n = Some (Heap.CMap mi) →
    entries_are_rows h mi Mi →
    ∃ h' mi',
      Heap.forEach
        (λ r, Heap.bind (Heap.read_object r) (λ o,
              Heap.bind (Heap.attachProfiles lpm r) (λ a,
              Heap.bind (Heap.read_map n) (λ m,
              Heap.write n (Heap.CMap (<[Heap.o_id o := a]> m))))))
        rs h = Some (tt, h')
      ∧ h0 `prefix_of` h' ∧ h' !! n = Some (Heap.CMap mi')
      ∧ entries_are_rows h' mi'
          (foldl (λ m r, <[id r := attachProfiles pm r]> m) Mi rows).
Proof.
  intros -> (m & Hm & Hpm) rs rows Hrs.
  induction Hrs as [|r row rs rows Hr Hrs IH]; intros h mi Mi Hpre Hn Hmi.
  - by exists h, mi.
  - destruct Hr as (o & Hl & Hpar & Hrep & Hprof & Hrow).
    assert (Hlen : (length h0 < length h)%nat) by by eapply lookup_lt_Some.
    set (x := Heap.CObject (Heap.with_profiles o (m !! Heap.o_user_id o))).
    set (h1 := <[length h0 := Heap.CMap (<[Heap.o_id o := length h]> mi)]>
                 (h ++ [x])).
    assert (Hk : keeps_objects h h1) by by eapply keeps_objects_set_map.
    assert (Hpre1 : h0 `prefix_of` h1).
    { apply prefix_insert_ge; [by apply prefix_app_r|done]. }
    assert (Hn1 : h1 !! length h0
                  = Some (Heap.CMap (<[Heap.o_id o := length h]> mi))).
    { apply list_lookup_insert_eq. rewrite length_app. lia. }
    destruct (IH h1 (<[Heap.o_id o := length h]> mi)
                (<[id row := attachProfiles pm row]> Mi)) as (h' & mi' & Hrun & ?);
      [done|done| |].
    + intros k. replace (id row) with (Heap.o_id o) by by rewrite Hrow.
      destruct (decide (k = Heap.o_id o)) as [->|Hne].
      * rewrite !lookup_insert_eq.
        eapply is_row_attachProfiles; try done.
        -- unfold h1. rewrite list_lookup_insert_ne by lia. apply alloc_lookup.
        -- intros k. eapply is_profile_mono; [exact Hpre1|apply Hpm].
      * rewrite !lookup_insert_ne by done. by eapply entries_are_rows_kept.
    + exists h', mi'. split; [|done]. simpl.
      erewrite bind_eq; [exact Hrun|].
      erewrite bind_eq; [|by eapply read_object_eq, prefix_lookup_Some].
      erewrite bind_eq.
      2:{ unfold Heap.attachProfiles.
          erewrite bind_eq; [|by eapply read_object_eq, prefix_lookup_Some].
          erewrite bind_eq; [|by eapply read_map_eq, prefix_lookup_Some].
          reflexivity. }
      erewrite bind_eq; [|by eapply read_map_eq, lookup_app_l_Some].
      rewrite write_eq by (rewrite length_app; lia). done.
Qed.

Lemma returns_build_directReplyMap (ldr lpm : Heap.loc)
    (dr : list CommentRow) (pm : gmap jsstring ProfileRow) (h : Heap.heap) :
  Heap.is_rows h ldr dr → Heap.is_profiles h lpm pm →
  Heap.returns (Heap.build_directReplyMap ldr lpm) h
    (λ l h', Heap.is_row_map h' l (build_directReplyMap pm dr)).
Proof.
  intros (rs & Hldr & Hrs) Hpm.
  destruct (fill_directReplyMap lpm pm h (length h) eq_refl Hpm rs dr Hrs
              (h ++ [Heap.CMap ∅]) ∅ ∅) as (h' & mi' & Hrun & Hpre & Hn & Hmi).
  { by apply prefix_app_r. }
  { apply alloc_lookup. }
  { intros k. by rewrite !lookup_empty. }
  exists (length h), h'. split_and!; [|done|by exists mi'].
  unfold Heap.build_directReplyMap.
  erewrite bind_eq; [|reflexivity].
  erewrite bind_eq; [|by eapply read_array_eq, lookup_app_l_Some].
  erewrite bind_eq; [|exact Hrun]. done.
Qed.

Lemma returns_alloc_fresh (c : Heap.Cell) (h : Heap.heap)
    (Q : Heap.loc → Heap.heap → Prop) :
  (∀ h', h `prefix_of` h' → h' !! length h = Some c → Q (length h) h') →
  Heap.returns (Heap.alloc c) h Q.
Proof.
  intros HQ. apply returns_alloc, HQ; [by apply prefix_app_r|apply alloc_lookup].
Qed.

Lemma is_row_object (h : Heap.heap) (l : Heap.loc) (c : CommentRow) :
  Heap.is_row h l c →
  ∃ o, h !! l = Some (Heap.CObject o) ∧ c = Heap.columns o (profiles c).
Proof. intros (o & Hl & _ & _ & _ & Hc). by exists o. Qed.

Lemma is_rows_elements_mono (h h' : Heap.heap) (ls : list Heap.loc)
    (cs : list CommentRow) :
  h `prefix_of` h' → Forall2 (Heap.is_row h) ls cs →
  Forall2 (Heap.is_row h') ls cs.
Proof.
  intros Hpre Hls. eapply Forall2_impl; [exact Hls|].
  intros. by eapply is_row_mono.
Qed.

Lemma is_reply_elements_mono (h h' : Heap.heap) (ls : list Heap.loc)
    (its : list ReplyItem) :
  h `prefix_of` h' → Forall2 (Heap.is_reply h) ls its →
  Forall2 (Heap.is_reply h') ls its.
Proof.
  intros Hpre Hls. eapply Forall2_impl; [exact Hls|].
  intros. by eapply is_reply_mono.
Qed.

(** *** The sort of the array literal *)

Lemma sort_insert_Forall2 {A B} (R : A → B → Prop)
    (cmpA : A → A → option Z) (cmpB : B → B → option Z) :
  (∀ a b x y, R a x → R b y → cmpA a b = cmpB x y) →
  ∀ a x l k, R a x → Forall2 R l k →
    Forall2 R (sort_insert cmpA a l) (sort_insert cmpB x k).
Proof.
  intros Hc a x l k Hax Hlk.
  induction Hlk as [|b y l k Hby Hlk IH]; simpl; [by repeat constructor|].
  unfold sorts_after. rewrite (Hc a b x y) by done.
  destruct (cmpB x y) as [v|]; [|by repeat constructor].
  destruct (0 <? v); by repeat constructor.
Qed.

Lemma array_sort_Forall2 {A B} (R : A → B → Prop)
    (cmpA : A → A → option Z) (cmpB : B → B → option Z) :
  (∀ a b x y, R a x → R b y → cmpA a b = cmpB x y) →
  ∀ l k, Forall2 R l k → Forall2 R (array_sort cmpA l) (array_sort cmpB k).
Proof.
  intros Hc l k Hlk. induction Hlk; simpl; [constructor|].
  by apply sort_insert_Forall2.
Qed.

Lemma mapM_keys (h h1 : Heap.heap) (elems : list Heap.loc)
    (items : list ReplyItem) :
  h `prefix_of` h1 → Forall2 (Heap.is_reply h) elems items →
  ∃ keyed,
    Heap.mapM
      (λ l, Heap.bind (Heap.read_object l)
              (λ o, Heap.ret (l, Heap.o_created_at o)))
      elems h1 = Some (keyed, h1)
    ∧ Forall2 (keyed_reply h) keyed items.
Proof.
  intros Hpre Hls.
  induction Hls as [|l it elems items Hl Hls (keyed & Hrun & Hkeyed)].
  - exists []. by split.
  - destruct Hl as (o & Hl & Hrep & Hprof & Hrow & Hpar).
    exists ((l, Heap.o_created_at o) :: keyed). split.
    + simpl. erewrite bind_eq.
      2:{ erewrite bind_eq; [|by eapply read_object_eq, prefix_lookup_Some].
          reflexivity. }
      erewrite bind_eq; [|exact Hrun]. done.
    + constructor; [|done]. split; [by exists o|]. simpl. by rewrite Hrow.
Qed.

Lemma returns_sorted_literal (getTime : jsstring → option Z)
    (elems : list Heap.loc) (items : list ReplyItem) (h : Heap.heap) :
  Forall2 (Heap.is_reply h) elems items →
  Heap.returns (Heap.sorted_literal getTime elems) h
    (λ arr h', ∃ ls, h' !! arr = Some (Heap.CArray ls)
                     ∧ Forall2 (Heap.is_reply h') ls
                         (array_sort (compare_replies getTime) items)).
Proof.
  intros Hls.
  destruct (mapM_keys h (h ++ [Heap.CArray elems]) elems items)
    as (keyed & Hrun & Hkeyed); [by apply prefix_app_r|done|].
  set (s := array_sort
              (λ a b : Heap.loc * jsstring,
                 number_minus (getTime b.2) (getTime a.2)) keyed).
  assert (Hwrite : <[length h := Heap.CArray s.*1]> (h ++ [Heap.CArray elems])
                   = h ++ [Heap.CArray s.*1]).
  { rewrite insert_app_r_alt by done. by rewrite Nat.sub_diag. }
  exists (length h), (h ++ [Heap.CArray s.*1]). split_and!.
  - unfold Heap.sorted_literal.
    erewrite bind_eq; [|reflexivity].
    erewrite bind_eq; [|apply read_array_eq, alloc_lookup].
    erewrite bind_eq; [|exact Hrun].
    erewrite bind_eq; [|apply write_eq; rewrite length_app; simpl; lia].
    fold s. by rewrite Hwrite.
  - by apply prefix_app_r.
  - exists s.*1. split; [apply alloc_lookup|].
    apply Forall2_fmap_l.
    eapply Forall2_impl.
    + apply (array_sort_Forall2 (keyed_reply h)
               _ (compare_replies getTime)); [|exact Hkeyed].
      intros a b x y [_ Ha] [_ Hb]. unfold compare_replies.
      by rewrite Ha, Hb.
    + intros p it [Hp _]. simpl.
      eapply is_reply_mono; [|exact Hp]. by apply prefix_app_r.
Qed.

(** *** One group *)

Lemma is_parent_get (h : Heap.heap) (m : gmap jsstring Heap.loc)
    (M : gmap jsstring CommentRow) (p : option jsstring) :
  entries_are_rows h m M →
  Heap.is_parent h (Heap.get_parent m p) (map_get M p).
Proof.
  intros Hm. destruct p as [k|]; simpl; [|done].
  specialize (Hm k). by destruct (m !! k), (M !! k).
Qed.

Lemma returns_nested_item (lpm lmap n : Heap.loc)
    (pm : gmap jsstring ProfileRow) (M : gmap jsstring CommentRow)
    (row : CommentRow) (h : Heap.heap) :
  Heap.is_profiles h lpm pm → Heap.is_row_map h lmap M → Heap.is_row h n row →
  Heap.returns
    (Heap.bind (Heap.attachProfiles lpm n) (λ a,
     Heap.bind (Heap.read_object a) (λ oa,
     Heap.bind (Heap.read_object n) (λ on,
     Heap.bind (Heap.read_map lmap) (λ m,
     Heap.alloc
       (Heap.CObject
          (Heap.with_parent oa
             (Heap.get_parent m (Heap.o_parent_id on)))))))))
    h
    (λ b h', Heap.is_reply h' b
               {| reply_row := attachProfiles pm row;
                  parent := map_get M (parent_id row) |}).
Proof.
  intros Hpm HM Hn.
  apply returns_bind. eapply returns_consequence;
    [by apply (returns_attachProfiles lpm n pm row)|].
  intros a h1 Hpre1 (oa & Ha & Hpar & Hrep & Hprof & Hcols). cbv beta.
  apply returns_bind, (returns_read_object _ oa); [done|].
  destruct Hn as (on & Hon & _ & _ & _ & Hrow).
  apply returns_bind, (returns_read_object _ on);
    [by eapply prefix_lookup_Some|].
  destruct HM as (m & Hm & Hentries).
  apply returns_bind, (returns_read_map _ m);
    [by eapply prefix_lookup_Some|].
  apply returns_alloc_fresh. intros h2 Hpre2 Hnew.
  eexists. split_and!; [exact Hnew|done| | |].
  - simpl. by eapply is_profile_mono.
  - simpl. exact Hcols.
  - simpl. replace (Heap.o_parent_id on) with (parent_id row)
      by by rewrite Hrow.
    apply is_parent_get. intros k. specialize (Hentries k).
    destruct (m !! k), (M !! k); try done.
    eapply is_row_mono; [|exact Hentries]. by etrans.
Qed.

Lemma returns_direct_item (r : Heap.loc) (row : CommentRow) (h : Heap.heap) :
  Heap.is_row h r row →
  Heap.returns
    (Heap.bind (Heap.read_object r) (λ o,
     Heap.alloc (Heap.CObject (Heap.with_parent o Heap.SlotNull))))
    h
    (λ b h', Heap.is_reply h' b {| reply_row := row; parent := ParentNull |}).
Proof.
  intros (o & Hl & Hpar & Hrep & Hprof & Hrow).
  apply returns_bind, (returns_read_object _ o); [done|].
  apply returns_alloc_fresh. intros h1 Hpre1 Hnew.
  eexists. split_and!; [exact Hnew|done| |done|done].
  simpl. by eapply is_profile_mono.
Qed.

Lemma returns_ids (ls : list Heap.loc) (rows : list CommentRow) (h : Heap.heap) :
  Forall2 (Heap.is_row h) ls rows →
  Heap.mapM (λ r, Heap.bind (Heap.read_object r) (λ o, Heap.ret (Heap.o_id o)))
    ls h = Some (id <$> rows, h).
Proof.
  intros Hls. induction Hls as [|l row ls rows Hl Hls IH]; [done|].
  destruct Hl as (o & Hl & _ & _ & _ & Hrow).
  simpl. erewrite bind_eq.
  2:{ erewrite bind_eq; [|by apply read_object_eq]. reflexivity. }
  erewrite bind_eq; [|exact IH]. unfold Heap.ret. by rewrite Hrow.
Qed.

Lemma returns_group_of (getTime : jsstring → option Z)
    (ldr lnr lpm lmap c : Heap.loc) (dr nr : list CommentRow)
    (pm : gmap jsstring ProfileRow) (M : gmap jsstring CommentRow)
    (row : CommentRow) (h : Heap.heap) :
  Heap.is_rows h ldr dr → Heap.is_rows h lnr nr →
  Heap.is_profiles h lpm pm → Heap.is_row_map h lmap M →
  Heap.is_row h c row →
  Heap.returns (Heap.group_of getTime ldr lnr lpm lmap c) h
    (λ g h', Heap.is_group h' g
               {| group_row := attachProfiles pm row;
                  replies := array_sort (compare_replies getTime)
                               (merged_of pm M dr nr row) |}).
Proof.
  intros (rs & Hldr & Hrs) (ns & Hlnr & Hns) Hpm HM Hc.
  destruct (is_row_object _ _ _ Hc) as (oc & Hoc & Hrow).
  unfold Heap.group_of.
  apply returns_bind, (returns_read_object _ oc); [done|].
  apply returns_bind, (returns_read_array _ rs); [done|].
  (* direct *)
  destruct (filterM_reads (Heap.is_row h)
              (λ r, Heap.bind (Heap.read_object r) (λ o,
                 Heap.ret (bool_decide
                             (Heap.o_parent_id o = Some (Heap.o_id oc)))))
              (λ r, parent_id r = Some (id row)) h) with rs dr
    as (kept & Hfilter & Hkept); [|done|].
  { intros l r (o & Hl & _ & _ & _ & Hr).
    erewrite bind_eq; [|by apply read_object_eq].
    unfold Heap.ret. do 2 f_equal. apply bool_decide_ext.
    by rewrite Hr, Hrow. }
  apply returns_bind. eapply returns_run; [exact Hfilter|].
  apply returns_bind, returns_alloc_fresh. intros h1 Hpre1 _.
  apply returns_bind. eapply returns_consequence.
  { apply (returns_mapM (Heap.attachProfiles lpm) Heap.is_row Heap.is_row
             (λ h, Heap.is_profiles h lpm pm) (attachProfiles pm)
             (λ h h' Hp, is_profiles_mono h h' lpm pm Hp)
             (λ h h' a c Hp, is_row_mono h h' a c Hp)
             (λ h h' a c Hp, is_row_mono h h' a c Hp)
             (λ h a c Hp Ha, returns_attachProfiles lpm a pm c h Ha Hp)
             kept (filter (λ r, parent_id r = Some (id row)) dr) h1).
    - by eapply is_profiles_mono.
    - by eapply is_rows_elements_mono. }
  fold (direct_of pm dr row).
  intros direct_elems h2 Hpre2 Hdirect. cbv beta.
  apply returns_bind, returns_alloc_fresh. intros h3 Hpre3 _.
  assert (Hdirect3 : Forall2 (Heap.is_row h3) direct_elems (direct_of pm dr row))
    by by eapply is_rows_elements_mono.
  apply returns_bind. eapply returns_run; [by apply returns_ids|].
  apply returns_bind, returns_alloc_fresh. intros h4 Hpre4 Hids.
  assert (H04 : h `prefix_of` h4) by (by repeat (etrans; [eassumption|])).
  apply returns_bind, (returns_read_array _ ns);
    [by eapply prefix_lookup_Some|].
  (* nested *)
  destruct (filterM_reads (Heap.is_row h4)
              (λ n, Heap.bind (Heap.read_object n) (λ o,
                    Heap.bind (Heap.read_strings (length h3)) (λ ks,
                    Heap.ret (includes ks (Heap.o_parent_id o)))))
              (λ n, includes (id <$> direct_of pm dr row) (parent_id n) = true)
              h4) with ns nr
    as (kept_n & Hfilter_n & Hkept_n);
    [|by eapply is_rows_elements_mono|].
  { intros l r (o & Hl & _ & _ & _ & Hr).
    erewrite bind_eq; [|by apply read_object_eq].
    erewrite bind_eq; [|by apply read_strings_eq].
    unfold Heap.ret. do 2 f_equal.
    replace (parent_id r) with (Heap.o_parent_id o) by by rewrite Hr.
    by destruct (includes _ _). }
  apply returns_bind. eapply returns_run; [exact Hfilter_n|].
  apply returns_bind, returns_alloc_fresh. intros h5 Hpre5 _.
  assert (H05 : h `prefix_of` h5) by by etrans.
  apply returns_bind. eapply returns_consequence.
  { apply (returns_mapM _ Heap.is_row Heap.is_reply
             (λ h, Heap.is_profiles h lpm pm ∧ Heap.is_row_map h lmap M)
             (λ n, {| reply_row := attachProfiles pm n;
                      parent := map_get M (parent_id n) |})).
    - intros ha hb Hp [? ?].
      split; [by eapply is_profiles_mono|by eapply is_row_map_mono].
    - intros. by eapply is_row_mono.
    - intros. by eapply is_reply_mono.
    - intros ha a r [? ?] Har. by apply returns_nested_item.
    - split; [by eapply is_profiles_mono|by eapply is_row_map_mono].
    - eapply is_rows_elements_mono; [|exact Hkept_n]. done. }
  fold (nested_of pm M (id <$> direct_of pm dr row) nr).
  intros nested_elems h6 Hpre6 Hnested. cbv beta.
  apply returns_bind, returns_alloc_fresh. intros h7 Hpre7 _.
  assert (H37 : h3 `prefix_of` h7) by (by repeat (etrans; [eassumption|])).
  apply returns_bind. eapply returns_consequence.
  { apply (returns_mapM _ Heap.is_row Heap.is_reply (λ _, True)
             (λ r, {| reply_row := r; parent := ParentNull |})).
    - done.
    - intros. by eapply is_row_mono.
    - intros. by eapply is_reply_mono.
    - intros ha a r _ Har. by apply returns_direct_item.
    - done.
    - eapply is_rows_elements_mono; [|exact Hdirect3]. done. }
  intros direct_items h8 Hpre8 Hitems. cbv beta.
  apply returns_bind, returns_alloc_fresh. intros h9 Hpre9 _.
  apply returns_bind. eapply returns_consequence.
  { apply (returns_sorted_literal getTime _ (merged_of pm M dr nr row)).
    unfold merged_of. apply Forall2_app.
    - by eapply is_reply_elements_mono.
    - eapply is_reply_elements_mono; [|exact Hnested].
      by repeat (etrans; [eassumption|]). }
  intros flatReplies h10 Hpre10 (ls & Hflat & Hls). cbv beta.
  assert (H0_10 : h `prefix_of` h10).
  { etrans; [exact H05|]. by repeat (etrans; [eassumption|]). }
  apply returns_bind. eapply returns_consequence.
  { apply (returns_attachProfiles lpm c pm row);
      [by eapply is_row_mono|by eapply is_profiles_mono]. }
  intros a h11 Hpre11 (oa & Ha & Hpar & Hrep & Hprof & Hcols). cbv beta.
  apply returns_bind, (returns_read_object _ oa); [done|].
  apply returns_alloc_fresh. intros h12 Hpre12 Hnew.
  exists (Heap.with_replies oa flatReplies), flatReplies, ls.
  split_and!; try done.
  - simpl. by eapply is_profile_mono.
  - eapply prefix_lookup_Some; [exact Hflat|]. by etrans.
  - eapply is_reply_elements_mono; [|exact Hls]. by etrans.
Qed.

(** *** The whole assembly *)

(** Run on a heap that holds the three fetched arrays and the profile
    map, the assembly ends without fault, changes no cell that was there
    before (so none of its inputs), and the array it returns holds the
    groups that [withReplies] computes from the values. *)
Theorem assembly_keeps_its_inputs (getTime : jsstring → option Z)
    (ltop ldr lnr lpm : Heap.loc) (top dr nr : list CommentRow)
    (pm : gmap jsstring ProfileRow) (h : Heap.heap) :
  Heap.is_rows h ltop top → Heap.is_rows h ldr dr → Heap.is_rows h lnr nr →
  Heap.is_profiles h lpm pm →
  ∃ out h',
    Heap.withReplies getTime ltop ldr lnr lpm h = Some (out, h')
    ∧ h `prefix_of` h'
    ∧ Heap.is_groups h' out (withReplies getTime pm top dr nr).
Proof.
  intros (ts & Hltop & Hts) Hdr Hnr Hpm.
  change (Heap.returns (Heap.withReplies getTime ltop ldr lnr lpm) h
            (λ out h', Heap.is_groups h' out (withReplies getTime pm top dr nr))).
  unfold Heap.withReplies.
  apply returns_bind. eapply returns_consequence;
    [by apply (returns_build_directReplyMap ldr lpm dr pm)|].
  intros lmap h1 Hpre1 HM. cbv beta.
  apply returns_bind, (returns_read_array _ ts);
    [by eapply prefix_lookup_Some|].
  apply returns_bind. eapply returns_consequence.
  { apply (returns_mapM (Heap.group_of getTime ldr lnr lpm lmap)
             Heap.is_row Heap.is_group
             (λ h, Heap.is_rows h ldr dr ∧ Heap.is_rows h lnr nr
                   ∧ Heap.is_profiles h lpm pm
                   ∧ Heap.is_row_map h lmap (build_directReplyMap pm dr))
             (λ c, {| group_row := attachProfiles pm c;
                      replies :=
                        array_sort (compare_replies getTime)
                          (merged_of pm (build_directReplyMap pm dr) dr nr c) |})).
    - intros ha hb Hp (? & ? & ? & ?).
      split_and!; [by eapply is_rows_mono|by eapply is_rows_mono
                  |by eapply is_profiles_mono|by eapply is_row_map_mono].
    - intros. by eapply is_row_mono.
    - intros. by eapply is_group_mono.
    - intros ha c row (? & ? & ? & ?) Hc. by apply returns_group_of.
    - split_and!; [by eapply is_rows_mono|by eapply is_rows_mono
                  |by eapply is_profiles_mono|done].
    - by eapply is_rows_elements_mono. }
  intros groups h2 Hpre2 Hgroups. cbv beta.
  apply returns_alloc_fresh. intros h3 Hpre3 Hnew.
  exists groups. split; [done|].
  eapply Forall2_impl; [exact Hgroups|]. intros. by eapply is_group_mono.
Qed.

Lemma page_heap_rows (c : CommentRow) (l : Heap.loc) :
  page_heap !! l = Some (Heap.CObject (object_of c)) → profiles c = None →
  Heap.is_row page_heap l c.
Proof.
  intros Hl Hc. exists (object_of c). split_and!; try done.
  - simpl. by rewrite Hc.
  - destruct c. simpl in Hc. by subst.
Qed.

Lemma assembly_keeps_its_inputs_witness :
  ∃ out h',
    Heap.withReplies digits_ms 8 9 10 1 page_heap = Some (out, h')
    ∧ page_heap `prefix_of` h'
    ∧ Heap.is_groups h' out
        (withReplies digits_ms page_profiles page_top page_direct page_nested).
Proof.
  apply (assembly_keeps_its_inputs digits_ms 8 9 10 1
           page_top page_direct page_nested page_profiles page_heap).
  - exists [2%nat]. split; [reflexivity|].
    repeat constructor; by apply page_heap_rows.
  - exists [3%nat; 4%nat; 5%nat]. split; [reflexivity|].
    repeat constructor; by apply page_heap_rows.
  - exists [6%nat; 7%nat]. split; [reflexivity|].
    repeat constructor; by apply page_heap_rows.
  - exists {[ js "ann" := 0%nat ]}. split; [reflexivity|].
    intros k. unfold page_profiles.
    destruct (decide (k = js "ann")) as [->|Hk].
    + rewrite !lookup_singleton_eq. reflexivity.
    + rewrite !lookup_singleton_ne by done. exact I.
Defined.

(** ** The assembly is a function of the values of its inputs *)

Lemma returns_withReplies (getTime : jsstring → option Z)
    (ltop ldr lnr lpm : Heap.loc) (top dr nr : list CommentRow)
    (pm : gmap jsstring ProfileRow) (h : Heap.heap) :
  Heap.is_rows h ltop top → Heap.is_rows h ldr dr → Heap.is_rows h lnr nr →
  Heap.is_profiles h lpm pm →
  Heap.returns (Heap.withReplies getTime ltop ldr lnr lpm) h
    (λ out h', Heap.is_groups h' out (withReplies getTime pm top dr nr)).
Proof.
  intros (ts & Hltop & Hts) Hdr Hnr Hpm.
  unfold Heap.withReplies.
  apply returns_bind. eapply returns_consequence;
    [by apply (returns_build_directReplyMap ldr lpm dr pm)|].
  intros lmap h1 Hpre1 HM. cbv beta.
  apply returns_bind, (returns_read_array _ ts);
    [by eapply prefix_lookup_Some|].
  apply returns_bind. eapply returns_consequence.
  { apply (returns_mapM (Heap.group_of getTime ldr lnr lpm lmap)
             Heap.is_row Heap.is_group
             (λ h, Heap.is_rows h ldr dr ∧ Heap.is_rows h lnr nr
                   ∧ Heap.is_profiles h lpm pm
                   ∧ Heap.is_row_map h lmap (build_directReplyMap pm dr))
             (λ c, {| group_row := attachProfiles pm c;
                      replies :=
                        array_sort (compare_replies getTime)
                          (merged_of pm (build_directReplyMap pm dr) dr nr c) |})).
    - intros ha hb Hp (? & ? & ? & ?).
      split_and!; [by eapply is_rows_mono|by eapply is_rows_mono
                  |by eapply is_profiles_mono|by eapply is_row_map_mono].
    - intros. by eapply is_row_mono.
    - intros. by eapply is_group_mono.
    - intros ha c row (? & ? & ? & ?) Hc. by apply returns_group_of.
    - split_and!; [by eapply is_rows_mono|by eapply is_rows_mono
                  |by eapply is_profiles_mono|done].
    - by eapply is_rows_elements_mono. }
  intros groups h2 Hpre2 Hgroups. cbv beta.
  apply returns_alloc_fresh. intros h3 Hpre3 Hnew.
  exists groups. split; [done|].
  eapply Forall2_impl; [exact Hgroups|]. intros. by eapply is_group_mono.
Qed.

(** C4: the assembly is a function of the values of its inputs and
    changes none of them. Two runs, on heaps that hold structurally
    identical arrays [list], [directReplies], [nestedReplies] and maps
    [profilesMap] at whatever addresses, both end without fault and
    return arrays that hold the same groups, those that [withReplies]
    computes from the values. A run leaves every cell that was there
    before it as it was: the three arrays and the map still hold what
    they held, and so does the set of liked ids, which the assembly does
    not read. *)
Theorem assembly_is_pure (getTime : jsstring → option Z)
    (ltop ldr lnr lpm lliked ltop' ldr' lnr' lpm' : Heap.loc)
    (top dr nr : list CommentRow) (pm : gmap jsstring ProfileRow)
    (liked : gset jsstring) (h h' : Heap.heap) :
  Heap.is_rows h ltop top → Heap.is_rows h ldr dr → Heap.is_rows h lnr nr →
  Heap.is_profiles h lpm pm → h !! lliked = Some (Heap.CSet liked) →
  Heap.is_rows h' ltop' top → Heap.is_rows h' ldr' dr →
  Heap.is_rows h' lnr' nr → Heap.is_profiles h' lpm' pm →
  ∃ out hout out' hout',
    Heap.withReplies getTime ltop ldr lnr lpm h = Some (out, hout)
    ∧ Heap.withReplies getTime ltop' ldr' lnr' lpm' h' = Some (out', hout')
    ∧ Heap.is_groups hout out (withReplies getTime pm top dr nr)
    ∧ Heap.is_groups hout' out' (withReplies getTime pm top dr nr)
    ∧ h `prefix_of` hout ∧ h' `prefix_of` hout'
    ∧ Heap.is_rows hout ltop top ∧ Heap.is_rows hout ldr dr
    ∧ Heap.is_rows hout lnr nr ∧ Heap.is_profiles hout lpm pm
    ∧ hout !! lliked = Some (Heap.CSet liked).
Proof.
  intros Htop Hdr Hnr Hpm Hliked Htop' Hdr' Hnr' Hpm'.
  destruct (returns_withReplies getTime ltop ldr lnr lpm top dr nr pm h)
    as (out & hout & Hrun & Hpre & Hout); try done.
  destruct (returns_withReplies getTime ltop' ldr' lnr' lpm' top dr nr pm h')
    as (out' & hout' & Hrun' & Hpre' & Hout'); try done.
  exists out, hout, out', hout'. split_and!; try done.
  - by eapply is_rows_mono.
  - by eapply is_rows_mono.
  - by eapply is_rows_mono.
  - by eapply is_profiles_mono.
  - by eapply prefix_lookup_Some.
Qed.

Lemma is_row_object_of (h : Heap.heap) (l : Heap.loc) (c : CommentRow) :
  h !! l = Some (Heap.CObject (object_of c)) → profiles c = None →
  Heap.is_row h l c.
Proof.
  intros Hl Hc. exists (object_of c). split_and!; try done.
  - simpl. by rewrite Hc.
  - destruct c. simpl in Hc. by subst.
Qed.

Lemma is_profiles_ann (h : Heap.heap) (lpm l : Heap.loc) :
  h !! lpm = Some (Heap.CMap {[ js "ann" := l ]}) →
  h !! l
  = Some (Heap.CProfile {| nickname := Some (js "Ann"); avatar_url := None |}) →
  Heap.is_profiles h lpm page_profiles.
Proof.
  intros Hlpm Hl. exists {[ js "ann" := l ]}. split; [done|].
  intros k. unfold page_profiles.
  destruct (decide (k = js "ann")) as [->|Hk].
  - by rewrite !lookup_singleton_eq.
  - by rewrite !lookup_singleton_ne.
Qed.

Lemma assembly_is_pure_witness :
  ∃ out hout out' hout',
    Heap.withReplies digits_ms 8 9 10 1 page_heap_liked = Some (out, hout)
    ∧ Heap.withReplies digits_ms 9 10 11 2 page_heap_moved
      = Some (out', hout')
    ∧ Heap.is_groups hout out
        (withReplies digits_ms page_profiles page_top page_direct page_nested)
    ∧ Heap.is_groups hout' out'
        (withReplies digits_ms page_profiles page_top page_direct page_nested)
    ∧ page_heap_liked `prefix_of` hout ∧ page_heap_moved `prefix_of` hout'
    ∧ Heap.is_rows hout 8 page_top ∧ Heap.is_rows hout 9 page_direct
    ∧ Heap.is_rows hout 10 page_nested
    ∧ Heap.is_profiles hout 1 page_profiles
    ∧ hout !! 11%nat = Some (Heap.CSet {[ js "c1" ]}).
Proof.
  apply (assembly_is_pure digits_ms 8 9 10 1 11 9 10 11 2
           page_top page_direct page_nested page_profiles {[ js "c1" ]}
           page_heap_liked page_heap_moved).
  - exists [2%nat]. split; [reflexivity|].
    repeat constructor; by apply is_row_object_of.
  - exists [3%nat; 4%nat; 5%nat]. split; [reflexivity|].
    repeat constructor; by apply is_row_object_of.
  - exists [6%nat; 7%nat]. split; [reflexivity|].
    repeat constructor; by apply is_row_object_of.
  - by apply (is_profiles_ann _ _ 0%nat).
  - reflexivity.
  - exists [3%nat]. split; [reflexivity|].
    repeat constructor; by apply is_row_object_of.
  - exists [4%nat; 5%nat; 6%nat]. split; [reflexivity|].
    repeat constructor; by apply is_row_object_of.
  - exists [7%nat; 8%nat]. split; [reflexivity|].
    repeat constructor; by apply is_row_object_of.
  - by apply (is_profiles_ann _ _ 1%nat).
Defined.
